(** * agno: provider-response normalisation, PDF-URL reader, MongoDB workflow storage

    A shallow embedding of
    - [libs/agno/agno/models/groq/groq.py] (the Groq adapter: request
      parameters, usage metrics, the non-streaming and the streaming response
      paths),
    - [libs/agno/agno/document/reader/pdf_reader.py] ([PDFUrlReader.read]),
    - [libs/agno/agno/storage/workflow/mongodb.py]
      ([MongoDbWorkflowStorage.upsert]),
    together with the properties the specification states about them, and
    of what else these files hold: the adapter's [to_dict] and client
    parameters, the other PDF readers, and the storage's [read],
    [delete_session] and [get_all_session_ids].

    Python objects that are mutated in place (the adapter's lifetime
    [self.metrics] dict, the conversation list, the vendor connection, the
    generator's output) live in an explicit world that every operation
    threads; a raised exception leaves the world as it was at the raise.

    The first part holds the definitions: the programs, then the vocabulary
    of the statements.  The second part holds the lemmas and the theorems. *)

From Stdlib Require Import ZArith QArith Ascii.
From stdpp Require Import gmap strings list fin_maps pretty.

Set Warnings "-register-all".

(** * Python values *)

Module Py.

(** Python numbers: [int] is unbounded, [float] is idealised by a rational.
    No statement below depends on rounding: sums are always written in the
    order in which the code evaluates them. *)
Inductive num :=
| Int (z : Z)
| Float (q : Q).

(** [a + b] on numbers; an [int] operand is promoted when the other is a
    [float]. *)
Definition add (a b : num) : num :=
  match a, b with
  | Int x, Int y => Int (x + y)
  | Int x, Float y => Float (Qplus (inject_Z x) y)
  | Float x, Int y => Float (Qplus x (inject_Z y))
  | Float x, Float y => Float (Qplus x y)
  end.

(** [sum(xs)]: left to right, starting from the integer [0]. *)
Definition sum (xs : list num) : num := foldl add (Int 0) xs.

(** The values held by a metrics dict: a number, or a list of floats
    (["response_times"], ["time_to_first_token"]). *)
Inductive val :=
| Num (n : num)
| Floats (xs : list Q).

(** A Python object as a request parameter can hold it ([Any]). *)
Inductive obj :=
| ONone
| OBool (b : bool)
| OInt (z : Z)
| OFloat (q : Q)
| OStr (s : string)
| OList (xs : list obj)
| ODict (kvs : list (string * obj)).

(** [bool(x)]: the test behind [if x:]. *)
Definition truthy (x : obj) : bool :=
  match x with
  | ONone => false
  | OBool b => b
  | OInt z => negb (z =? 0)%Z
  | OFloat q => negb (Qnum q =? 0)%Z
  | OStr s => negb (String.eqb s "")
  | OList xs => match xs with [] => false | _ => true end
  | ODict kvs => match kvs with [] => false | _ => true end
  end.

Inductive exn :=
| TypeError
| ZeroDivisionError
| AttributeError
| IndexError
| KeyError (key : string)
| ValueError (message : string)
| UnboundLocalError (name : string)
| APIStatusError (status_code : Z) (message : string)
| ModelProviderError (model_name model_id : string) (status_code : Z)
| RequestError (message : string)
| HTTPStatusError (status_code : Z)
| PdfReadError (message : string).

(** [d[k] = d.get(k, 0) + v] *)
Definition accumulate (k : string) (v : num) (d : gmap string val)
  : exn + gmap string val :=
  match default (Num (Int 0)) (d !! k) with
  | Num x => inr (<[k := Num (add x v)]> d)
  | Floats _ => inl TypeError
  end.

(** [d.setdefault(k, []).append(x)] *)
Definition setdefault_append (k : string) (x : Q) (d : gmap string val)
  : exn + gmap string val :=
  match d !! k with
  | None => inr (<[k := Floats [x]]> d)
  | Some (Floats xs) => inr (<[k := Floats (xs ++ [x])]> d)
  | Some (Num _) => inl AttributeError
  end.

End Py.

(** * A state-and-exception monad

    [Starved] is not a Python outcome: it marks a run for which the model was
    given too little (no scripted vendor reply left, or no recursion fuel). *)

Inductive outcome (A : Type) :=
| Return (a : A)
| Raise (e : Py.exn)
| Starved.
Arguments Return {A} a.
Arguments Raise {A} e.
Arguments Starved {A}.

Definition M (W A : Type) : Type := W -> outcome A * W.

Definition ret {W A} (a : A) : M W A := fun w => (Return a, w).

Definition bind {W A B} (c : M W A) (k : A -> M W B) : M W B :=
  fun w =>
    match c w with
    | (Return a, w') => k a w'
    | (Raise e, w') => (Raise e, w')
    | (Starved, w') => (Starved, w')
    end.

Definition raise {W A} (e : Py.exn) : M W A := fun w => (Raise e, w).
Definition starve {W A} : M W A := fun w => (Starved, w).
Definition get {W} : M W W := fun w => (Return w, w).
Definition modify {W} (f : W -> W) : M W unit := fun w => (Return tt, f w).

(** A pure step that may raise. *)
Definition lift {W A} (r : Py.exn + A) : M W A :=
  match r with
  | inl e => raise e
  | inr a => ret a
  end.

Global Instance M_ret {W} : MRet (M W) := @ret W.
Global Instance M_bind {W} : MBind (M W) := fun A B k c => bind c k.

(** * The Groq adapter: data *)

(** [groq.types.CompletionUsage]; the adapter tests every field against
    [None], so every field is optional here. *)
Module Usage.
Record t := mk {
  prompt_tokens : option Z;
  completion_tokens : option Z;
  total_tokens : option Z;
  completion_time : option Q;
  prompt_time : option Q;
  queue_time : option Q;
  total_time : option Q
}.
End Usage.

(** The per-call [Metrics] dataclass: the fields of the base class that the
    adapter touches, then the four the Groq subclass adds (all [None] by
    default).  [response_timer] holds the timer's [elapsed] reading. *)
Module Metrics.
Record t := mk {
  input_tokens : option Z;
  output_tokens : option Z;
  total_tokens : option Z;
  prompt_tokens : option Z;
  completion_tokens : option Z;
  time_to_first_token : option Q;
  response_timer : Q;
  completion_time : option Q;
  prompt_time : option Q;
  queue_time : option Q;
  total_time : option Q
}.

Definition set_input_tokens v m :=
  mk v (output_tokens m) (total_tokens m) (prompt_tokens m) (completion_tokens m)
     (time_to_first_token m) (response_timer m)
     (completion_time m) (prompt_time m) (queue_time m) (total_time m).
Definition set_output_tokens v m :=
  mk (input_tokens m) v (total_tokens m) (prompt_tokens m) (completion_tokens m)
     (time_to_first_token m) (response_timer m)
     (completion_time m) (prompt_time m) (queue_time m) (total_time m).
Definition set_total_tokens v m :=
  mk (input_tokens m) (output_tokens m) v (prompt_tokens m) (completion_tokens m)
     (time_to_first_token m) (response_timer m)
     (completion_time m) (prompt_time m) (queue_time m) (total_time m).
Definition set_prompt_tokens v m :=
  mk (input_tokens m) (output_tokens m) (total_tokens m) v (completion_tokens m)
     (time_to_first_token m) (response_timer m)
     (completion_time m) (prompt_time m) (queue_time m) (total_time m).
Definition set_completion_tokens v m :=
  mk (input_tokens m) (output_tokens m) (total_tokens m) (prompt_tokens m) v
     (time_to_first_token m) (response_timer m)
     (completion_time m) (prompt_time m) (queue_time m) (total_time m).
Definition set_time_to_first_token v m :=
  mk (input_tokens m) (output_tokens m) (total_tokens m) (prompt_tokens m)
     (completion_tokens m) v (response_timer m)
     (completion_time m) (prompt_time m) (queue_time m) (total_time m).
Definition set_response_timer v m :=
  mk (input_tokens m) (output_tokens m) (total_tokens m) (prompt_tokens m)
     (completion_tokens m) (time_to_first_token m) v
     (completion_time m) (prompt_time m) (queue_time m) (total_time m).
Definition set_completion_time v m :=
  mk (input_tokens m) (output_tokens m) (total_tokens m) (prompt_tokens m)
     (completion_tokens m) (time_to_first_token m) (response_timer m)
     v (prompt_time m) (queue_time m) (total_time m).
Definition set_prompt_time v m :=
  mk (input_tokens m) (output_tokens m) (total_tokens m) (prompt_tokens m)
     (completion_tokens m) (time_to_first_token m) (response_timer m)
     (completion_time m) v (queue_time m) (total_time m).
Definition set_queue_time v m :=
  mk (input_tokens m) (output_tokens m) (total_tokens m) (prompt_tokens m)
     (completion_tokens m) (time_to_first_token m) (response_timer m)
     (completion_time m) (prompt_time m) v (total_time m).
Definition set_total_time v m :=
  mk (input_tokens m) (output_tokens m) (total_tokens m) (prompt_tokens m)
     (completion_tokens m) (time_to_first_token m) (response_timer m)
     (completion_time m) (prompt_time m) (queue_time m) v.
End Metrics.

(** A tool call as the conversation carries it (the dict that [model_dump] or
    [_build_tool_calls] produces). *)
Record ToolCall := {
  tool_call_id : string;
  tool_name : string;
  tool_arguments : string
}.

(** [groq.types.chat.ChatCompletionMessageToolCall], the SDK's object. *)
Record ChatCompletionMessageToolCall := {
  sdk_id : string;
  sdk_name : string;
  sdk_arguments : string
}.

(** [ChoiceDeltaToolCall]: a fragment of a tool call inside a stream chunk. *)
Record ChoiceDeltaToolCall := {
  delta_index : Z;
  delta_id : option string;
  delta_name : option string;
  delta_arguments : option string
}.

Module Message.
Record t := mk {
  role : string;
  content : option string;
  tool_calls : option (list ToolCall);
  metrics : gmap string Py.val
}.

(** [Message(role=r, content=c)] *)
Definition new (r : string) (c : option string) : t := mk r c None ∅.

Definition set_content c m := mk (role m) c (tool_calls m) (metrics m).
Definition set_tool_calls tc m := mk (role m) (content m) tc (metrics m).

(** [m.metrics[k] = v] *)
Definition put (k : string) (v : Py.val) m :=
  mk (role m) (content m) (tool_calls m) (<[k := v]> (metrics m)).
End Message.

Module ModelResponse.
Record t := mk {
  content : option string;
  tool_calls : option (list ToolCall)
}.

(** [ModelResponse()] and [ModelResponse(content=c)] *)
Definition new : t := mk None None.
Definition of_content (c : string) : t := mk (Some c) None.
Definition set_content c (r : t) := mk c (tool_calls r).
End ModelResponse.

(** [ChatCompletionMessage]; [choices[i].message] is the only part of a
    choice that the adapter reads, so a choice is its message. *)
Module ChatCompletionMessage.
Record t := mk {
  role : option string;
  content : option string;
  tool_calls : option (list ChatCompletionMessageToolCall)
}.
End ChatCompletionMessage.

Module ChatCompletion.
Record t := mk {
  choices : list ChatCompletionMessage.t;
  usage : option Usage.t
}.
End ChatCompletion.

(** [ChoiceDelta]; [choices[i].delta] is the only part of a chunk's choice
    that the adapter reads. *)
Module ChoiceDelta.
Record t := mk {
  content : option string;
  tool_calls : option (list ChoiceDeltaToolCall)
}.
End ChoiceDelta.

Module ChatCompletionChunk.
Record t := mk {
  choices : list ChoiceDelta.t;
  usage : option Usage.t
}.
End ChatCompletionChunk.

(** The adapter instance: identity, request parameters, and the two fields
    of the base class that [request_kwargs] reads ([tools], [tool_choice]).
    Python does not enforce the annotations, so a parameter holds any object;
    [ONone] is the dataclass default. *)
Module Groq.
Record t := mk {
  id : string;
  name : string;
  provider : string;
  frequency_penalty : Py.obj;
  logit_bias : Py.obj;
  logprobs : Py.obj;
  max_tokens : Py.obj;
  presence_penalty : Py.obj;
  response_format : Py.obj;
  seed : Py.obj;
  stop : Py.obj;
  temperature : Py.obj;
  top_logprobs : Py.obj;
  top_p : Py.obj;
  user : Py.obj;
  extra_headers : Py.obj;
  extra_query : Py.obj;
  request_params : option (gmap string Py.obj);
  tools : Py.obj;
  tool_choice : Py.obj
}.

(** [Groq()] with the dataclass defaults, for model [id]. *)
Definition default (id : string) : t :=
  mk id "Groq" "Groq"
     Py.ONone Py.ONone Py.ONone Py.ONone Py.ONone Py.ONone Py.ONone
     Py.ONone Py.ONone Py.ONone Py.ONone Py.ONone Py.ONone Py.ONone
     None Py.ONone Py.ONone.
End Groq.

(** What the vendor does with one [chat.completions.create] call: the SDK
    raises, or returns a completion, or returns a chunk stream.  [elapsed] is
    the response timer's reading when the adapter stops it; each chunk comes
    with the timer's reading at the moment the adapter receives it. *)
Inductive Reply :=
| Fails (status_code : Z) (message : string)
| Completes (elapsed : Q) (completion : ChatCompletion.t)
| Streams (chunks : list (Q * ChatCompletionChunk.t)) (elapsed : Q).

Record Request := {
  req_model : string;
  req_messages : list Message.t;
  req_stream : bool
}.

(** Everything a call can read or mutate. *)
Module World.
Record t := mk {
  self_metrics : gmap string Py.val;  (* the adapter's lifetime [self.metrics] *)
  messages : list Message.t;          (* the conversation list passed in *)
  vendor : list Reply;                (* what the vendor will answer, call by call *)
  sent : list Request;                (* the requests made so far *)
  yielded : list ModelResponse.t;     (* what a generator has produced so far *)
  logged : list Metrics.t             (* [metrics.log()], one per model call *)
}.

Definition set_self_metrics d w :=
  mk d (messages w) (vendor w) (sent w) (yielded w) (logged w).
Definition set_messages ms w :=
  mk (self_metrics w) ms (vendor w) (sent w) (yielded w) (logged w).
Definition set_vendor v w :=
  mk (self_metrics w) (messages w) v (sent w) (yielded w) (logged w).
Definition set_sent s w :=
  mk (self_metrics w) (messages w) (vendor w) s (yielded w) (logged w).
Definition set_yielded y w :=
  mk (self_metrics w) (messages w) (vendor w) (sent w) y (logged w).
Definition set_logged l w :=
  mk (self_metrics w) (messages w) (vendor w) (sent w) (yielded w) l.

(** A fresh adapter ([self.metrics = {}]) about to talk to [script] with
    conversation [ms]. *)
Definition init (ms : list Message.t) (script : list Reply) : t :=
  mk ∅ ms script [] [] [].
End World.

(** The defaults of the base class's [Metrics] dataclass, for the attributes
    the adapter touches.  The base class is not among the sources, so they
    are left open. *)
Record BaseMetrics := {
  default_input_tokens : option Z;
  default_output_tokens : option Z;
  default_total_tokens : option Z;
  default_prompt_tokens : option Z;
  default_completion_tokens : option Z;
  default_time_to_first_token : option Q
}.

(** Collaborators that are not part of the adapter's module: the base
    class's dataclass defaults and helpers, pydantic's [model_dump], and the
    tool runner behind the shared dispatcher. *)
Record Collaborators := {
  (** the dataclass defaults of the base [Metrics] *)
  base_metrics : BaseMetrics;
  (** [t.model_dump()]; [None] when it raises *)
  model_dump : ChatCompletionMessageToolCall -> option ToolCall;
  (** [Message.get_content_string] *)
  get_content_string : Message.t -> string;
  (** [Model._build_tool_calls] *)
  _build_tool_calls : list ChoiceDeltaToolCall -> list ToolCall;
  (** the tool-role messages the dispatcher obtains for a list of tool calls *)
  run_function_calls : list ToolCall -> list Message.t;
  (** what the dispatcher yields while it runs the tools of a streamed call *)
  tool_call_events : list ToolCall -> list ModelResponse.t
}.

(** The transient accumulator of a streamed call. *)
Module StreamData.
Record t := mk {
  response_content : string;
  response_tool_calls : option (list ChoiceDeltaToolCall)
}.

(** [StreamData()] *)
Definition new : t := mk "" None.
End StreamData.

(** [Metrics()]: a fresh per-call instance of the Groq subclass, whose own
    four timings default to [None]; the timer has not run yet. *)
Definition Metrics_new (base : Collaborators) : Metrics.t :=
  let d := base_metrics base in
  Metrics.mk (default_input_tokens d) (default_output_tokens d) (default_total_tokens d)
             (default_prompt_tokens d) (default_completion_tokens d)
             (default_time_to_first_token d) 0%Q
             None None None None.

(** * The Groq adapter: operations *)

(** [self.metrics[k] = self.metrics.get(k, 0) + v] *)
Definition self_add (k : string) (v : Py.num) : M World.t unit :=
  fun w =>
    match Py.accumulate k v (World.self_metrics w) with
    | inl e => (Raise e, w)
    | inr d => (Return tt, World.set_self_metrics d w)
    end.

(** [self.metrics.setdefault(k, []).append(x)] *)
Definition self_append (k : string) (x : Q) : M World.t unit :=
  fun w =>
    match Py.setdefault_append k x (World.self_metrics w) with
    | inl e => (Raise e, w)
    | inr d => (Return tt, World.set_self_metrics d w)
    end.

(** [messages.append(m)], [messages.extend(ms)] *)
Definition append_message (m : Message.t) : M World.t unit :=
  modify (fun w => World.set_messages (World.messages w ++ [m]) w).
Definition extend_messages (ms : list Message.t) : M World.t unit :=
  modify (fun w => World.set_messages (World.messages w ++ ms) w).

(** [yield r] *)
Definition yield (r : ModelResponse.t) : M World.t unit :=
  modify (fun w => World.set_yielded (World.yielded w ++ [r]) w).

(** [Metrics.log]: the lines are formatted before anything is written, and
    the second of them is
    [f"{self.output_tokens / self.response_timer.elapsed:.4f}"]: the division
    raises [TypeError] when [output_tokens] is [None] and [ZeroDivisionError]
    when the timer reads zero.  The other lines format floats, or print a
    value as it is. *)
Definition log (metrics : Metrics.t) : M World.t unit :=
  match Metrics.output_tokens metrics with
  | None => raise Py.TypeError
  | Some _ =>
    if (Qnum (Metrics.response_timer metrics) =? 0)%Z then raise Py.ZeroDivisionError
    else modify (fun w => World.set_logged (World.logged w ++ [metrics]) w)
  end.

(** The per-call metrics that [Metrics.log] can print: there is a number of
    output tokens, and the timer does not read zero. *)
Definition loggable (metrics : Metrics.t) : Prop :=
  is_Some (Metrics.output_tokens metrics) /\ Qnum (Metrics.response_timer metrics) <> 0%Z.

(** [xs[0]] *)
Definition first {A} (xs : list A) : M World.t A :=
  match xs with
  | [] => raise Py.IndexError
  | x :: _ => mret x
  end.

(** [r or "assistant"] *)
Definition or_assistant (r : option string) : string :=
  match r with
  | Some s => if String.eqb s "" then "assistant" else s
  | None => "assistant"
  end.

Section Adapter.

Context (base : Collaborators) (self : Groq.t).

(** [Groq.invoke]: one request carrying the model id and the whole
    conversation; the SDK's exception, if any, is not caught. *)
Definition invoke : M World.t (Q * ChatCompletion.t) :=
  w ← get;
  modify (World.set_sent
            (World.sent w ++ [Build_Request (Groq.id self) (World.messages w) false]));;
  match World.vendor w with
  | [] => starve
  | Fails status_code message :: rest =>
      modify (World.set_vendor rest);;
      raise (Py.APIStatusError status_code message)
  | Completes elapsed completion :: rest =>
      modify (World.set_vendor rest);;
      mret (elapsed, completion)
  | Streams _ _ :: _ => starve
  end.

(** [Groq.invoke_stream], consumed to its end. *)
Definition invoke_stream : M World.t (list (Q * ChatCompletionChunk.t) * Q) :=
  w ← get;
  modify (World.set_sent
            (World.sent w ++ [Build_Request (Groq.id self) (World.messages w) true]));;
  match World.vendor w with
  | [] => starve
  | Fails status_code message :: rest =>
      modify (World.set_vendor rest);;
      raise (Py.APIStatusError status_code message)
  | Streams chunks elapsed :: rest =>
      modify (World.set_vendor rest);;
      mret (chunks, elapsed)
  | Completes _ _ :: _ => starve
  end.

(** [Groq.update_usage_metrics].  The message and the per-call metrics are
    mutated in place by the source; here they are returned. *)
Definition update_usage_metrics (assistant_message : Message.t) (metrics : Metrics.t)
    (response_usage : option Usage.t) : M World.t (Message.t * Metrics.t) :=
  let elapsed := Metrics.response_timer metrics in
  let assistant_message := Message.put "time" (Py.Num (Py.Float elapsed)) assistant_message in
  self_append "response_times" elapsed;;
  match response_usage with
  | None => mret (assistant_message, metrics)
  | Some response_usage =>
    '(assistant_message, metrics) ←
      match Usage.prompt_tokens response_usage with
      | None => mret (assistant_message, metrics)
      | Some prompt_tokens =>
        let metrics := Metrics.set_input_tokens (Some prompt_tokens) metrics in
        let metrics := Metrics.set_prompt_tokens (Some prompt_tokens) metrics in
        let assistant_message :=
          Message.put "input_tokens" (Py.Num (Py.Int prompt_tokens)) assistant_message in
        let assistant_message :=
          Message.put "prompt_tokens" (Py.Num (Py.Int prompt_tokens)) assistant_message in
        self_add "input_tokens" (Py.Int prompt_tokens);;
        self_add "prompt_tokens" (Py.Int prompt_tokens);;
        mret (assistant_message, metrics)
      end;
    '(assistant_message, metrics) ←
      match Usage.completion_tokens response_usage with
      | None => mret (assistant_message, metrics)
      | Some completion_tokens =>
        let metrics := Metrics.set_output_tokens (Some completion_tokens) metrics in
        let metrics := Metrics.set_completion_tokens (Some completion_tokens) metrics in
        let assistant_message :=
          Message.put "output_tokens" (Py.Num (Py.Int completion_tokens)) assistant_message in
        let assistant_message :=
          Message.put "completion_tokens" (Py.Num (Py.Int completion_tokens)) assistant_message in
        self_add "output_tokens" (Py.Int completion_tokens);;
        self_add "completion_tokens" (Py.Int completion_tokens);;
        mret (assistant_message, metrics)
      end;
    '(assistant_message, metrics) ←
      match Usage.total_tokens response_usage with
      | None => mret (assistant_message, metrics)
      | Some total_tokens =>
        let metrics := Metrics.set_total_tokens (Some total_tokens) metrics in
        let assistant_message :=
          Message.put "total_tokens" (Py.Num (Py.Int total_tokens)) assistant_message in
        self_add "total_tokens" (Py.Int total_tokens);;
        mret (assistant_message, metrics)
      end;
    '(assistant_message, metrics) ←
      match Usage.completion_time response_usage with
      | None => mret (assistant_message, metrics)
      | Some completion_time =>
        let metrics := Metrics.set_completion_time (Some completion_time) metrics in
        let assistant_message :=
          Message.put "completion_time" (Py.Num (Py.Float completion_time)) assistant_message in
        self_add "completion_time" (Py.Float completion_time);;
        mret (assistant_message, metrics)
      end;
    '(assistant_message, metrics) ←
      match Usage.prompt_time response_usage with
      | None => mret (assistant_message, metrics)
      | Some prompt_time =>
        let metrics := Metrics.set_prompt_time (Some prompt_time) metrics in
        let assistant_message :=
          Message.put "prompt_time" (Py.Num (Py.Float prompt_time)) assistant_message in
        self_add "prompt_time" (Py.Float prompt_time);;
        mret (assistant_message, metrics)
      end;
    '(assistant_message, metrics) ←
      match Usage.queue_time response_usage with
      | None => mret (assistant_message, metrics)
      | Some queue_time =>
        let metrics := Metrics.set_queue_time (Some queue_time) metrics in
        let assistant_message :=
          Message.put "queue_time" (Py.Num (Py.Float queue_time)) assistant_message in
        self_add "queue_time" (Py.Float queue_time);;
        mret (assistant_message, metrics)
      end;
    match Usage.total_time response_usage with
    | None => mret (assistant_message, metrics)
    | Some total_time =>
      let metrics := Metrics.set_total_time (Some total_time) metrics in
      let assistant_message :=
        Message.put "total_time" (Py.Num (Py.Float total_time)) assistant_message in
      self_add "total_time" (Py.Float total_time);;
      mret (assistant_message, metrics)
    end
  end.

(** [Groq.create_assistant_message]; a [model_dump] that raises is logged
    and leaves [tool_calls] unset. *)
Definition create_assistant_message (response_message : ChatCompletionMessage.t)
    (metrics : Metrics.t) (response_usage : option Usage.t)
    : M World.t (Message.t * Metrics.t) :=
  let assistant_message :=
    Message.new (or_assistant (ChatCompletionMessage.role response_message))
                (ChatCompletionMessage.content response_message) in
  let assistant_message :=
    match ChatCompletionMessage.tool_calls response_message with
    | Some (t :: ts) =>
        match mapM (model_dump base) (t :: ts) with
        | Some dumped => Message.set_tool_calls (Some dumped) assistant_message
        | None => assistant_message
        end
    | _ => assistant_message
    end in
  update_usage_metrics assistant_message metrics response_usage.

(** Modelled from the spec: [Model.handle_tool_calls] belongs to the base
    class, which is not among the sources.  "If tool calls are present,
    hand off to the shared dispatcher", which "invokes [the function],
    wraps the return value as a tool-role Message tagged with the
    originating call id, and appends it to the conversation".  The result
    is [None] exactly when the assistant message carries no tool call. *)
Definition handle_tool_calls (assistant_message : Message.t)
    (model_response : ModelResponse.t) : M World.t (option ModelResponse.t) :=
  match Message.tool_calls assistant_message with
  | Some (t :: ts) =>
      extend_messages (run_function_calls base (t :: ts));;
      mret (Some model_response)
  | _ => mret None
  end.

(** Modelled from the spec: [Model.handle_post_tool_call_messages] belongs
    to the base class.  "The adapter then issues a follow-up model call with
    the enlarged conversation"; [follow_up] is [self.response], applied to
    the same conversation list. *)
Definition handle_post_tool_call_messages (follow_up : M World.t ModelResponse.t)
    (model_response : ModelResponse.t) : M World.t ModelResponse.t :=
  follow_up.

(** The first half of [Groq.response], up to and including
    "Update model response with assistant message content": one request,
    one assistant message appended.  It returns the assistant message and
    the model response built from it. *)
Definition model_call : M World.t (Message.t * ModelResponse.t) :=
  let model_response := ModelResponse.new in
  let metrics := Metrics_new base in
  '(elapsed, response_) ← invoke;
  let metrics := Metrics.set_response_timer elapsed metrics in
  response_message ← first (ChatCompletion.choices response_);
  let response_usage := ChatCompletion.usage response_ in
  '(assistant_message, metrics) ←
    create_assistant_message response_message metrics response_usage;
  append_message assistant_message;;
  log metrics;;
  let model_response :=
    match Message.content assistant_message with
    | Some _ =>
        ModelResponse.set_content
          (Some (get_content_string base assistant_message)) model_response
    | None => model_response
    end in
  mret (assistant_message, model_response).

(** [Groq.response]: [model_call], then "Handle tool calls".  The recursion
    goes through the base class, so it is bounded by [fuel]: one unit per
    model call. *)
Fixpoint response (fuel : nat) : M World.t ModelResponse.t :=
  match fuel with
  | O => starve
  | S fuel =>
    '(assistant_message, model_response) ← model_call;
    handled ← handle_tool_calls assistant_message model_response;
    match handled with
    | Some _ => handle_post_tool_call_messages (response fuel) model_response
    | None => mret model_response
    end
  end.

(** [Groq.update_stream_metrics] *)
Definition update_stream_metrics (assistant_message : Message.t) (metrics : Metrics.t)
    : M World.t Message.t :=
  let elapsed := Metrics.response_timer metrics in
  let assistant_message := Message.put "time" (Py.Num (Py.Float elapsed)) assistant_message in
  self_append "response_times" elapsed;;
  assistant_message ←
    match Metrics.time_to_first_token metrics with
    | None => mret assistant_message
    | Some time_to_first_token =>
      self_append "time_to_first_token" time_to_first_token;;
      mret (Message.put "time_to_first_token" (Py.Num (Py.Float time_to_first_token))
              assistant_message)
    end;
  assistant_message ←
    match Metrics.input_tokens metrics with
    | None => mret assistant_message
    | Some input_tokens =>
      self_add "input_tokens" (Py.Int input_tokens);;
      mret (Message.put "input_tokens" (Py.Num (Py.Int input_tokens)) assistant_message)
    end;
  assistant_message ←
    match Metrics.output_tokens metrics with
    | None => mret assistant_message
    | Some output_tokens =>
      self_add "output_tokens" (Py.Int output_tokens);;
      mret (Message.put "output_tokens" (Py.Num (Py.Int output_tokens)) assistant_message)
    end;
  assistant_message ←
    match Metrics.prompt_tokens metrics with
    | None => mret assistant_message
    | Some prompt_tokens =>
      self_add "prompt_tokens" (Py.Int prompt_tokens);;
      mret (Message.put "prompt_tokens" (Py.Num (Py.Int prompt_tokens)) assistant_message)
    end;
  assistant_message ←
    match Metrics.completion_tokens metrics with
    | None => mret assistant_message
    | Some completion_tokens =>
      self_add "completion_tokens" (Py.Int completion_tokens);;
      mret (Message.put "completion_tokens" (Py.Num (Py.Int completion_tokens))
              assistant_message)
    end;
  assistant_message ←
    match Metrics.total_tokens metrics with
    | None => mret assistant_message
    | Some total_tokens =>
      self_add "total_tokens" (Py.Int total_tokens);;
      mret (Message.put "total_tokens" (Py.Num (Py.Int total_tokens)) assistant_message)
    end;
  assistant_message ←
    match Metrics.completion_time metrics with
    | None => mret assistant_message
    | Some completion_time =>
      self_add "completion_time" (Py.Float completion_time);;
      mret (Message.put "completion_time" (Py.Num (Py.Float completion_time))
              assistant_message)
    end;
  assistant_message ←
    match Metrics.prompt_time metrics with
    | None => mret assistant_message
    | Some prompt_time =>
      self_add "prompt_time" (Py.Float prompt_time);;
      mret (Message.put "prompt_time" (Py.Num (Py.Float prompt_time)) assistant_message)
    end;
  assistant_message ←
    match Metrics.queue_time metrics with
    | None => mret assistant_message
    | Some queue_time =>
      self_add "queue_time" (Py.Float queue_time);;
      mret (Message.put "queue_time" (Py.Num (Py.Float queue_time)) assistant_message)
    end;
  match Metrics.total_time metrics with
  | None => mret assistant_message
  | Some total_time =>
    self_add "total_time" (Py.Float total_time);;
    mret (Message.put "total_time" (Py.Num (Py.Float total_time)) assistant_message)
  end.

(** [Groq.add_response_usage_to_metrics]: nine plain assignments. *)
Definition add_response_usage_to_metrics (metrics : Metrics.t) (response_usage : Usage.t)
    : Metrics.t :=
  let metrics := Metrics.set_input_tokens (Usage.prompt_tokens response_usage) metrics in
  let metrics := Metrics.set_prompt_tokens (Usage.prompt_tokens response_usage) metrics in
  let metrics := Metrics.set_output_tokens (Usage.completion_tokens response_usage) metrics in
  let metrics :=
    Metrics.set_completion_tokens (Usage.completion_tokens response_usage) metrics in
  let metrics := Metrics.set_total_tokens (Usage.total_tokens response_usage) metrics in
  let metrics := Metrics.set_completion_time (Usage.completion_time response_usage) metrics in
  let metrics := Metrics.set_prompt_time (Usage.prompt_time response_usage) metrics in
  let metrics := Metrics.set_queue_time (Usage.queue_time response_usage) metrics in
  Metrics.set_total_time (Usage.total_time response_usage) metrics.

(** The body of the [for response in self.invoke_stream(...)] loop of
    [Groq.response_stream], for the chunk [response] received when the
    response timer reads [now]. *)
Definition on_chunk (now : Q) (response_ : ChatCompletionChunk.t)
    (stream_data : StreamData.t) (metrics : Metrics.t)
    : M World.t (StreamData.t * Metrics.t) :=
  let metrics := Metrics.set_response_timer now metrics in
  '(stream_data, metrics) ←
    match ChatCompletionChunk.choices response_ with
    | [] => mret (stream_data, metrics)
    | response_delta :: _ =>
      (* metrics.completion_tokens += 1 *)
      completion_tokens ←
        match Metrics.completion_tokens metrics with
        | Some n => mret (n + 1)%Z
        | None => raise Py.TypeError
        end;
      let metrics := Metrics.set_completion_tokens (Some completion_tokens) metrics in
      let metrics :=
        if (completion_tokens =? 1)%Z
        then Metrics.set_time_to_first_token (Some (Metrics.response_timer metrics)) metrics
        else metrics in
      stream_data ←
        match ChoiceDelta.content response_delta with
        | Some response_content =>
          yield (ModelResponse.of_content response_content);;
          mret (StreamData.mk
                  (StreamData.response_content stream_data +:+ response_content)
                  (StreamData.response_tool_calls stream_data))
        | None => mret stream_data
        end;
      let stream_data :=
        match ChoiceDelta.tool_calls response_delta with
        | Some response_tool_calls =>
          StreamData.mk
            (StreamData.response_content stream_data)
            (Some (default [] (StreamData.response_tool_calls stream_data)
                     ++ response_tool_calls))
        | None => stream_data
        end in
      mret (stream_data, metrics)
    end;
  let metrics :=
    match ChatCompletionChunk.usage response_ with
    | Some usage => add_response_usage_to_metrics metrics usage
    | None => metrics
    end in
  mret (stream_data, metrics).

(** The whole loop. *)
Fixpoint consume (chunks : list (Q * ChatCompletionChunk.t))
    (stream_data : StreamData.t) (metrics : Metrics.t)
    : M World.t (StreamData.t * Metrics.t) :=
  match chunks with
  | [] => mret (stream_data, metrics)
  | (now, response_) :: chunks =>
    '(stream_data, metrics) ← on_chunk now response_ stream_data metrics;
    consume chunks stream_data metrics
  end.

(** The assistant message that [Groq.response_stream] assembles once the
    stream has ended (before the metrics are folded in). *)
Definition assemble (stream_data : StreamData.t) : Message.t :=
  let assistant_message := Message.new "assistant" None in
  let assistant_message :=
    if String.eqb (StreamData.response_content stream_data) ""
    then assistant_message
    else Message.set_content (Some (StreamData.response_content stream_data))
           assistant_message in
  match StreamData.response_tool_calls stream_data with
  | Some fragments =>
    match _build_tool_calls base fragments with
    | [] => assistant_message
    | _tool_calls => Message.set_tool_calls (Some _tool_calls) assistant_message
    end
  | None => assistant_message
  end.

(** Modelled from the spec: [Model.handle_stream_tool_calls] belongs to the
    base class.  "If tool calls were accumulated, dispatch them": the
    dispatcher appends the tool-role messages to the conversation; what it
    yields meanwhile is left to [tool_call_events]. *)
Definition handle_stream_tool_calls (assistant_message : Message.t) : M World.t unit :=
  let tool_calls := default [] (Message.tool_calls assistant_message) in
  modify (fun w => World.set_yielded (World.yielded w ++ tool_call_events base tool_calls) w);;
  extend_messages (run_function_calls base tool_calls).

(** Modelled from the spec: [Model.handle_post_tool_call_messages_stream]
    belongs to the base class.  "... and yield the post-tool-call stream":
    [follow_up] is [self.response_stream] on the same conversation list. *)
Definition handle_post_tool_call_messages_stream (follow_up : M World.t unit)
    : M World.t unit :=
  follow_up.

(** The first half of [Groq.response_stream], up to and including "Log
    response and metrics": one request, the chunk loop, one assistant
    message appended.  It returns the assistant message. *)
Definition stream_call : M World.t Message.t :=
  let stream_data := StreamData.new in
  let metrics := Metrics_new base in
  '(chunks, elapsed) ← invoke_stream;
  '(stream_data, metrics) ← consume chunks stream_data metrics;
  let metrics := Metrics.set_response_timer elapsed metrics in
  let assistant_message := assemble stream_data in
  assistant_message ← update_stream_metrics assistant_message metrics;
  append_message assistant_message;;
  log metrics;;
  mret assistant_message.

(** [Groq.response_stream], run until the generator is exhausted:
    [stream_call], then "Handle tool calls". *)
Fixpoint response_stream (fuel : nat) : M World.t unit :=
  match fuel with
  | O => starve
  | S fuel =>
    assistant_message ← stream_call;
    match Message.tool_calls assistant_message with
    | Some (_ :: _) =>
      handle_stream_tool_calls assistant_message;;
      handle_post_tool_call_messages_stream (response_stream fuel)
    | _ => mret tt
    end
  end.

End Adapter.

(** * The metrics routines, summarised

    Both metrics routines amount to: append the elapsed time to
    ["response_times"], then add a list of [(key, value)] increments to the
    lifetime dict, one [self_add] each.  The increments are computed from the
    vendor's usage block (non-streaming) or from the per-call metrics
    (streaming). *)

Fixpoint tally (incs : list (string * Py.num)) : M World.t unit :=
  match incs with
  | [] => mret tt
  | (k, v) :: incs => self_add k v;; tally incs
  end.

(** The same assignments, on the message's own metrics dict. *)
Definition puts (incs : list (string * Py.num)) (m : Message.t) : Message.t :=
  foldl (fun m kv => Message.put kv.1 (Py.Num kv.2) m) m incs.

(** The increments one optional value contributes under each of [keys]. *)
Definition reported (keys : list string) (x : option Py.num) : list (string * Py.num) :=
  match x with
  | Some v => map (fun k => (k, v)) keys
  | None => []
  end.

(** The values added under key [k], in order. *)
Definition increments_for (k : string) (incs : list (string * Py.num)) : list Py.num :=
  omap (fun kv => if String.eqb kv.1 k then Some kv.2 else None) incs.

(** What a dict entry becomes once [vs] have been added to it in turn. *)
Definition bumped (o : option Py.val) (vs : list Py.num) : option Py.val :=
  match vs with
  | [] => o
  | _ =>
    match default (Py.Num (Py.Int 0)) o with
    | Py.Num x => Some (Py.Num (foldl Py.add x vs))
    | Py.Floats xs => o
    end
  end.

(** [x if x is not None else old] *)
Definition keep {A} (new old : option A) : option A :=
  match new with
  | Some _ => new
  | None => old
  end.

(** ** One [if x is not None:] block

    Every block of the two metrics routines has the same shape: when the
    value is there, assign it to some attributes of the per-call metrics
    ([f_set]), store it in the message's metrics and add it to the lifetime
    total under each of [f_keys]. *)
Record Field := {
  f_keys : list string;
  f_value : option Py.num;
  f_set : Metrics.t -> Metrics.t
}.

Definition field_increments (f : Field) : list (string * Py.num) :=
  reported (f_keys f) (f_value f).

Definition field_metrics (f : Field) (m : Metrics.t) : Metrics.t :=
  match f_value f with
  | Some _ => f_set f m
  | None => m
  end.

Section Fields.

(** The local objects a routine updates block after block, and what one
    block does to them. *)
Context {S : Type} (update : Field -> S -> S).

Definition fold_field (f : Field) (s : S) : M World.t S :=
  tally (field_increments f);;
  mret (update f s).

Fixpoint fold_fields (fs : list Field) (s : S) : M World.t S :=
  match fs with
  | [] => mret s
  | f :: fs => s ← fold_field f s; fold_fields fs s
  end.

End Fields.

(** What a block does to the message and the per-call metrics, and to the
    message alone. *)
Definition update_both (f : Field) (p : Message.t * Metrics.t) : Message.t * Metrics.t :=
  (puts (field_increments f) p.1, field_metrics f p.2).

Definition update_message (f : Field) (m : Message.t) : Message.t :=
  puts (field_increments f) m.

Definition usage_fields (u : Usage.t) : list Field :=
  [ Build_Field ["input_tokens"; "prompt_tokens"] (Py.Int <$> Usage.prompt_tokens u)
      (fun m => Metrics.set_prompt_tokens (Usage.prompt_tokens u)
                  (Metrics.set_input_tokens (Usage.prompt_tokens u) m));
    Build_Field ["output_tokens"; "completion_tokens"]
      (Py.Int <$> Usage.completion_tokens u)
      (fun m => Metrics.set_completion_tokens (Usage.completion_tokens u)
                  (Metrics.set_output_tokens (Usage.completion_tokens u) m));
    Build_Field ["total_tokens"] (Py.Int <$> Usage.total_tokens u)
      (Metrics.set_total_tokens (Usage.total_tokens u));
    Build_Field ["completion_time"] (Py.Float <$> Usage.completion_time u)
      (Metrics.set_completion_time (Usage.completion_time u));
    Build_Field ["prompt_time"] (Py.Float <$> Usage.prompt_time u)
      (Metrics.set_prompt_time (Usage.prompt_time u));
    Build_Field ["queue_time"] (Py.Float <$> Usage.queue_time u)
      (Metrics.set_queue_time (Usage.queue_time u));
    Build_Field ["total_time"] (Py.Float <$> Usage.total_time u)
      (Metrics.set_total_time (Usage.total_time u)) ].

Definition usage_increments (response_usage : option Usage.t) : list (string * Py.num) :=
  match response_usage with
  | None => []
  | Some u => concat (map field_increments (usage_fields u))
  end.

(** The per-call metrics once [update_usage_metrics] has read a usage block. *)
Definition usage_metrics (response_usage : option Usage.t) (m : Metrics.t) : Metrics.t :=
  match response_usage with
  | None => m
  | Some u => foldl (fun m f => field_metrics f m) m (usage_fields u)
  end.

(** ** What [tally] does to the lifetime dict *)

(** The entry under [k] can be added to: it is absent or a number. *)
Definition addable (d : gmap string Py.val) (k : string) : Prop :=
  match d !! k with
  | Some (Py.Floats _) => False
  | _ => True
  end.

(** The entry under [k] can be appended to: it is absent or a list. *)
Definition appendable (d : gmap string Py.val) (k : string) : Prop :=
  match d !! k with
  | Some (Py.Num _) => False
  | _ => True
  end.

(** Two worlds that differ at most in the lifetime dict. *)
Definition only_metrics_differ (w w' : World.t) : Prop :=
  w' = World.set_self_metrics (World.self_metrics w') w.

(** ** The streaming routine, summarised the same way *)

Definition metrics_fields (m : Metrics.t) : list Field :=
  [ Build_Field ["input_tokens"] (Py.Int <$> Metrics.input_tokens m) id;
    Build_Field ["output_tokens"] (Py.Int <$> Metrics.output_tokens m) id;
    Build_Field ["prompt_tokens"] (Py.Int <$> Metrics.prompt_tokens m) id;
    Build_Field ["completion_tokens"] (Py.Int <$> Metrics.completion_tokens m) id;
    Build_Field ["total_tokens"] (Py.Int <$> Metrics.total_tokens m) id;
    Build_Field ["completion_time"] (Py.Float <$> Metrics.completion_time m) id;
    Build_Field ["prompt_time"] (Py.Float <$> Metrics.prompt_time m) id;
    Build_Field ["queue_time"] (Py.Float <$> Metrics.queue_time m) id;
    Build_Field ["total_time"] (Py.Float <$> Metrics.total_time m) id ].

Definition metrics_increments (m : Metrics.t) : list (string * Py.num) :=
  concat (map field_increments (metrics_fields m)).

(** The [time_to_first_token] block: the lifetime dict keeps a list. *)
Definition first_token_block (m : Metrics.t) (am : Message.t) : M World.t Message.t :=
  match Metrics.time_to_first_token m with
  | None => mret am
  | Some t =>
    self_append "time_to_first_token" t;;
    mret (Message.put "time_to_first_token" (Py.Num (Py.Float t)) am)
  end.

(** ** The nine counters

    Each is a key of the lifetime dict, an attribute of the per-call
    metrics, and a field of the vendor's usage block ([input_tokens] and
    [prompt_tokens] both come from the vendor's [prompt_tokens],
    [output_tokens] and [completion_tokens] from its [completion_tokens]). *)
Module Counter.
Inductive t :=
| input_tokens | output_tokens | prompt_tokens | completion_tokens | total_tokens
| completion_time | prompt_time | queue_time | total_time.

Definition all : list t :=
  [input_tokens; output_tokens; prompt_tokens; completion_tokens; total_tokens;
   completion_time; prompt_time; queue_time; total_time].

Definition key (c : t) : string :=
  match c with
  | input_tokens => "input_tokens"
  | output_tokens => "output_tokens"
  | prompt_tokens => "prompt_tokens"
  | completion_tokens => "completion_tokens"
  | total_tokens => "total_tokens"
  | completion_time => "completion_time"
  | prompt_time => "prompt_time"
  | queue_time => "queue_time"
  | total_time => "total_time"
  end.

Definition of_metrics (c : t) (m : Metrics.t) : option Py.num :=
  match c with
  | input_tokens => Py.Int <$> Metrics.input_tokens m
  | output_tokens => Py.Int <$> Metrics.output_tokens m
  | prompt_tokens => Py.Int <$> Metrics.prompt_tokens m
  | completion_tokens => Py.Int <$> Metrics.completion_tokens m
  | total_tokens => Py.Int <$> Metrics.total_tokens m
  | completion_time => Py.Float <$> Metrics.completion_time m
  | prompt_time => Py.Float <$> Metrics.prompt_time m
  | queue_time => Py.Float <$> Metrics.queue_time m
  | total_time => Py.Float <$> Metrics.total_time m
  end.

Definition of_usage (c : t) (u : Usage.t) : option Py.num :=
  match c with
  | input_tokens | prompt_tokens => Py.Int <$> Usage.prompt_tokens u
  | output_tokens | completion_tokens => Py.Int <$> Usage.completion_tokens u
  | total_tokens => Py.Int <$> Usage.total_tokens u
  | completion_time => Py.Float <$> Usage.completion_time u
  | prompt_time => Py.Float <$> Usage.prompt_time u
  | queue_time => Py.Float <$> Usage.queue_time u
  | total_time => Py.Float <$> Usage.total_time u
  end.
End Counter.

(** * One model call, non-streaming *)

Section Calls.

Context (base : Collaborators) (self : Groq.t).

(** The world right after the request has gone out and the vendor's reply
    has been taken off the script. *)
Definition requested (stream : bool) (rest : list Reply) (w : World.t) : World.t :=
  World.set_vendor rest
    (World.set_sent
       (World.sent w ++ [Build_Request (Groq.id self) (World.messages w) stream]) w).

(** The assistant message of [create_assistant_message] before the metrics
    are folded in. *)
Definition draft_message (response_message : ChatCompletionMessage.t) : Message.t :=
  let assistant_message :=
    Message.new (or_assistant (ChatCompletionMessage.role response_message))
                (ChatCompletionMessage.content response_message) in
  match ChatCompletionMessage.tool_calls response_message with
  | Some (t :: ts) =>
      match mapM (model_dump base) (t :: ts) with
      | Some dumped => Message.set_tool_calls (Some dumped) assistant_message
      | None => assistant_message
      end
  | _ => assistant_message
  end.

(** The model response [Groq.response] derives from the assistant message. *)
Definition response_of (assistant_message : Message.t) : ModelResponse.t :=
  match Message.content assistant_message with
  | Some _ =>
      ModelResponse.set_content
        (Some (get_content_string base assistant_message)) ModelResponse.new
  | None => ModelResponse.new
  end.

(** The assistant message and the per-call metrics of a completed call. *)
Definition call_message (elapsed : Q) (rm : ChatCompletionMessage.t)
    (ou : option Usage.t) : Message.t :=
  puts (usage_increments ou)
    (Message.put "time" (Py.Num (Py.Float elapsed)) (draft_message rm)).

Definition call_metrics (elapsed : Q) (ou : option Usage.t) : Metrics.t :=
  usage_metrics ou (Metrics.set_response_timer elapsed (Metrics_new base)).

End Calls.

(** * One model call, streaming

    The chunk loop touches the world only to yield; what it does to the
    accumulator and to the per-call metrics is a pure function of the chunks. *)

(** The delta the loop reads from a chunk: that of its first choice. *)
Definition delta_of (response_ : ChatCompletionChunk.t) : option ChoiceDelta.t :=
  head (ChatCompletionChunk.choices response_).

(** The content fragment a chunk carries, if any. *)
Definition content_of (response_ : ChatCompletionChunk.t) : option string :=
  delta_of response_ ≫= ChoiceDelta.content.

(** The content fragments of a stream, in the vendor's emission order. *)
Definition contents (chunks : list (Q * ChatCompletionChunk.t)) : list string :=
  omap (fun c => content_of c.2) chunks.

(** The per-call metrics after one chunk; [None] when [+= 1] meets [None]. *)
Definition chunk_metrics (now : Q) (response_ : ChatCompletionChunk.t) (m : Metrics.t)
  : option Metrics.t :=
  let m := Metrics.set_response_timer now m in
  m ←
    match ChatCompletionChunk.choices response_ with
    | [] => Some m
    | _ :: _ =>
      n ← Metrics.completion_tokens m;
      let m := Metrics.set_completion_tokens (Some (n + 1)%Z) m in
      Some (if (n + 1 =? 1)%Z then Metrics.set_time_to_first_token (Some now) m else m)
    end;
  Some match ChatCompletionChunk.usage response_ with
       | Some usage => add_response_usage_to_metrics m usage
       | None => m
       end.

Fixpoint metrics_after (chunks : list (Q * ChatCompletionChunk.t)) (m : Metrics.t)
  : option Metrics.t :=
  match chunks with
  | [] => Some m
  | (now, response_) :: chunks => m ← chunk_metrics now response_ m; metrics_after chunks m
  end.

(** The accumulator after one chunk. *)
Definition chunk_data (response_ : ChatCompletionChunk.t) (sd : StreamData.t)
  : StreamData.t :=
  match delta_of response_ with
  | None => sd
  | Some delta =>
    StreamData.mk
      (StreamData.response_content sd +:+ default "" (ChoiceDelta.content delta))
      (match ChoiceDelta.tool_calls delta with
       | Some tcs => Some (default [] (StreamData.response_tool_calls sd) ++ tcs)
       | None => StreamData.response_tool_calls sd
       end)
  end.

Definition data_after (chunks : list (Q * ChatCompletionChunk.t)) (sd : StreamData.t)
  : StreamData.t :=
  foldl (fun sd c => chunk_data c.2 sd) sd chunks.

Definition yields (frags : list string) (w : World.t) : World.t :=
  World.set_yielded (World.yielded w ++ map ModelResponse.of_content frags) w.

(** The concatenation of a list of fragments. *)
Definition join (frags : list string) : string := foldr String.append "" frags.

Section StreamCalls.

Context (base : Collaborators) (self : Groq.t).

(** The per-call metrics of a streamed call: the loop's, with the timer
    stopped. *)
Definition stream_metrics (chunks : list (Q * ChatCompletionChunk.t)) (elapsed : Q)
  : option Metrics.t :=
  Metrics.set_response_timer elapsed <$> metrics_after chunks (Metrics_new base).

End StreamCalls.

(** * Examples: a concrete environment *)

Module Example.

(** The defaults of the base [Metrics()]: the token counters start at the
    integer [0] (the loop of [response_stream] increments
    [completion_tokens] before anything assigns it, and compares it with [1]
    to recognise the first chunk; [Metrics.log] divides [output_tokens]); the
    time to first token starts at [None]. *)
Definition fresh : BaseMetrics :=
  Build_BaseMetrics (Some 0%Z) (Some 0%Z) (Some 0%Z) (Some 0%Z) (Some 0%Z) None.

(** Stand-ins for the collaborators: tool calls are dumped field by field,
    a fragment with an id and a name is a tool call, every tool answers
    ["ok"], and the dispatcher yields nothing of its own. *)
Definition base : Collaborators := {|
  base_metrics := fresh;
  model_dump t := Some (Build_ToolCall (sdk_id t) (sdk_name t) (sdk_arguments t));
  get_content_string m := default "" (Message.content m);
  _build_tool_calls fragments :=
    omap (fun f =>
            id ← delta_id f; name ← delta_name f;
            Some (Build_ToolCall id name (default "" (delta_arguments f))))
         fragments;
  run_function_calls tcs := map (fun tc => Message.new "tool" (Some "ok")) tcs;
  tool_call_events tcs := []
|}.

Definition groq : Groq.t := Groq.default "llama3-groq-70b-8192-tool-use-preview".

Definition user_says (s : string) : Message.t := Message.new "user" (Some s).

Definition no_usage : option Usage.t := None.

Definition usage (p c t : Z) : option Usage.t :=
  Some (Usage.mk (Some p) (Some c) (Some t) None None None None).

(** A chunk with one choice whose delta carries [content]. *)
Definition says (content : string) : ChatCompletionChunk.t :=
  ChatCompletionChunk.mk [ChoiceDelta.mk (Some content) None] None.

(** A chunk with no choice and a usage block. *)
Definition reports (p c t : Z) : ChatCompletionChunk.t :=
  ChatCompletionChunk.mk [] (usage p c t).

(** A chunk whose delta opens a tool call and has no content. *)
Definition calls (id name : string) : ChatCompletionChunk.t :=
  ChatCompletionChunk.mk
    [ChoiceDelta.mk None (Some [Build_ChoiceDeltaToolCall 0 (Some id) (Some name) None])]
    None.

(** A completion with one choice. *)
Definition answers (content : string) (ou : option Usage.t) : ChatCompletion.t :=
  ChatCompletion.mk [ChatCompletionMessage.mk (Some "assistant") (Some content) None] ou.

(** A completion whose only choice asks for one tool. *)
Definition asks_tool (id name : string) (ou : option Usage.t) : ChatCompletion.t :=
  ChatCompletion.mk
    [ChatCompletionMessage.mk (Some "assistant") None
       (Some [Build_ChatCompletionMessageToolCall id name "{}"])] ou.

(** The scenario of the specification: chunks ["Hello"], [" world"], then
    a usage block 5/2/7. *)
Definition hello_world : Reply :=
  Streams [(1 # 10, says "Hello"); (2 # 10, says " world"); (3 # 10, reports 5 2 7)]
          (3 # 10).

Definition after_hello_world : World.t :=
  (response_stream base groq 1 (World.init [user_says "hi"] [hello_world])).2.

End Example.

(** The vendor's value for counter [c] in a completion, if it reports one. *)
Definition reported_value (c : Counter.t) (ou : option Usage.t) : option Py.num :=
  ou ≫= Counter.of_usage c.

(** * Whole calls: rounds of model calls and tool dispatch *)

(** The assistant message carries at least one tool call. *)
Definition carries_tool_calls (am : Message.t) : bool :=
  match Message.tool_calls am with
  | Some (_ :: _) => true
  | _ => false
  end.

(** A call as a sequence of rounds: [round w am w'] is one model call that
    appended the assistant message [am]; [dispatch am] is what the shared
    handler does to the world before the follow-up call.  The sequence stops
    at the first assistant message without tool calls, and only there. *)
Inductive rounds (round : World.t -> Message.t -> World.t -> Prop)
    (dispatch : Message.t -> World.t -> World.t)
  : World.t -> list Message.t -> World.t -> Prop :=
| rounds_last w am w' :
    round w am w' -> carries_tool_calls am = false ->
    rounds round dispatch w [am] w'
| rounds_more w am w1 ams w' :
    round w am w1 -> carries_tool_calls am = true ->
    rounds round dispatch (dispatch am w1) ams w' ->
    rounds round dispatch w (am :: ams) w'.

Section Runs.

Context (base : Collaborators) (self : Groq.t).

(** The tool-role messages the dispatcher appends for an assistant message. *)
Definition dispatched (am : Message.t) : list Message.t :=
  run_function_calls base (default [] (Message.tool_calls am)).

Definition model_round (w : World.t) (am : Message.t) (w' : World.t) : Prop :=
  exists mr, model_call base self w = (Return (am, mr), w').

Definition model_dispatch (am : Message.t) (w : World.t) : World.t :=
  World.set_messages (World.messages w ++ dispatched am) w.

Definition stream_round (w : World.t) (am : Message.t) (w' : World.t) : Prop :=
  stream_call base self w = (Return am, w').

Definition stream_dispatch (am : Message.t) (w : World.t) : World.t :=
  World.set_messages (World.messages w ++ dispatched am)
    (World.set_yielded
       (World.yielded w ++ tool_call_events base (default [] (Message.tool_calls am))) w).

End Runs.

(** The chunk has at least one choice. *)
Definition has_choices (c : Q * ChatCompletionChunk.t) : bool :=
  match ChatCompletionChunk.choices c.2 with
  | [] => false
  | _ :: _ => true
  end.

(** The timer reading at the first chunk that has a choice. *)
Definition first_choice_time (chunks : list (Q * ChatCompletionChunk.t)) : option Q :=
  fst <$> head (filter (fun c => has_choices c = true) chunks).

(** ** Token counters of one call (C5) *)

(** The data-model invariant: when input, output and total are all known,
    total = input + output. *)
Definition tokens_add_up (m : Metrics.t) : Prop :=
  forall i o t,
    Metrics.input_tokens m = Some i -> Metrics.output_tokens m = Some o ->
    Metrics.total_tokens m = Some t -> t = (i + o)%Z.

(** ** Counters the vendor does not report (C3) *)

(** The four timings of the Groq subclass. *)
Definition is_timing (k : Counter.t) : bool :=
  match k with
  | Counter.completion_time | Counter.prompt_time
  | Counter.queue_time | Counter.total_time => true
  | _ => false
  end.

(** The vendor's reply does not report counter [k]: a completion has no
    usage block, or one without the field; a stream ends with a usage block
    without the field, or carries no usage block at all (the latter for the
    timings only: the token counters have the base class's defaults). *)
Definition unreported (k : Counter.t) (reply : Reply) : Prop :=
  match reply with
  | Fails _ _ => True
  | Completes _ c => reported_value k (ChatCompletion.usage c) = None
  | Streams chunks _ =>
      (exists front now last u,
          chunks = front ++ [(now, last)] /\
          ChatCompletionChunk.usage last = Some u /\ Counter.of_usage k u = None) \/
      (Forall (fun c => ChatCompletionChunk.usage c.2 = None) chunks /\ is_timing k = true)
  end.

(** One model call, streamed or not. *)
Definition a_call (base : Collaborators) (self : Groq.t) (streamed : bool)
  : M World.t Message.t :=
  if streamed then stream_call base self
  else '(assistant_message, _) ← model_call base self; mret assistant_message.

(** ** Time to first token (C7) *)

(** Usage blocks come on the final chunk only: a chunk that is not the last
    one carries none. *)
Definition usage_at_end_only (chunks : list (Q * ChatCompletionChunk.t)) : Prop :=
  forall i c, chunks !! i = Some c -> S i < length chunks ->
              ChatCompletionChunk.usage c.2 = None.

(** The timer reading at the first chunk whose delta has content: what the
    specification takes the time to first token to be. *)
Definition first_content_time (chunks : list (Q * ChatCompletionChunk.t)) : option Q :=
  fst <$> head (filter (fun c => is_Some (content_of c.2)) chunks).

(** ** Tool calls are never terminal (C4) *)

(** The conversation after the rounds of [ams]: each assistant message is
    followed by the tool-role messages dispatched for it. *)
Definition grown (disp : Message.t -> list Message.t) (msgs : list Message.t)
    (ams : list Message.t) : list Message.t :=
  foldl (fun msgs am => msgs ++ am :: disp am) msgs ams.

(** The conversation each round's request carries. *)
Fixpoint conversations (disp : Message.t -> list Message.t) (msgs : list Message.t)
    (ams : list Message.t) : list (list Message.t) :=
  match ams with
  | [] => []
  | am :: ams => msgs :: conversations disp (msgs ++ am :: disp am) ams
  end.

(** ** Calls return: the lifetime dict stays well typed *)

(** Every counter's entry is absent or a number, and the two list entries
    are absent or lists: what a fresh adapter ([{}]) has, and what every
    call keeps. *)
Definition well_typed (d : gmap string Py.val) : Prop :=
  (forall k, addable d (Counter.key k)) /\
  appendable d "response_times" /\ appendable d "time_to_first_token".

Section Totality.

Context (base : Collaborators) (self : Groq.t).

(** The completion's first choice makes an assistant message with tool
    calls, and the per-call metrics of the call can be logged. *)
Definition asks_for_tools (reply : Q * ChatCompletion.t) : Prop :=
  loggable (call_metrics base reply.1 (ChatCompletion.usage reply.2)) /\
  exists rm, head (ChatCompletion.choices reply.2) = Some rm /\
             carries_tool_calls (draft_message base rm) = true.

End Totality.

Section StreamTotality.

Context (base : Collaborators) (self : Groq.t).

(** The stream's loop does not raise and leaves per-call metrics that can
    be logged. *)
Definition stream_logs (chunks : list (Q * ChatCompletionChunk.t)) (elapsed : Q) : Prop :=
  exists m, stream_metrics base chunks elapsed = Some m /\ loggable m.

(** The stream goes through and its accumulated fragments make tool calls. *)
Definition streams_tools (reply : list (Q * ChatCompletionChunk.t) * Q) : Prop :=
  stream_logs reply.1 reply.2 /\
  carries_tool_calls (assemble base (data_after reply.1 StreamData.new)) = true.

End StreamTotality.

(** ** Streamed content (C1) *)

(** [s if s != "" else None] *)
Definition nonempty (s : string) : option string :=
  if String.eqb s "" then None else Some s.

Section Streamed.

Context (base : Collaborators) (self : Groq.t).

(** What a round adds to the conversation and to the generator's output
    after the content fragments: the assistant message, then, if it carries
    tool calls, what the dispatcher appends and yields. *)
Definition round_messages (am : Message.t) : list Message.t :=
  am :: (if carries_tool_calls am then dispatched base am else []).

Definition round_events (am : Message.t) : list ModelResponse.t :=
  if carries_tool_calls am
  then tool_call_events base (default [] (Message.tool_calls am))
  else [].

(** One round of a streamed call: the chunks the vendor sent, the timer's
    final reading, and the assistant message appended. *)
Definition Round : Type := list (Q * ChatCompletionChunk.t) * Q * Message.t.

Definition round_ok (r : Round) : Prop :=
  Message.role r.2 = "assistant" /\
  Message.content r.2 = nonempty (join (contents r.1.1)).

End Streamed.

(** ** Lifetime totals are sums of per-call values (C6) *)

(** A call made by the adapter's user: with a conversation list of its own,
    non-streaming or streaming. *)
Inductive Call :=
| Plain (conversation : list Message.t)
| Streamed (conversation : list Message.t).

Definition call (base : Collaborators) (self : Groq.t) (fuel : nat) (c : Call)
  : M World.t unit :=
  match c with
  | Plain conversation =>
      modify (World.set_messages conversation);;
      _ ← response base self fuel; mret tt
  | Streamed conversation =>
      modify (World.set_messages conversation);;
      response_stream base self fuel
  end.

(** A sequence of calls through one adapter instance. *)
Fixpoint session (base : Collaborators) (self : Groq.t) (fuel : nat) (cs : list Call)
  : M World.t unit :=
  match cs with
  | [] => mret tt
  | c :: cs => call base self fuel c;; session base self fuel cs
  end.

(** The vendor's reply reports counter [k]: in the usage block of the
    completion, or in the usage block on the final chunk of the stream. *)
Definition reports (k : Counter.t) (reply : Reply) : Prop :=
  match reply with
  | Fails _ _ => False
  | Completes _ c => is_Some (reported_value k (ChatCompletion.usage c))
  | Streams chunks _ =>
      exists front now last u,
        chunks = front ++ [(now, last)] /\
        ChatCompletionChunk.usage last = Some u /\ is_Some (Counter.of_usage k u)
  end.

(** From [w] to [w'] some replies were consumed and as many per-call metrics
    logged; if every reply reported [k], every per-call metrics has a value
    for [k] and the lifetime entry has grown by these values, in order. *)
Definition accounted (k : Counter.t) (w w' : World.t) : Prop :=
  exists consumed ms,
    World.vendor w = consumed ++ World.vendor w' /\
    World.logged w' = World.logged w ++ ms /\
    length ms = length consumed /\
    (Forall (reports k) consumed ->
     Forall (fun m => is_Some (Counter.of_metrics k m)) ms /\
     World.self_metrics w' !! Counter.key k =
       bumped (World.self_metrics w !! Counter.key k) (omap (Counter.of_metrics k) ms)).

(** * The PDF-URL reader ([PDFUrlReader.read]) *)

Module PdfUrl.

(** An [httpx.Response], as far as the readers look at it: its status, its
    [content] and its [text] (the content as [httpx] decodes it). *)
Record Response := {
  status_code : Z;
  body : string;
  text : string
}.

(** What one [httpx.get(url)] does: it returns a response, or raises
    [httpx.RequestError] (the transient network error). *)
Inductive Fetch :=
| Fetched (response : Response)
| Unreachable (message : string).

Inductive Level := Info | Warning | Error.

Record Document := {
  doc_name : string;
  doc_id : string;
  doc_page : nat;
  doc_content : string
}.

(** The world of the reader: the network's answers to the successive
    fetches, the waits slept so far (seconds), and the log. *)
Record World := {
  network : list Fetch;
  slept : list nat;
  log : list (Level * string)
}.

(** Libraries the reader calls into: [httpx]'s notion of an error status,
    [pypdf]'s page texts ([None] when it raises), and the base reader's
    [chunk_document]. *)
Record Library := {
  is_error_status : Z -> bool;
  page_texts : string -> option (list string);
  chunk_document : Document -> list Document
}.

(** The reader instance: [self.chunk]. *)
Record Reader := {
  chunk : bool
}.

Definition logger (level : Level) (message : string) : M World unit :=
  modify (fun w => Build_World (network w) (slept w) (log w ++ [(level, message)])).

(** [sleep(seconds)] *)
Definition sleep (seconds : nat) : M World unit :=
  modify (fun w => Build_World (network w) (slept w ++ [seconds]) (log w)).

(** [httpx.get(url)]: the next answer of the network. *)
Definition httpx_get (url : string) : M World Fetch :=
  fun w =>
    match network w with
    | [] => (Starved, w)
    | f :: rest => (Return f, Build_World rest (slept w) (log w))
    end.

(** [s.split(c)] for a one-character separator. *)
Fixpoint split (c : Ascii.ascii) (s : string) : list string :=
  match s with
  | EmptyString => [EmptyString]
  | String a s =>
    if Ascii.eqb a c then EmptyString :: split c s
    else match split c s with
         | x :: xs => String a x :: xs
         | [] => [String a EmptyString]
         end
  end.

(** [s.replace(a, b)] for one-character strings. *)
Fixpoint replace (a b : Ascii.ascii) (s : string) : string :=
  match s with
  | EmptyString => EmptyString
  | String x s => String (if Ascii.eqb x a then b else x) (replace a b s)
  end.

(** [url.split("/")[-1].split(".")[0].replace("/", "_").replace(" ", "_")] *)
Definition document_name (url : string) : string :=
  let tail := List.last (split "/"%char url) EmptyString in
  let stem := List.hd EmptyString (split "."%char tail) in
  replace " "%char "_"%char (replace "/"%char "_"%char stem).

(** [_build_document] *)
Definition _build_document (doc_name : string) (page_number : nat) (text : string)
  : Document :=
  Build_Document doc_name (doc_name +:+ "_" +:+ pretty page_number) page_number text.

(** [BasePdfReader._build_chunked_documents] *)
Definition _build_chunked_documents (lib : Library) (documents : list Document)
  : list Document :=
  concat (map (chunk_document lib) documents).

(** The retry loop of [read], for the attempts still to make.  Leaving the
    loop without a response would leave [response] unbound. *)
Fixpoint fetch (url : string) (attempts : list nat) : M World Response :=
  match attempts with
  | [] => raise (Py.UnboundLocalError "response")
  | attempt :: attempts =>
    outcome ← httpx_get url;
    match outcome with
    | Fetched response => mret response
    | Unreachable e =>
      if attempt =? 2
      then
        logger Error ("Failed to fetch PDF after 3 attempts: " +:+ e);;
        raise (Py.RequestError e)
      else
        let wait_time := 2 ^ attempt in
        logger Warning ("Request failed, retrying in " +:+ pretty wait_time +:+ " seconds...");;
        sleep wait_time;;
        fetch url attempts
    end
  end.

(** [PDFUrlReader.read] *)
Definition read (lib : Library) (self : Reader) (url : string)
  : M World (list Document) :=
  if String.eqb url "" then raise (Py.ValueError "No url provided")
  else
    logger Info ("Reading: " +:+ url);;
    response ← fetch url (seq 0 3);
    (if is_error_status lib (status_code response)
     then
       logger Error ("HTTP error occurred: " +:+ pretty (status_code response)
                    +:+ " - " +:+ text response);;
       raise (Py.HTTPStatusError (status_code response))
     else mret tt);;
    let doc_name := document_name url in
    pages ←
      match page_texts lib (body response) with
      | Some pages => mret pages
      | None => raise (Py.PdfReadError "")
      end;
    let documents :=
      imap (fun i text => _build_document doc_name (S i) text) pages in
    if chunk self then mret (_build_chunked_documents lib documents)
    else mret documents.

(** A library for the examples: 4xx and 5xx are errors, a body is a list of
    page texts separated by form feeds, chunking is off or trivial. *)
Definition lib : Library := {|
  is_error_status code := (400 <=? code)%Z;
  page_texts body := Some (split "012"%char body);
  chunk_document d := [d]
|}.

Definition fresh (answers : list Fetch) : World := Build_World answers [] [].

End PdfUrl.

(** * Request parameters ([Groq.request_kwargs]) *)

(** [if v: d[k] = v] *)
Definition set_if (k : string) (v : Py.obj) (d : gmap string Py.obj) : gmap string Py.obj :=
  if Py.truthy v then <[k := v]> d else d.

(** [Groq.request_kwargs] *)
Definition request_kwargs (self : Groq.t) : gmap string Py.obj :=
  let request_params : gmap string Py.obj := ∅ in
  let request_params := set_if "frequency_penalty" (Groq.frequency_penalty self) request_params in
  let request_params := set_if "logit_bias" (Groq.logit_bias self) request_params in
  let request_params := set_if "logprobs" (Groq.logprobs self) request_params in
  let request_params := set_if "max_tokens" (Groq.max_tokens self) request_params in
  let request_params := set_if "presence_penalty" (Groq.presence_penalty self) request_params in
  let request_params := set_if "response_format" (Groq.response_format self) request_params in
  let request_params := set_if "seed" (Groq.seed self) request_params in
  let request_params := set_if "stop" (Groq.stop self) request_params in
  let request_params := set_if "temperature" (Groq.temperature self) request_params in
  let request_params := set_if "top_logprobs" (Groq.top_logprobs self) request_params in
  let request_params := set_if "top_p" (Groq.top_p self) request_params in
  let request_params := set_if "user" (Groq.user self) request_params in
  let request_params := set_if "extra_headers" (Groq.extra_headers self) request_params in
  let request_params := set_if "extra_query" (Groq.extra_query self) request_params in
  let request_params :=
    if Py.truthy (Groq.tools self)
    then
      let request_params := <["tools" := Groq.tools self]> request_params in
      match Groq.tool_choice self with
      | Py.ONone => <["tool_choice" := Py.OStr "auto"]> request_params
      | tool_choice => <["tool_choice" := tool_choice]> request_params
      end
    else request_params in
  match Groq.request_params self with
  | Some extra => if decide (extra = ∅) then request_params else extra ∪ request_params
  | None => request_params
  end.

(** The fourteen request parameters of the dataclass that [request_kwargs]
    passes on under their own name. *)
Module Param.
Inductive t :=
| frequency_penalty | logit_bias | logprobs | max_tokens | presence_penalty
| response_format | seed | stop | temperature | top_logprobs | top_p | user
| extra_headers | extra_query.

Definition key (p : t) : string :=
  match p with
  | frequency_penalty => "frequency_penalty"
  | logit_bias => "logit_bias"
  | logprobs => "logprobs"
  | max_tokens => "max_tokens"
  | presence_penalty => "presence_penalty"
  | response_format => "response_format"
  | seed => "seed"
  | stop => "stop"
  | temperature => "temperature"
  | top_logprobs => "top_logprobs"
  | top_p => "top_p"
  | user => "user"
  | extra_headers => "extra_headers"
  | extra_query => "extra_query"
  end.

Definition value (p : t) (self : Groq.t) : Py.obj :=
  match p with
  | frequency_penalty => Groq.frequency_penalty self
  | logit_bias => Groq.logit_bias self
  | logprobs => Groq.logprobs self
  | max_tokens => Groq.max_tokens self
  | presence_penalty => Groq.presence_penalty self
  | response_format => Groq.response_format self
  | seed => Groq.seed self
  | stop => Groq.stop self
  | temperature => Groq.temperature self
  | top_logprobs => Groq.top_logprobs self
  | top_p => Groq.top_p self
  | user => Groq.user self
  | extra_headers => Groq.extra_headers self
  | extra_query => Groq.extra_query self
  end.
End Param.

(** Two adapters that differ at most in the value of parameter [p]. *)
Definition differ_at_most_in (p : Param.t) (a b : Groq.t) : Prop :=
  (forall q, q <> p -> Param.value q a = Param.value q b) /\
  Groq.tools a = Groq.tools b /\
  Groq.tool_choice a = Groq.tool_choice b /\
  Groq.request_params a = Groq.request_params b.

(** The adapter's own [request_params] mapping says nothing about key [k]. *)
Definition not_overridden (k : string) (self : Groq.t) : Prop :=
  match Groq.request_params self with
  | Some extra => extra !! k = None
  | None => True
  end.

Global Instance param_eq_dec : EqDecision Param.t.
Proof. solve_decision. Defined.

(** An adapter with [temperature=0.0] and nothing else set, and one with
    no temperature of its own whose [request_params] supply one. *)
Definition cold : Groq.t :=
  Groq.mk "llama3" "Groq" "Groq"
          Py.ONone Py.ONone Py.ONone Py.ONone Py.ONone Py.ONone Py.ONone
          Py.ONone (Py.OFloat 0) Py.ONone Py.ONone Py.ONone Py.ONone Py.ONone
          None Py.ONone Py.ONone.

Definition overridden : Groq.t :=
  Groq.mk "llama3" "Groq" "Groq"
          Py.ONone Py.ONone Py.ONone Py.ONone Py.ONone Py.ONone Py.ONone
          Py.ONone Py.ONone Py.ONone Py.ONone Py.ONone Py.ONone Py.ONone
          (Some {["temperature" := Py.OFloat (7 # 10)]}) Py.ONone Py.ONone.

(** * MongoDB workflow storage ([MongoDbWorkflowStorage.upsert]) *)

Module Mongo.

(** The values a stored document holds, as far as the storage looks at
    them: integers, strings, UUID objects (by their canonical string), and
    anything else, by its string form (a float, a boolean, [None], a list,
    ...). *)
Inductive Value :=
| Int (z : Z)
| Str (s : string)
| Uuid (canonical : string)
| Other (repr : string).

Global Instance value_eq_dec : EqDecision Value.
Proof. solve_decision. Defined.

(** [session.session_id]: a string or a [UUID]. *)
Inductive SessionId :=
| IdStr (s : string)
| IdUuid (canonical : string).

(** A [WorkflowSession], by its id and what [to_dict()] returns. *)
Record WorkflowSession := {
  session_id : SessionId;
  to_dict : gmap string Value
}.

(** The collection: its documents in insertion order, whether the server
    can be reached (if not, every operation raises [PyMongoError]), and
    whether writes are acknowledged. *)
Record Collection := {
  documents : list (gmap string Value);
  reachable : bool;
  acknowledged : bool
}.

(** A document matches a query when it has every field of the query. *)
Definition matches (query : list (string * Value)) (doc : gmap string Value) : bool :=
  forallb (fun kv => bool_decide (doc !! kv.1 = Some kv.2)) query.

(** [collection.find_one(query)] *)
Definition find_one (query : list (string * Value)) (docs : list (gmap string Value))
  : option (gmap string Value) :=
  List.find (matches query) docs.

(** [$set] on the first matching document, if there is one. *)
Fixpoint set_first (query : list (string * Value)) (update : gmap string Value)
    (docs : list (gmap string Value)) : option (list (gmap string Value)) :=
  match docs with
  | [] => None
  | doc :: docs =>
    if matches query doc then Some ((update ∪ doc) :: docs)
    else (fun docs => doc :: docs) <$> set_first query update docs
  end.

(** [collection.update_one(query, {"$set": update}, upsert=True)]: without a
    match, a new document is inserted with the query's fields and the
    update's. *)
Definition update_one (query : list (string * Value)) (update : gmap string Value)
    (docs : list (gmap string Value)) : list (gmap string Value) :=
  match set_first query update docs with
  | Some docs => docs
  | None => docs ++ [update ∪ list_to_map query]
  end.

(** [MongoDbWorkflowStorage.read]; [WorkflowSession.from_dict] is taken to
    give the document back. *)
Definition read (c : Collection) (sid : Value) (user_id : option Value)
  : option (gmap string Value) :=
  if reachable c then
    let query := [("session_id", sid)] in
    let query := match user_id with
                 | Some u => query ++ [("user_id", u)]
                 | None => query
                 end in
    match find_one query (documents c) with
    | Some doc => if decide (doc = ∅) then None else Some (delete "_id" doc)
    | None => None
    end
  else None.

(** [str(uuid)] *)
Definition str (canonical : string) : Value := Str canonical.

Section Upsert.

(** Python's [x + 1] for an object [x] that is neither an [int] nor a string
    nor a UUID, given by its string form: the object's own [__add__]
    decides.  A float [1.5] gives [2.5] and [True] gives the int [2];
    [None], a list or a dict raise [TypeError], which is [None] here. *)
Context (add_one : string -> option Value).

(** [x + 1]; [None] when it raises [TypeError], as it always does for a
    string and for a UUID. *)
Definition plus_one (x : Value) : option Value :=
  match x with
  | Int z => Some (Int (z + 1))
  | Str _ => None
  | Uuid _ => None
  | Other repr => add_one repr
  end.

(** The dict that [upsert] sends: [to_dict()] with the id as a string when
    it is a UUID and the [_version] field set or incremented.  [+= 1] raises
    where Python's [+ 1] does. *)
Definition versioned (session : WorkflowSession) : Py.exn + gmap string Value :=
  let session_dict := to_dict session in
  let session_dict :=
    match session_id session with
    | IdUuid canonical => <["session_id" := str canonical]> session_dict
    | IdStr _ => session_dict
    end in
  match session_dict !! "_version" with
  | None => inr (<["_version" := Int 1]> session_dict)
  | Some version =>
    match plus_one version with
    | Some version => inr (<["_version" := version]> session_dict)
    | None => inl Py.TypeError
    end
  end.

(** [MongoDbWorkflowStorage.upsert], at time [timestamp].  The result is the
    value returned (or the exception that escapes) and the collection
    afterwards; a [PyMongoError] is caught and gives [None]. *)
Definition upsert (session : WorkflowSession) (timestamp : Z) (c : Collection)
  : Py.exn + (option (gmap string Value) * Collection) :=
  match versioned session with
  | inl e => inl e
  | inr session_dict =>
    let update_data := <["updated_at" := Int timestamp]> session_dict in
    match session_dict !! "session_id" with
    | None => inl (Py.KeyError "session_id")
    | Some sid =>
      let query := [("session_id", sid)] in
      if reachable c then
        let update_data :=
          match find_one query (documents c) with
          | Some doc => if decide (doc = ∅) then <["created_at" := Int timestamp]> update_data
                        else update_data
          | None => <["created_at" := Int timestamp]> update_data
          end in
        let c' := Build_Collection (update_one query update_data (documents c))
                                   (reachable c) (acknowledged c) in
        if acknowledged c then inr (read c' sid None, c')
        else inr (None, c')
      else inr (None, c)
    end
  end.

End Upsert.

(** For the examples: the two booleans and the float [1.5]; every other
    object raises. *)
Definition example_add_one (repr : string) : option Value :=
  if String.eqb repr "True" then Some (Int 2)
  else if String.eqb repr "False" then Some (Int 1)
  else if String.eqb repr "1.5" then Some (Other "2.5")
  else None.

End Mongo.

Section MongoVersion.

Import Mongo.

(** The integer version [upsert] writes, computed from the session alone
    ([None] when the session's [_version] is not an integer). *)
Definition next_version (session : WorkflowSession) : option Z :=
  match to_dict session !! "_version" with
  | None => Some 1%Z
  | Some (Int v) => Some (v + 1)%Z
  | Some _ => None
  end.

(** The id under which [upsert] files the session. *)
Definition filed_under (session : WorkflowSession) : option Value :=
  match session_id session with
  | IdUuid canonical => Some (str canonical)
  | IdStr _ => to_dict session !! "session_id"
  end.

(** [n + 1] upserts of the same session object in a row. *)
Fixpoint upserts (add_one : string -> option Value) (n : nat) (session : WorkflowSession)
    (timestamp : Z) (c : Collection)
  : Py.exn + (option (gmap string Value) * Collection) :=
  match n with
  | O => upsert add_one session timestamp c
  | S n =>
    match upsert add_one session timestamp c with
    | inr (_, c') => upserts add_one n session timestamp c'
    | inl e => inl e
    end
  end.

End MongoVersion.

(** * The Groq adapter: what a call leaves behind *)

(** The floats recorded under a list-valued key of a metrics dict
    (["response_times"], ["time_to_first_token"]). *)
Definition times_of (k : string) (d : gmap string Py.val) : list Q :=
  match d !! k with
  | Some (Py.Floats xs) => xs
  | _ => []
  end.

(** The response timer's final reading for a reply the vendor gave. *)
Definition reply_elapsed (r : Reply) : option Q :=
  match r with
  | Completes elapsed _ => Some elapsed
  | Streams _ elapsed => Some elapsed
  | Fails _ _ => None
  end.

(** From [w] to [w'] some replies were consumed, one request was sent and
    one per-call metrics logged for each, and the lifetime
    ["response_times"] list has grown by their timer readings, in order. *)
Definition timed (w w' : World.t) : Prop :=
  exists consumed ts ms,
    World.vendor w = consumed ++ World.vendor w' /\
    reply_elapsed <$> consumed = Some <$> ts /\
    times_of "response_times" (World.self_metrics w') =
      times_of "response_times" (World.self_metrics w) ++ ts /\
    World.logged w' = World.logged w ++ ms /\
    Metrics.response_timer <$> ms = ts /\
    length (World.sent w') = length (World.sent w) + length consumed.

(** The tool-call fragments a chunk carries: those of its first choice's
    delta. *)
Definition fragments_of (response_ : ChatCompletionChunk.t)
  : option (list ChoiceDeltaToolCall) :=
  delta_of response_ ≫= ChoiceDelta.tool_calls.

(** The fragment lists of a stream, in the vendor's emission order. *)
Definition fragments (chunks : list (Q * ChatCompletionChunk.t))
  : list (list ChoiceDeltaToolCall) :=
  omap (fun c => fragments_of c.2) chunks.

(** [xs if len(xs) > 0 else None] *)
Definition nonempty_list {A} (xs : list A) : option (list A) :=
  match xs with
  | [] => None
  | _ => Some xs
  end.

(** * The Groq adapter: [to_dict] and the client parameters *)

(** [self.tool_choice], or ["auto"] when it is [None]. *)
Definition tool_choice_or_auto (self : Groq.t) : Py.obj :=
  match Groq.tool_choice self with
  | Py.ONone => Py.OStr "auto"
  | tool_choice => tool_choice
  end.

(** The fourteen parameters, in the order in which [request_kwargs] tests
    them, and the dict it has built once it has. *)
Definition request_parameters : list Param.t :=
  [ Param.frequency_penalty; Param.logit_bias; Param.logprobs; Param.max_tokens;
    Param.presence_penalty; Param.response_format; Param.seed; Param.stop;
    Param.temperature; Param.top_logprobs; Param.top_p; Param.user;
    Param.extra_headers; Param.extra_query ].

Definition own_parameters (self : Groq.t) : gmap string Py.obj :=
  foldl (fun d p => set_if (Param.key p) (Param.value p self) d) ∅ request_parameters.

(** [x is None] *)
Definition is_none (x : Py.obj) : bool :=
  match x with
  | Py.ONone => true
  | _ => false
  end.

(** [a or b] *)
Definition py_or (a b : Py.obj) : Py.obj := if Py.truthy a then a else b.

(** [Groq.to_dict]; [base_dict] is what [super().to_dict()] returns (the base
    class is not among the sources). *)
Definition to_dict (base_dict : gmap string Py.obj) (self : Groq.t) : gmap string Py.obj :=
  let _dict := base_dict in
  let _dict :=
    (* _dict.update({...}) *)
    list_to_map
      [ ("frequency_penalty", Groq.frequency_penalty self);
        ("logit_bias", Groq.logit_bias self);
        ("logprobs", Groq.logprobs self);
        ("max_tokens", Groq.max_tokens self);
        ("presence_penalty", Groq.presence_penalty self);
        ("response_format", Groq.response_format self);
        ("seed", Groq.seed self);
        ("stop", Groq.stop self);
        ("temperature", Groq.temperature self);
        ("top_logprobs", Groq.top_logprobs self);
        ("top_p", Groq.top_p self);
        ("user", Groq.user self);
        ("extra_headers", Groq.extra_headers self);
        ("extra_query", Groq.extra_query self);
        ("tools", Groq.tools self);
        ("tool_choice",
         if negb (is_none (Groq.tools self)) && negb (is_none (Groq.tool_choice self))
         then Groq.tool_choice self
         else Py.OStr "auto") ]
      ∪ _dict in
  (* cleaned_dict = {k: v for k, v in _dict.items() if v is not None} *)
  filter (fun kv => is_none kv.2 = false) _dict.

(** The client parameters of the dataclass, as far as [get_client_params]
    reads them. *)
Module ClientSettings.
Record t := mk {
  api_key : Py.obj;
  base_url : Py.obj;
  timeout : Py.obj;
  max_retries : Py.obj;
  default_headers : Py.obj;
  default_query : Py.obj;
  client_params : option (gmap string Py.obj)
}.

Definition set_api_key v s :=
  mk v (base_url s) (timeout s) (max_retries s) (default_headers s) (default_query s)
     (client_params s).
End ClientSettings.

(** The value of the environment variable as [os.getenv] returns it. *)
Definition env_value (getenv : string -> option string) (name : string) : Py.obj :=
  match getenv name with
  | Some s => Py.OStr s
  | None => Py.ONone
  end.

(** [Groq.get_client_params].  [getenv] is [os.getenv]; the result is the
    dict returned, the instance afterwards ([self.api_key] is assigned) and
    the errors logged. *)
Definition get_client_params (getenv : string -> option string) (self : ClientSettings.t)
  : gmap string Py.obj * ClientSettings.t * list string :=
  let self :=
    ClientSettings.set_api_key
      (py_or (ClientSettings.api_key self) (env_value getenv "GROQ_API_KEY")) self in
  let logged :=
    if Py.truthy (ClientSettings.api_key self) then []
    else ["GROQ_API_KEY not set. Please set the GROQ_API_KEY environment variable."] in
  let client_params : gmap string Py.obj := ∅ in
  let client_params := set_if "api_key" (ClientSettings.api_key self) client_params in
  let client_params := set_if "base_url" (ClientSettings.base_url self) client_params in
  let client_params := set_if "timeout" (ClientSettings.timeout self) client_params in
  let client_params := set_if "max_retries" (ClientSettings.max_retries self) client_params in
  let client_params :=
    set_if "default_headers" (ClientSettings.default_headers self) client_params in
  let client_params :=
    set_if "default_query" (ClientSettings.default_query self) client_params in
  let client_params :=
    match ClientSettings.client_params self with
    | Some extra => if decide (extra = ∅) then client_params else extra ∪ client_params
    | None => client_params
    end in
  (client_params, self, logged).

(** The five client settings that [get_client_params] passes on under their
    own name when they are truthy. *)
Module ClientParam.
Inductive t := base_url | timeout | max_retries | default_headers | default_query.

Definition key (p : t) : string :=
  match p with
  | base_url => "base_url"
  | timeout => "timeout"
  | max_retries => "max_retries"
  | default_headers => "default_headers"
  | default_query => "default_query"
  end.

Definition value (p : t) (self : ClientSettings.t) : Py.obj :=
  match p with
  | base_url => ClientSettings.base_url self
  | timeout => ClientSettings.timeout self
  | max_retries => ClientSettings.max_retries self
  | default_headers => ClientSettings.default_headers self
  | default_query => ClientSettings.default_query self
  end.
End ClientParam.

(** What the instance's [client_params] mapping supplies for key [k]. *)
Definition supplied (self : ClientSettings.t) (k : string) : option Py.obj :=
  ClientSettings.client_params self ≫= (fun extra => extra !! k).

(** * The PDF readers: names, retries, and the other readers *)

(** [c in s], for a character. *)
Fixpoint occurs (c : Ascii.ascii) (s : string) : bool :=
  match s with
  | EmptyString => false
  | String a s => Ascii.eqb a c || occurs c s
  end.

(** A fetch that raised [httpx.RequestError]. *)
Definition unreachable (f : PdfUrl.Fetch) : Prop :=
  match f with
  | PdfUrl.Unreachable _ => True
  | PdfUrl.Fetched _ => False
  end.

(** The warnings logged for the first [k] failed attempts. *)
Definition retry_warnings (k : nat) : list (PdfUrl.Level * string) :=
  map (fun wait_time =>
         (PdfUrl.Warning,
          "Request failed, retrying in " +:+ pretty wait_time +:+ " seconds..."))
      (take k [1; 2]).

(** [PDFReader]: the reader of local files. *)
Module PDFReader.

(** What [read] is given: a path as a [str], or an object (a [Path], an
    open file) with its [name] attribute, if it has one. *)
Inductive Source :=
| Str (path : string)
| Obj (name : option Py.obj).

(** The document name; any exception on the way gives ["pdf"]. *)
Definition doc_name (pdf : Source) : string :=
  match pdf with
  | Str pdf =>
      (* pdf.split("/")[-1].split(".")[0].replace(" ", "_") *)
      PdfUrl.replace " "%char "_"%char
        (List.hd EmptyString
           (PdfUrl.split "."%char (List.last (PdfUrl.split "/"%char pdf) EmptyString)))
  | Obj (Some (Py.OStr name)) =>
      (* pdf.name.split(".")[0] *)
      List.hd EmptyString (PdfUrl.split "."%char name)
  | Obj _ => "pdf"
  end.

End PDFReader.

(** [PDFUrlReader.async_read]. *)
Module PDFUrlReaderAsync.

(** The values passed to [process_page]. *)
Inductive Arg :=
| AStr (s : string)
| ANat (n : nat).

(** A call [f(a1, ..., am)] of a function [def f(p1, ..., pn)] without
    defaults: the arguments are bound to the parameters in order, and the
    call raises [TypeError] when there are too many or too few. *)
Definition bind_arguments (params : list string) (args : list Arg)
  : Py.exn + list (string * Arg) :=
  if length args =? length params then inr (zip params args) else inl Py.TypeError.

(** [async def process_page(page_number, page)], closed over [doc_name]:
    calling it binds the arguments and gives the coroutine. *)
Definition process_page (doc_name : string) (args : list Arg)
  : Py.exn + M PdfUrl.World PdfUrl.Document :=
  match bind_arguments ["page_number"; "page"] args with
  | inl e => inl e
  | inr bound =>
    inr match bound with
        | [(_, ANat page_number); (_, AStr page)] =>
            mret (PdfUrl._build_document doc_name page_number page)
        | _ => raise Py.AttributeError
        end
  end.

(** [[f(x) for x in xs]]: the calls are made in order, and the first one
    that raises ends the comprehension. *)
Fixpoint comprehension {A B} (f : A -> Py.exn + B) (xs : list A) : Py.exn + list B :=
  match xs with
  | [] => inr []
  | x :: xs =>
    match f x with
    | inl e => inl e
    | inr y =>
      match comprehension f xs with
      | inl e => inl e
      | inr ys => inr (y :: ys)
      end
    end
  end.

(** [await asyncio.gather] of the coroutines: the results, in order. *)
Fixpoint gather {A} (coroutines : list (M PdfUrl.World A)) : M PdfUrl.World (list A) :=
  match coroutines with
  | [] => mret []
  | c :: coroutines => x ← c; xs ← gather coroutines; mret (x :: xs)
  end.

(** [PDFUrlReader.async_read]; the retry loop is that of [read], with
    [await client.get(url)] and [await asyncio.sleep(wait_time)]. *)
Definition async_read (lib : PdfUrl.Library) (self : PdfUrl.Reader) (url : string)
  : M PdfUrl.World (list PdfUrl.Document) :=
  if String.eqb url "" then raise (Py.ValueError "No url provided")
  else
    PdfUrl.logger PdfUrl.Info ("Reading: " +:+ url);;
    response ← PdfUrl.fetch url (seq 0 3);
    (if PdfUrl.is_error_status lib (PdfUrl.status_code response)
     then
       PdfUrl.logger PdfUrl.Error
         ("HTTP error occurred: " +:+ pretty (PdfUrl.status_code response)
            +:+ " - " +:+ PdfUrl.text response);;
       raise (Py.HTTPStatusError (PdfUrl.status_code response))
     else mret tt);;
    let doc_name := PdfUrl.document_name url in
    pages ←
      match PdfUrl.page_texts lib (PdfUrl.body response) with
      | Some pages => mret pages
      | None => raise (Py.PdfReadError "")
      end;
    coroutines ←
      lift (comprehension
              (fun '(page_number, page) =>
                 process_page doc_name [AStr doc_name; ANat page_number; AStr page])
              (imap (fun i page => (S i, page)) pages));
    documents ← gather coroutines;
    if PdfUrl.chunk self then mret (PdfUrl._build_chunked_documents lib documents)
    else mret documents.

End PDFUrlReaderAsync.

(** [PDFUrlImageReader]: text and OCR of the images, from a URL. *)
Module PDFUrlImageReader.

(** A page as the reader sees it: what [extract_text()] returns, and for
    each image the texts of the OCR result ([None] when the result is
    [None]). *)
Record Page := {
  extract_text : option string;
  images : list (option (list string))
}.

(** ["\n".join(lines)] *)
Fixpoint join_lines (lines : list string) : string :=
  match lines with
  | [] => ""
  | [line] => line
  | line :: lines => line +:+ String "010"%char (join_lines lines)
  end.

(** The content of the document made for a page. *)
Definition content (page : Page) : string :=
  let page_text := default "" (extract_text page) in
  let images_text_list := concat (map (default []) (images page)) in
  let images_text := join_lines images_text_list in
  page_text +:+ String "010"%char images_text.

(** [_build_image_document] *)
Definition _build_image_document (doc_name : string) (page_number : nat) (content : string)
  : PdfUrl.Document :=
  PdfUrl.Build_Document doc_name (doc_name +:+ "_" +:+ pretty page_number) page_number content.

(** [PDFUrlImageReader.read]; [document_reader] is [pypdf]'s reader on the
    response body ([None] when it raises). *)
Definition read (lib : PdfUrl.Library) (document_reader : string -> option (list Page))
    (self : PdfUrl.Reader) (url : string) : M PdfUrl.World (list PdfUrl.Document) :=
  if String.eqb url "" then raise (Py.ValueError "No url provided")
  else
    PdfUrl.logger PdfUrl.Info ("Reading: " +:+ url);;
    outcome ← PdfUrl.httpx_get url;
    response ←
      match outcome with
      | PdfUrl.Fetched response => mret response
      | PdfUrl.Unreachable e => raise (Py.RequestError e)
      end;
    let doc_name :=
      PdfUrl.replace " "%char "_"%char
        (List.hd EmptyString
           (PdfUrl.split "."%char (List.last (PdfUrl.split "/"%char url) EmptyString))) in
    pages ←
      match document_reader (PdfUrl.body response) with
      | Some pages => mret pages
      | None => raise (Py.PdfReadError "")
      end;
    let documents :=
      imap (fun i page => _build_image_document doc_name (S i) (content page)) pages in
    if PdfUrl.chunk self then mret (PdfUrl._build_chunked_documents lib documents)
    else mret documents.

End PDFUrlImageReader.

(** * MongoDB workflow storage: the other operations *)

Module MongoStorage.

Import Mongo.

(** [collection.find(query)]: the matching documents, in the collection's
    order. *)
Definition find (query : list (string * Value)) (docs : list (gmap string Value))
  : list (gmap string Value) :=
  filter (fun doc => matches query doc = true) docs.

(** [collection.delete_one(query)]: the collection without its first
    matching document, or [None] when nothing matches ([deleted_count] 0). *)
Fixpoint delete_first (query : list (string * Value)) (docs : list (gmap string Value))
  : option (list (gmap string Value)) :=
  match docs with
  | [] => None
  | doc :: docs =>
    if matches query doc then Some docs
    else (fun docs => doc :: docs) <$> delete_first query docs
  end.

Inductive Level := Debug | Warning | Error.

(** [MongoDbWorkflowStorage.delete_session]: the collection afterwards and
    the level of the line logged. *)
Definition delete_session (session_id : option Value) (c : Collection)
  : Collection * Level :=
  match session_id with
  | None => (c, Warning)
  | Some session_id =>
    if reachable c then
      match delete_first [("session_id", session_id)] (documents c) with
      | None => (c, Debug)
      | Some docs => (Build_Collection docs (reachable c) (acknowledged c), Debug)
      end
    else (c, Error)
  end.

(** [str(v)] *)
Definition str_of (v : Value) : string :=
  match v with
  | Str s => s
  | Uuid canonical => canonical
  | Int z => pretty z
  | Other repr => repr
  end.

(** The query of [get_all_session_ids] and [get_all_sessions]: a filter is
    added for each argument that is not [None]. *)
Definition filters (user_id workflow_id : option Value) : list (string * Value) :=
  let query := [] in
  let query := match user_id with
               | Some u => query ++ [("user_id", u)]
               | None => query
               end in
  match workflow_id with
  | Some f => query ++ [("workflow_id", f)]
  | None => query
  end.

(** [[str(doc["session_id"]) for doc in cursor]]: a document without the
    field raises [KeyError]. *)
Fixpoint session_ids (cursor : list (gmap string Value)) : Py.exn + list string :=
  match cursor with
  | [] => inr []
  | doc :: cursor =>
    match doc !! "session_id" with
    | None => inl (Py.KeyError "session_id")
    | Some v =>
      match session_ids cursor with
      | inl e => inl e
      | inr ids => inr (str_of v :: ids)
      end
    end
  end.

(** [MongoDbWorkflowStorage.get_all_session_ids]; [sort] is the server's
    [cursor.sort("created_at", -1)].  A [PyMongoError] is caught and gives
    the empty list; any other exception escapes. *)
Definition get_all_session_ids
    (sort : list (gmap string Value) -> list (gmap string Value))
    (user_id workflow_id : option Value) (c : Collection) : Py.exn + list string :=
  if reachable c then
    let query := filters user_id workflow_id in
    let cursor := sort (find query (documents c)) in
    session_ids cursor
  else inr [].

(** The fields [upsert] sets on top of the versioned dict [d], given what
    it found stored under the session's id. *)
Definition update_data_of (d : gmap string Value) (timestamp : Z)
    (found : option (gmap string Value)) : gmap string Value :=
  let update_data := <["updated_at" := Int timestamp]> d in
  match found with
  | Some doc => if decide (doc = ∅) then <["created_at" := Int timestamp]> update_data
                else update_data
  | None => <["created_at" := Int timestamp]> update_data
  end.

(** A server-side sort for the examples: by the integer under
    ["created_at"], descending, documents without one last. *)
Definition created_at (doc : gmap string Value) : Z :=
  match doc !! "created_at" with
  | Some (Int z) => z
  | _ => (-1)%Z
  end.

Fixpoint insert_newest (doc : gmap string Value) (docs : list (gmap string Value))
  : list (gmap string Value) :=
  match docs with
  | [] => [doc]
  | d :: ds =>
    if (created_at d <=? created_at doc)%Z then doc :: d :: ds
    else d :: insert_newest doc ds
  end.

Definition newest_first (docs : list (gmap string Value)) : list (gmap string Value) :=
  foldr insert_newest [] docs.

End MongoStorage.


(** * Properties

    ** Sequencing *)

Lemma bind_Return {W A B} (c : M W A) (k : A -> M W B) w a w' :
  c w = (Return a, w') -> bind c k w = k a w'.
Proof. intros H. unfold bind. now rewrite H. Qed.

Lemma bind_Raise {W A B} (c : M W A) (k : A -> M W B) w e w' :
  c w = (Raise e, w') -> bind c k w = (Raise e, w').
Proof. intros H. unfold bind. now rewrite H. Qed.

(** Inversion of a sequence that returned. *)
Lemma bind_inv_Return {W A B} (c : M W A) (k : A -> M W B) w b w2 :
  bind c k w = (Return b, w2) ->
  exists a w1, c w = (Return a, w1) /\ k a w1 = (Return b, w2).
Proof.
  unfold bind. destruct (c w) as [[a | e |] w1]; intros H; try discriminate.
  now exists a, w1.
Qed.

(** ** Equations between computations, pointwise *)

Lemma bind_ext {W A B} (c1 c2 : M W A) (k1 k2 : A -> M W B) w :
  (forall w, c1 w = c2 w) -> (forall a w, k1 a w = k2 a w) ->
  (c1 ≫= k1) w = (c2 ≫= k2) w.
Proof.
  intros Hc Hk. unfold mbind, M_bind, bind. rewrite Hc.
  destruct (c2 w) as [[a | e | ] w']; auto.
Qed.

Lemma bind_assoc {W A B C} (c : M W A) (k : A -> M W B) (h : B -> M W C) w :
  ((c ≫= k) ≫= h) w = (c ≫= (fun a => k a ≫= h)) w.
Proof. unfold mbind, M_bind, bind. now destruct (c w) as [[a | e | ] w']. Qed.

Lemma bind_ret_l {W A B} (a : A) (k : A -> M W B) w : (mret a ≫= k) w = k a w.
Proof. reflexivity. Qed.

Lemma bind_ret_r {W A} (c : M W A) w : (c ≫= mret) w = c w.
Proof. unfold mbind, M_bind, bind. now destruct (c w) as [[a | e | ] w']. Qed.

(** ** The metrics routines are their summaries *)

Lemma tally_app (a b : list (string * Py.num)) w :
  tally (a ++ b) w = (tally a;; tally b) w.
Proof.
  revert w. induction a as [ | [k v] a IH]; intros w; [reflexivity | ].
  cbn [app tally]. rewrite bind_assoc. apply bind_ext; auto.
Qed.

Lemma puts_app (a b : list (string * Py.num)) m : puts (a ++ b) m = puts b (puts a m).
Proof. apply foldl_app. Qed.

Section FieldsFacts.

Context {S : Type} (update : Field -> S -> S).

Lemma fold_fields_tally (fs : list Field) (s : S) w :
  fold_fields update fs s w =
  (tally (concat (map field_increments fs));;
   mret (foldl (fun s f => update f s) s fs)) w.
Proof.
  revert s w. induction fs as [ | f fs IH]; intros s w.
  - reflexivity.
  - cbn [fold_fields map concat foldl]. unfold fold_field.
    rewrite bind_assoc.
    transitivity ((tally (field_increments f);;
                   tally (concat (map field_increments fs));;
                   mret (foldl (fun s f => update f s) (update f s) fs)) w).
    + apply bind_ext; [reflexivity | intros [] w1].
      now rewrite bind_ret_l, IH.
    + symmetry. unfold mbind at 1, M_bind at 1.
      unfold bind at 1. rewrite tally_app.
      unfold mbind, M_bind, bind.
      destruct (tally (field_increments f) w) as [[[] | e | ] w1]; reflexivity.
Qed.

End FieldsFacts.

Lemma foldl_update_both fs am m :
  foldl (fun p f => update_both f p) (am, m) fs =
  (puts (concat (map field_increments fs)) am, foldl (fun m f => field_metrics f m) m fs).
Proof.
  revert am m. induction fs as [ | f fs IH]; intros am m; [reflexivity | ].
  cbn [foldl map concat]. unfold update_both at 2. cbn [fst snd].
  now rewrite IH, puts_app.
Qed.

Lemma foldl_update_message fs am :
  foldl (fun m f => update_message f m) am fs = puts (concat (map field_increments fs)) am.
Proof.
  revert am. induction fs as [ | f fs IH]; intros am; [reflexivity | ].
  cbn [foldl map concat]. unfold update_message at 2.
  now rewrite IH, puts_app.
Qed.

Ltac step_self_add :=
  cbn; unfold mbind, M_bind, bind; cbn;
  match goal with
  | |- context [self_add ?k ?v ?w] =>
      destruct (self_add k v w) as [[[] | ? | ] ?]; try reflexivity
  end.

(** One block of the source against [fold_field]. *)
Ltac block :=
  intros; unfold fold_field, update_both, update_message, field_increments, field_metrics;
  cbn;
  match goal with
  | |- context [match ?x with Some _ => _ | None => _ end] => destruct x
  end; repeat step_self_add; reflexivity.

Lemma update_usage_metrics_fields am m u w :
  update_usage_metrics am m (Some u) w =
  (self_append "response_times" (Metrics.response_timer m);;
   fold_fields update_both (usage_fields u)
     (Message.put "time" (Py.Num (Py.Float (Metrics.response_timer m))) am, m)) w.
Proof.
  unfold update_usage_metrics. apply bind_ext; [reflexivity | intros [] w1].
  cbn [fold_fields usage_fields].
  do 6 (apply bind_ext; [block | intros [? ?] ?]).
  rewrite bind_ret_r. block.
Qed.

(** [update_usage_metrics] in one line: the elapsed time is appended, the
    reported fields are added to the lifetime totals, and the message and the
    per-call metrics receive the same values. *)
Lemma update_usage_metrics_tally am m ou w :
  update_usage_metrics am m ou w =
  (self_append "response_times" (Metrics.response_timer m);;
   tally (usage_increments ou);;
   mret (puts (usage_increments ou)
           (Message.put "time" (Py.Num (Py.Float (Metrics.response_timer m))) am),
         usage_metrics ou m)) w.
Proof.
  destruct ou as [u | ].
  - rewrite update_usage_metrics_fields. apply bind_ext; [reflexivity | intros [] w1].
    rewrite fold_fields_tally. apply bind_ext; [reflexivity | intros [] w2].
    now rewrite foldl_update_both.
  - reflexivity.
Qed.

(** A reported field overwrites the attribute, an absent one leaves it. *)
Lemma usage_metrics_tokens u m :
  let m' := usage_metrics (Some u) m in
  Metrics.input_tokens m' = keep (Usage.prompt_tokens u) (Metrics.input_tokens m) /\
  Metrics.output_tokens m' = keep (Usage.completion_tokens u) (Metrics.output_tokens m) /\
  Metrics.total_tokens m' = keep (Usage.total_tokens u) (Metrics.total_tokens m) /\
  Metrics.prompt_tokens m' = keep (Usage.prompt_tokens u) (Metrics.prompt_tokens m) /\
  Metrics.completion_tokens m' =
    keep (Usage.completion_tokens u) (Metrics.completion_tokens m).
Proof.
  destruct u as [pt ct tt ctm ptm qtm ttm], m.
  destruct pt, ct, tt, ctm, ptm, qtm, ttm; cbv; auto.
Qed.

(** ** What [tally] does to the lifetime dict *)

Lemma self_add_inv k v w o w' :
  self_add k v w = (o, w') ->
  match o with
  | Return _ =>
      exists x, default (Py.Num (Py.Int 0)) (World.self_metrics w !! k) = Py.Num x /\
                w' = World.set_self_metrics
                       (<[k := Py.Num (Py.add x v)]> (World.self_metrics w)) w
  | Raise e => e = Py.TypeError /\ w' = w /\ ~ addable (World.self_metrics w) k
  | Starved => False
  end.
Proof.
  unfold self_add, Py.accumulate, addable.
  destruct (World.self_metrics w !! k) as [[x | xs] | ]; cbn; intros [= <- <-]; eauto.
Qed.

Lemma self_add_addable k v w :
  addable (World.self_metrics w) k ->
  exists x, default (Py.Num (Py.Int 0)) (World.self_metrics w !! k) = Py.Num x /\
            self_add k v w =
            (Return tt, World.set_self_metrics
                          (<[k := Py.Num (Py.add x v)]> (World.self_metrics w)) w).
Proof.
  unfold self_add, Py.accumulate, addable.
  destruct (World.self_metrics w !! k) as [[x | xs] | ]; cbn; intros H; try easy; eauto.
Qed.

Lemma self_append_inv k x w o w' :
  self_append k x w = (o, w') ->
  match o with
  | Return _ =>
      exists xs, default (Py.Floats []) (World.self_metrics w !! k) = Py.Floats xs /\
                 w' = World.set_self_metrics
                        (<[k := Py.Floats (xs ++ [x])]> (World.self_metrics w)) w
  | Raise e => e = Py.AttributeError /\ w' = w /\ ~ appendable (World.self_metrics w) k
  | Starved => False
  end.
Proof.
  unfold self_append, Py.setdefault_append, appendable.
  destruct (World.self_metrics w !! k) as [[n | xs] | ]; cbn; intros [= <- <-]; eauto.
Qed.

Lemma self_append_appendable k x w :
  appendable (World.self_metrics w) k ->
  exists xs, default (Py.Floats []) (World.self_metrics w !! k) = Py.Floats xs /\
             self_append k x w =
             (Return tt, World.set_self_metrics
                           (<[k := Py.Floats (xs ++ [x])]> (World.self_metrics w)) w).
Proof.
  unfold self_append, Py.setdefault_append, appendable.
  destruct (World.self_metrics w !! k) as [[n | xs] | ]; cbn; intros H; try easy; eauto.
Qed.

Lemma only_metrics_differ_refl w : only_metrics_differ w w.
Proof. now destruct w. Qed.

Lemma only_metrics_differ_trans w1 w2 w3 :
  only_metrics_differ w1 w2 -> only_metrics_differ w2 w3 -> only_metrics_differ w1 w3.
Proof. unfold only_metrics_differ. intros -> ->. reflexivity. Qed.

Lemma only_metrics_differ_set d w : only_metrics_differ w (World.set_self_metrics d w).
Proof. reflexivity. Qed.

Lemma only_metrics_differ_fields w w' :
  only_metrics_differ w w' ->
  World.messages w' = World.messages w /\ World.vendor w' = World.vendor w /\
  World.sent w' = World.sent w /\ World.yielded w' = World.yielded w /\
  World.logged w' = World.logged w.
Proof. unfold only_metrics_differ. now intros ->. Qed.

Lemma self_add_frame k v w o w' : self_add k v w = (o, w') -> only_metrics_differ w w'.
Proof.
  intros H. apply self_add_inv in H. destruct o as [[] | e | ].
  - destruct H as (x & _ & ->). apply only_metrics_differ_set.
  - destruct H as (_ & -> & _). apply only_metrics_differ_refl.
  - easy.
Qed.

Lemma self_append_frame k x w o w' : self_append k x w = (o, w') -> only_metrics_differ w w'.
Proof.
  intros H. apply self_append_inv in H. destruct o as [[] | e | ].
  - destruct H as (xs & _ & ->). apply only_metrics_differ_set.
  - destruct H as (_ & -> & _). apply only_metrics_differ_refl.
  - easy.
Qed.

Lemma tally_frame incs w o w' : tally incs w = (o, w') -> only_metrics_differ w w'.
Proof.
  revert w. induction incs as [ | [k v] incs IH]; intros w.
  - intros [= <- <-]. apply only_metrics_differ_refl.
  - cbn [tally]. unfold mbind, M_bind, bind.
    destruct (self_add k v w) as [[[] | e | ] w1] eqn:E; intros H.
    + eapply only_metrics_differ_trans; [eapply self_add_frame; eauto | eauto].
    + injection H as <- <-. eapply self_add_frame; eauto.
    + injection H as <- <-. eapply self_add_frame; eauto.
Qed.

Lemma bumped_cons o x v vs :
  default (Py.Num (Py.Int 0)) o = Py.Num x ->
  bumped (Some (Py.Num (Py.add x v))) vs = bumped o (v :: vs).
Proof. intros H. unfold bumped. rewrite H. now destruct vs. Qed.

Lemma increments_for_cons_eq k v incs :
  increments_for k ((k, v) :: incs) = v :: increments_for k incs.
Proof. unfold increments_for. cbn. now rewrite String.eqb_refl. Qed.

Lemma increments_for_cons_ne k k1 v incs :
  k1 ≠ k -> increments_for k ((k1, v) :: incs) = increments_for k incs.
Proof.
  intros Hne. unfold increments_for. cbn.
  now destruct (String.eqb_spec k1 k).
Qed.

Lemma increments_for_app k a b :
  increments_for k (a ++ b) = increments_for k a ++ increments_for k b.
Proof.
  induction a as [ | [k1 v] a IH]; [reflexivity | ].
  destruct (decide (k1 = k)) as [-> | Hne]; cbn [app].
  - rewrite !increments_for_cons_eq. cbn. now rewrite IH.
  - now rewrite !increments_for_cons_ne.
Qed.

(** After a tally that returned, the entry under [k] is the old one with the
    increments for [k] added in order; keys without increments are untouched. *)
Lemma tally_lookup incs k w w' :
  tally incs w = (Return tt, w') ->
  World.self_metrics w' !! k = bumped (World.self_metrics w !! k) (increments_for k incs).
Proof.
  revert w. induction incs as [ | [k1 v] incs IH]; intros w.
  - now intros [= <-].
  - cbn [tally]. unfold mbind, M_bind, bind.
    destruct (self_add k1 v w) as [[[] | e | ] w1] eqn:E; intros H; try discriminate.
    apply self_add_inv in E. destruct E as (x & Hx & ->).
    rewrite (IH _ H). cbn [World.self_metrics World.set_self_metrics].
    destruct (decide (k1 = k)) as [-> | Hne].
    + rewrite lookup_insert_eq, increments_for_cons_eq. now apply bumped_cons.
    + now rewrite lookup_insert_ne, increments_for_cons_ne.
Qed.

Lemma addable_insert_num d k k' n : addable d k -> addable (<[k' := Py.Num n]> d) k.
Proof.
  unfold addable. destruct (decide (k' = k)) as [-> | Hne].
  - now rewrite lookup_insert_eq.
  - now rewrite lookup_insert_ne.
Qed.

Lemma appendable_insert_ne d k k' v : k' ≠ k -> appendable d k -> appendable (<[k' := v]> d) k.
Proof. unfold appendable. intros Hne. now rewrite lookup_insert_ne. Qed.

(** A tally returns as soon as every key it adds to is addable. *)
Lemma tally_returns incs w :
  Forall (fun kv => addable (World.self_metrics w) kv.1) incs ->
  exists w', tally incs w = (Return tt, w').
Proof.
  revert w. induction incs as [ | [k v] incs IH]; intros w Hall.
  - now exists w.
  - inversion Hall as [ | ? ? Hk Hrest]; subst. cbn [fst] in Hk.
    destruct (self_add_addable k v w Hk) as (x & _ & E).
    cbn [tally]. unfold mbind, M_bind, bind. rewrite E.
    apply IH. cbn. eapply Forall_impl; [exact Hrest | ].
    intros [k2 v2] H2. now apply addable_insert_num.
Qed.

(** ** The streaming routine, summarised the same way *)

Lemma update_stream_metrics_fields am m w :
  update_stream_metrics am m w =
  (self_append "response_times" (Metrics.response_timer m);;
   am ← first_token_block m
          (Message.put "time" (Py.Num (Py.Float (Metrics.response_timer m))) am);
   fold_fields update_message (metrics_fields m) am) w.
Proof.
  unfold update_stream_metrics. apply bind_ext; [reflexivity | intros [] w1].
  apply bind_ext; [reflexivity | intros am1 w2].
  cbn [fold_fields metrics_fields].
  do 8 (apply bind_ext; [block | intros ? ?]).
  rewrite bind_ret_r. block.
Qed.

Lemma update_stream_metrics_tally am m w :
  update_stream_metrics am m w =
  (self_append "response_times" (Metrics.response_timer m);;
   am ← first_token_block m
          (Message.put "time" (Py.Num (Py.Float (Metrics.response_timer m))) am);
   tally (metrics_increments m);;
   mret (puts (metrics_increments m) am)) w.
Proof.
  rewrite update_stream_metrics_fields.
  apply bind_ext; [reflexivity | intros [] w1].
  apply bind_ext; [reflexivity | intros am1 w2].
  rewrite fold_fields_tally. apply bind_ext; [reflexivity | intros [] w3].
  now rewrite foldl_update_message.
Qed.

Lemma usage_increments_for c u :
  increments_for (Counter.key c) (usage_increments (Some u)) =
  option_list (Counter.of_usage c u).
Proof.
  destruct u as [pt ct tt ctm ptm qtm ttm].
  destruct c, pt, ct, tt, ctm, ptm, qtm, ttm; reflexivity.
Qed.

Lemma metrics_increments_for c m :
  increments_for (Counter.key c) (metrics_increments m) =
  option_list (Counter.of_metrics c m).
Proof.
  destruct m as [a b c' d e f g h i j k].
  destruct c, a, b, c', d, e, h, i, j, k; reflexivity.
Qed.

(** ** One model call, non-streaming *)

Lemma mbind_inv_Return {W A B} (c : M W A) (k : A -> M W B) w b w2 :
  (c ≫= k) w = (Return b, w2) ->
  exists a w1, c w = (Return a, w1) /\ k a w1 = (Return b, w2).
Proof. apply bind_inv_Return. Qed.

Lemma mbind_Return {W A B} (c : M W A) (k : A -> M W B) w a w1 :
  c w = (Return a, w1) -> (c ≫= k) w = k a w1.
Proof. apply bind_Return. Qed.

Lemma mbind_Raise {W A B} (c : M W A) (k : A -> M W B) w e w1 :
  c w = (Raise e, w1) -> (c ≫= k) w = (Raise e, w1).
Proof. apply bind_Raise. Qed.

(** [Metrics.log] returns exactly on loggable metrics, and then it has added
    them to the log; otherwise it raises and leaves the world as it is. *)
Lemma log_Return m w w' :
  log m w = (Return tt, w') <->
  loggable m /\ w' = World.set_logged (World.logged w ++ [m]) w.
Proof.
  unfold log, loggable, raise, modify.
  destruct (Metrics.output_tokens m) as [o | ].
  - destruct (Z.eqb_spec (Qnum (Metrics.response_timer m)) 0) as [E | E]; split.
    + intros [=].
    + intros [[_ H] _]. contradiction.
    + intros [= <-]. eauto.
    + now intros [_ ->].
  - split; [intros [=] | intros [[[? [=]] _] _]].
Qed.

Lemma log_outcome m w :
  (loggable m /\ log m w = (Return tt, World.set_logged (World.logged w ++ [m]) w)) \/
  (~ loggable m /\
   log m w = (Raise (match Metrics.output_tokens m with
                     | None => Py.TypeError
                     | Some _ => Py.ZeroDivisionError
                     end), w)).
Proof.
  unfold log, loggable, raise, modify.
  destruct (Metrics.output_tokens m) as [o | ].
  - destruct (Z.eqb_spec (Qnum (Metrics.response_timer m)) 0) as [E | E].
    + right. split; [now intros [_ H] | reflexivity].
    + left. eauto.
  - right. split; [now intros [[? [=]] _] | reflexivity].
Qed.

Section CallsFacts.

Context (base : Collaborators) (self : Groq.t).

(** [invoke] returns exactly when the vendor completes, [invoke_stream]
    exactly when it streams; both raise exactly when the vendor fails, and
    then nothing but the request log and the script has moved. *)
Lemma invoke_Return w elapsed c w1 :
  invoke self w = (Return (elapsed, c), w1) <->
  exists rest, World.vendor w = Completes elapsed c :: rest /\ w1 = requested self false rest w.
Proof.
  unfold invoke, requested, mbind, M_bind, bind, get, modify. cbn.
  destruct (World.vendor w) as [ | [sc msg | el c' | chunks el] rest]; cbn; split;
    try (intros [= <- <- <-]; eauto); try (intros (rest' & [= <- <- <-] & ->); eauto);
    try (intros [=]); try (intros (rest' & [=] & _)).
Qed.

Lemma invoke_Raise w e w1 :
  invoke self w = (Raise e, w1) <->
  exists status_code message rest,
    World.vendor w = Fails status_code message :: rest /\
    e = Py.APIStatusError status_code message /\ w1 = requested self false rest w.
Proof.
  unfold invoke, requested, mbind, M_bind, bind, get, modify. cbn.
  destruct (World.vendor w) as [ | [sc msg | el c' | chunks el] rest]; cbn; split;
    try (intros [= <- <-]; eauto 6);
    try (intros (sc' & msg' & rest' & [= <- <- <-] & -> & ->); eauto);
    try (intros [=]); try (intros (? & ? & ? & [=] & _)).
Qed.

Lemma invoke_stream_Return w chunks elapsed w1 :
  invoke_stream self w = (Return (chunks, elapsed), w1) <->
  exists rest, World.vendor w = Streams chunks elapsed :: rest /\ w1 = requested self true rest w.
Proof.
  unfold invoke_stream, requested, mbind, M_bind, bind, get, modify. cbn.
  destruct (World.vendor w) as [ | [sc msg | el c' | chunks' el] rest]; cbn; split;
    try (intros [= <- <- <-]; eauto); try (intros (rest' & [= <- <- <-] & ->); eauto);
    try (intros [=]); try (intros (rest' & [=] & _)).
Qed.

Lemma invoke_stream_Raise w e w1 :
  invoke_stream self w = (Raise e, w1) <->
  exists status_code message rest,
    World.vendor w = Fails status_code message :: rest /\
    e = Py.APIStatusError status_code message /\ w1 = requested self true rest w.
Proof.
  unfold invoke_stream, requested, mbind, M_bind, bind, get, modify. cbn.
  destruct (World.vendor w) as [ | [sc msg | el c' | chunks el] rest]; cbn; split;
    try (intros [= <- <-]; eauto 6);
    try (intros (sc' & msg' & rest' & [= <- <- <-] & -> & ->); eauto);
    try (intros [=]); try (intros (? & ? & ? & [=] & _)).
Qed.

Lemma create_assistant_message_draft rm m ou :
  create_assistant_message base rm m ou = update_usage_metrics (draft_message base rm) m ou.
Proof. reflexivity. Qed.

(** Everything a [model_call] that returned has done. *)
Lemma model_call_Return w am mr w' :
  model_call base self w = (Return (am, mr), w') <->
  exists elapsed c rest rm w1 w2,
    World.vendor w = Completes elapsed c :: rest /\
    head (ChatCompletion.choices c) = Some rm /\
    self_append "response_times" elapsed (requested self false rest w) = (Return tt, w1) /\
    tally (usage_increments (ChatCompletion.usage c)) w1 = (Return tt, w2) /\
    loggable (call_metrics base elapsed (ChatCompletion.usage c)) /\
    am = call_message base elapsed rm (ChatCompletion.usage c) /\
    mr = response_of base am /\
    w' = World.set_logged
           (World.logged w ++ [call_metrics base elapsed (ChatCompletion.usage c)])
           (World.set_messages (World.messages w ++ [am]) w2).
Proof.
  unfold model_call. split.
  - intros H.
    apply mbind_inv_Return in H as ([elapsed c] & wa & Hinv & H).
    apply invoke_Return in Hinv as (rest & Hv & ->).
    apply mbind_inv_Return in H as (rm & wb & Hfirst & H).
    destruct (ChatCompletion.choices c) as [ | rm' rms] eqn:Hc; [discriminate | ].
    injection Hfirst as <- <-.
    apply mbind_inv_Return in H as ([am1 m1] & wc & Hcreate & H).
    rewrite create_assistant_message_draft, update_usage_metrics_tally in Hcreate.
    apply mbind_inv_Return in Hcreate as ([] & w1 & Happ & Hcreate).
    apply mbind_inv_Return in Hcreate as ([] & w2 & Htally & Hcreate).
    injection Hcreate as <- <- <-.
    apply mbind_inv_Return in H as ([] & wd & Happend & H).
    injection Happend as <-.
    apply mbind_inv_Return in H as ([] & we & Hlog & H).
    apply log_Return in Hlog as [Hlg ->].
    injection H as <- <- <-.
    cbn [Metrics.response_timer Metrics.set_response_timer] in Happ.
    pose proof (only_metrics_differ_trans _ _ _
                  (self_append_frame _ _ _ _ _ Happ) (tally_frame _ _ _ _ Htally)) as Hfr.
    apply only_metrics_differ_fields in Hfr as (Hm & _ & _ & _ & Hl).
    cbn in Hm, Hl.
    cbn [World.logged World.messages World.set_messages World.set_logged].
    rewrite Hm, Hl.
    exists elapsed, c, rest, rm', w1, w2. rewrite Hc. auto 10.
  - intros (elapsed & c & rest & rm & w1 & w2 &
            Hv & Hrm & Happ & Htally & Hlg & -> & -> & ->).
    erewrite mbind_Return by (apply invoke_Return; eauto).
    cbv beta iota.
    destruct (ChatCompletion.choices c) as [ | rm' rms]; [discriminate | ].
    injection Hrm as ->. cbn [first]. rewrite bind_ret_l.
    erewrite mbind_Return; [ | ].
    2:{
    rewrite create_assistant_message_draft, update_usage_metrics_tally.
    erewrite mbind_Return by exact Happ.
    erewrite mbind_Return by exact Htally.
    reflexivity. }
    pose proof (only_metrics_differ_trans _ _ _
                  (self_append_frame _ _ _ _ _ Happ) (tally_frame _ _ _ _ Htally)) as Hfr.
    apply only_metrics_differ_fields in Hfr as (Hm & _ & _ & _ & Hl).
    cbn in Hm, Hl. cbv beta iota.
    erewrite mbind_Return by reflexivity.
    erewrite mbind_Return by (apply log_Return; split; [exact Hlg | reflexivity]).
    unfold mret, M_ret, ret.
    cbn [World.logged World.messages World.set_messages World.set_logged
         Metrics.response_timer Metrics.set_response_timer].
    now rewrite Hm, Hl.
Qed.

End CallsFacts.

(** ** One model call, streaming *)

Lemma yields_nil w : yields [] w = w.
Proof. unfold yields. cbn. rewrite app_nil_r. now destruct w. Qed.

Lemma append_empty_r (s : string) : s +:+ "" = s.
Proof.
  induction s as [ | a s IH]; [reflexivity | ].
  change (String a (s +:+ "") = String a s). now rewrite IH.
Qed.

Ltac on_chunk_choice m content w :=
  destruct (Metrics.completion_tokens m) as [n | ]; cbn;
  [ unfold mbind, M_bind, bind, mret, M_ret, ret, yield, modify, yields; cbn;
    destruct content as [s | ]; cbn;
    [ split; [intros [= <- <- <-] | intros ([= <-] & -> & ->)]; auto
    | rewrite append_empty_r, app_nil_r; destruct w; cbn;
      split; [intros [= <- <- <-] | intros ([= <-] & -> & ->)]; auto ]
  | unfold mbind, M_bind, bind, raise; cbn; split; [intros [=] | intros ([=] & _)] ].

Lemma on_chunk_Return now c sd m sd' m' w w' :
  on_chunk now c sd m w = (Return (sd', m'), w') <->
  chunk_metrics now c m = Some m' /\ sd' = chunk_data c sd /\
  w' = yields (option_list (content_of c)) w.
Proof.
  unfold on_chunk, chunk_metrics, chunk_data, content_of, delta_of.
  destruct sd as [rc rtc].
  destruct c as [[ | [content [tcs | ]] choices] usage]; cbn.
  - rewrite yields_nil. unfold mbind, M_bind, bind, mret, M_ret, ret; cbn.
    split; [intros [= <- <- <-] | intros ([= <-] & -> & ->)]; auto.
  - on_chunk_choice m content w.
  - on_chunk_choice m content w.
Qed.

Lemma consume_Return chunks sd m sd' m' w w' :
  consume chunks sd m w = (Return (sd', m'), w') <->
  metrics_after chunks m = Some m' /\ sd' = data_after chunks sd /\
  w' = yields (contents chunks) w.
Proof.
  revert sd m w. induction chunks as [ | [now c] chunks IH]; intros sd m w.
  - cbn. rewrite yields_nil. split; [intros [= <- <- <-] | intros ([= <-] & -> & ->)]; auto.
  - cbn [consume metrics_after]. split.
    + intros H. apply mbind_inv_Return in H as ([sd1 m1] & w1 & H1 & H).
      apply on_chunk_Return in H1 as (Hm1 & -> & ->).
      apply IH in H as (Hm & -> & ->). rewrite Hm1. cbn. split; [exact Hm | ].
      split; [reflexivity | ].
      unfold contents, yields. cbn. destruct (content_of c); cbn.
      * now rewrite <- app_assoc.
      * rewrite app_nil_r. now destruct w.
    + intros (Hm & -> & ->).
      destruct (chunk_metrics now c m) as [m1 | ] eqn:Hm1; [ | discriminate].
      cbn in Hm.
      erewrite mbind_Return by (apply on_chunk_Return; eauto).
      apply IH. split; [exact Hm | ]. split; [reflexivity | ].
      unfold contents, yields. cbn. destruct (content_of c); cbn.
      * now rewrite <- app_assoc.
      * rewrite app_nil_r. now destruct w.
Qed.

Lemma append_assoc (a b c : string) : (a +:+ b) +:+ c = a +:+ (b +:+ c).
Proof.
  induction a as [ | x a IH]; [reflexivity | ].
  change (String x ((a +:+ b) +:+ c) = String x (a +:+ (b +:+ c))). now rewrite IH.
Qed.

Lemma data_after_content chunks sd :
  StreamData.response_content (data_after chunks sd) =
  StreamData.response_content sd +:+ join (contents chunks).
Proof.
  revert sd. induction chunks as [ | [now c] chunks IH]; intros sd.
  - cbn. now rewrite append_empty_r.
  - unfold data_after, contents in *. cbn [foldl omap list_omap snd].
    rewrite IH. unfold chunk_data, content_of.
    destruct (delta_of c) as [[content tcs] | ]; cbn; [ | reflexivity].
    destruct content as [s | ]; cbn.
    + now rewrite append_assoc.
    + now rewrite append_empty_r.
Qed.

Lemma puts_content incs m : Message.content (puts incs m) = Message.content m.
Proof.
  unfold puts. revert m. induction incs as [ | kv incs IH]; intros m; [reflexivity | ].
  cbn [foldl]. now rewrite IH.
Qed.

Lemma puts_tool_calls incs m : Message.tool_calls (puts incs m) = Message.tool_calls m.
Proof.
  unfold puts. revert m. induction incs as [ | kv incs IH]; intros m; [reflexivity | ].
  cbn [foldl]. now rewrite IH.
Qed.

Lemma puts_role incs m : Message.role (puts incs m) = Message.role m.
Proof.
  unfold puts. revert m. induction incs as [ | kv incs IH]; intros m; [reflexivity | ].
  cbn [foldl]. now rewrite IH.
Qed.

Lemma first_token_block_inv m am o w w' :
  first_token_block m am w = (o, w') ->
  only_metrics_differ w w' /\
  (forall k, k ≠ "time_to_first_token" ->
             World.self_metrics w' !! k = World.self_metrics w !! k) /\
  match o with
  | Return am' =>
      Message.content am' = Message.content am /\
      Message.tool_calls am' = Message.tool_calls am /\
      Message.role am' = Message.role am
  | Raise e => True
  | Starved => False
  end.
Proof.
  unfold first_token_block.
  destruct (Metrics.time_to_first_token m) as [t | ].
  - unfold mbind, M_bind, bind.
    destruct (self_append "time_to_first_token" t w) as [[[] | e | ] w1] eqn:E;
      intros [= <- <-]; pose proof (self_append_frame _ _ _ _ _ E) as Hfr;
      apply self_append_inv in E.
    + destruct E as (xs & _ & ->). repeat split; auto.
      intros k Hk. cbn. now rewrite lookup_insert_ne.
    + destruct E as (_ & -> & _). repeat split; auto.
    + easy.
  - intros [= <- <-]. repeat split; auto using only_metrics_differ_refl.
Qed.

Section StreamCallsFacts.

Context (base : Collaborators) (self : Groq.t).

(** Everything a [stream_call] that returned has done. *)
Lemma stream_call_Return w am w' :
  stream_call base self w = (Return am, w') <->
  exists chunks elapsed rest m w1 am1 w2 w3,
    World.vendor w = Streams chunks elapsed :: rest /\
    stream_metrics base chunks elapsed = Some m /\
    self_append "response_times" elapsed
      (yields (contents chunks) (requested self true rest w)) = (Return tt, w1) /\
    first_token_block m
      (Message.put "time" (Py.Num (Py.Float elapsed))
         (assemble base (data_after chunks StreamData.new))) w1 = (Return am1, w2) /\
    tally (metrics_increments m) w2 = (Return tt, w3) /\
    loggable m /\
    am = puts (metrics_increments m) am1 /\
    w' = World.set_logged (World.logged w ++ [m])
           (World.set_messages (World.messages w ++ [am]) w3).
Proof.
  unfold stream_call, stream_metrics. split.
  - intros H.
    apply mbind_inv_Return in H as ([chunks elapsed] & wa & Hinv & H).
    apply invoke_stream_Return in Hinv as (rest & Hv & ->).
    apply mbind_inv_Return in H as ([sd m] & wb & Hcons & H).
    apply consume_Return in Hcons as (Hm & -> & ->).
    apply mbind_inv_Return in H as (am2 & wc & Hup & H).
    rewrite update_stream_metrics_tally in Hup.
    cbn [Metrics.response_timer Metrics.set_response_timer] in Hup.
    apply mbind_inv_Return in Hup as ([] & w1 & Happ & Hup).
    apply mbind_inv_Return in Hup as (am1 & w2 & Hft & Hup).
    apply mbind_inv_Return in Hup as ([] & w3 & Htally & Hup).
    injection Hup as <- <-.
    apply mbind_inv_Return in H as ([] & wd & Happend & H).
    injection Happend as <-.
    apply mbind_inv_Return in H as ([] & we & Hlog & H).
    apply log_Return in Hlog as [Hlg ->].
    injection H as <- <-.
    pose proof (self_append_frame _ _ _ _ _ Happ) as F1.
    pose proof (proj1 (first_token_block_inv _ _ _ _ _ Hft)) as F2.
    pose proof (tally_frame _ _ _ _ Htally) as F3.
    pose proof (only_metrics_differ_trans _ _ _ (only_metrics_differ_trans _ _ _ F1 F2) F3)
      as Hfr.
    apply only_metrics_differ_fields in Hfr as (Hmsg & _ & _ & _ & Hl).
    cbn in Hmsg, Hl.
    cbn [World.logged World.messages World.set_messages World.set_logged].
    rewrite Hmsg, Hl.
    exists chunks, elapsed, rest, (Metrics.set_response_timer elapsed m), w1, am1, w2, w3.
    rewrite Hm. auto 10.
  - intros (chunks & elapsed & rest & m & w1 & am1 & w2 & w3 &
            Hv & Hm & Happ & Hft & Htally & Hlg & -> & ->).
    destruct (metrics_after chunks (Metrics_new base)) as [m0 | ] eqn:Hm0; [ | discriminate].
    injection Hm as <-.
    erewrite mbind_Return by (apply invoke_stream_Return; eauto).
    cbv beta iota.
    erewrite mbind_Return by (apply consume_Return; eauto).
    cbv beta iota.
    erewrite mbind_Return; [ | ].
    2:{ rewrite update_stream_metrics_tally.
        cbn [Metrics.response_timer Metrics.set_response_timer].
        erewrite mbind_Return by exact Happ.
        erewrite mbind_Return by exact Hft.
        erewrite mbind_Return by exact Htally.
        reflexivity. }
    pose proof (self_append_frame _ _ _ _ _ Happ) as F1.
    pose proof (proj1 (first_token_block_inv _ _ _ _ _ Hft)) as F2.
    pose proof (tally_frame _ _ _ _ Htally) as F3.
    pose proof (only_metrics_differ_trans _ _ _ (only_metrics_differ_trans _ _ _ F1 F2) F3)
      as Hfr.
    apply only_metrics_differ_fields in Hfr as (Hmsg & _ & _ & _ & Hl).
    cbn in Hmsg, Hl.
    erewrite mbind_Return by reflexivity.
    erewrite mbind_Return by (apply log_Return; split; [exact Hlg | reflexivity]).
    unfold mret, M_ret, ret.
    cbn [World.logged World.messages World.set_messages World.set_logged].
    now rewrite Hmsg, Hl.
Qed.

End StreamCallsFacts.

(** ** The three-chunk stream of the examples *)

Section ExampleFacts.

Import Example.

Example hello_world_yields :
  World.yielded after_hello_world =
  [ModelResponse.of_content "Hello"; ModelResponse.of_content " world"].
Proof. vm_compute. reflexivity. Qed.

Example hello_world_message :
  (fun m => (Message.role m, Message.content m, Message.metrics m !! "total_tokens"))
    <$> last (World.messages after_hello_world) =
  Some ("assistant", Some "Hello world", Some (Py.Num (Py.Int 7))).
Proof. vm_compute. reflexivity. Qed.

End ExampleFacts.

(** ** What one model call does, as seen from outside *)

Lemma usage_metrics_counter c u m :
  Counter.of_metrics c (usage_metrics (Some u) m) =
  keep (Counter.of_usage c u) (Counter.of_metrics c m).
Proof.
  destruct u as [pt ct tt ctm ptm qtm ttm], m.
  destruct c, pt, ct, tt, ctm, ptm, qtm, ttm; reflexivity.
Qed.

Lemma counter_key_not_list c :
  Counter.key c ≠ "response_times" /\ Counter.key c ≠ "time_to_first_token".
Proof. destruct c; split; discriminate. Qed.

Lemma self_append_lookup_ne k x w w' k' :
  self_append k x w = (Return tt, w') -> k' ≠ k ->
  World.self_metrics w' !! k' = World.self_metrics w !! k'.
Proof.
  intros H Hne. apply self_append_inv in H as (xs & _ & ->). cbn.
  now rewrite lookup_insert_ne.
Qed.

Section Effects.

Context (base : Collaborators) (self : Groq.t).

(** A non-streaming call that returned: one reply consumed, one request
    sent with the conversation as it stood, one assistant message appended,
    one per-call metrics logged, nothing yielded; each counter's lifetime
    entry has grown by the vendor's value, or is untouched when the vendor
    gave none. *)
Lemma model_call_effect w am mr w' :
  model_call base self w = (Return (am, mr), w') ->
  exists elapsed c rest rm,
    World.vendor w = Completes elapsed c :: rest /\
    head (ChatCompletion.choices c) = Some rm /\
    am = call_message base elapsed rm (ChatCompletion.usage c) /\
    mr = response_of base am /\
    World.vendor w' = rest /\
    World.sent w' =
      World.sent w ++ [Build_Request (Groq.id self) (World.messages w) false] /\
    World.messages w' = World.messages w ++ [am] /\
    World.logged w' = World.logged w ++ [call_metrics base elapsed (ChatCompletion.usage c)] /\
    World.yielded w' = World.yielded w /\
    forall k,
      World.self_metrics w' !! Counter.key k =
      bumped (World.self_metrics w !! Counter.key k)
             (option_list (reported_value k (ChatCompletion.usage c))).
Proof.
  intros H. apply model_call_Return in H
    as (elapsed & c & rest & rm & w1 & w2 & Hv & Hrm & Happ & Htally & _ & -> & -> & ->).
  exists elapsed, c, rest, rm.
  pose proof (only_metrics_differ_trans _ _ _
                (self_append_frame _ _ _ _ _ Happ) (tally_frame _ _ _ _ Htally)) as Hfr.
  apply only_metrics_differ_fields in Hfr as (Hm & Hven & Hs & Hy & Hl).
  cbn in Hm, Hven, Hs, Hy, Hl. cbn.
  rewrite Hven, Hs, Hy. repeat (split; [auto; fail | ]).
  intros k. rewrite (tally_lookup _ (Counter.key k) _ _ Htally).
  rewrite (self_append_lookup_ne _ _ _ _ _ Happ (proj1 (counter_key_not_list k))).
  unfold requested. cbn [World.self_metrics World.set_vendor World.set_sent].
  destruct (ChatCompletion.usage c) as [u | ].
  - now rewrite usage_increments_for.
  - reflexivity.
Qed.

(** A streamed call that returned: the same, with the content fragments
    yielded in the vendor's order, and each counter's lifetime entry grown by
    what the per-call metrics hold for it at the end of the stream. *)
Lemma stream_call_effect w am w' :
  stream_call base self w = (Return am, w') ->
  exists chunks elapsed rest m,
    World.vendor w = Streams chunks elapsed :: rest /\
    stream_metrics base chunks elapsed = Some m /\
    Message.role am = "assistant" /\
    Message.content am = Message.content (assemble base (data_after chunks StreamData.new)) /\
    Message.tool_calls am =
      Message.tool_calls (assemble base (data_after chunks StreamData.new)) /\
    World.vendor w' = rest /\
    World.sent w' =
      World.sent w ++ [Build_Request (Groq.id self) (World.messages w) true] /\
    World.messages w' = World.messages w ++ [am] /\
    World.logged w' = World.logged w ++ [m] /\
    World.yielded w' =
      World.yielded w ++ map ModelResponse.of_content (contents chunks) /\
    forall k,
      World.self_metrics w' !! Counter.key k =
      bumped (World.self_metrics w !! Counter.key k)
             (option_list (Counter.of_metrics k m)).
Proof.
  intros H. apply stream_call_Return in H
    as (chunks & elapsed & rest & m & w1 & am1 & w2 & w3 &
        Hv & Hm & Happ & Hft & Htally & _ & -> & ->).
  exists chunks, elapsed, rest, m.
  pose proof (self_append_frame _ _ _ _ _ Happ) as F1.
  pose proof (first_token_block_inv _ _ _ _ _ Hft) as (F2 & Hother & Hc & Htc & Hr).
  pose proof (tally_frame _ _ _ _ Htally) as F3.
  pose proof (only_metrics_differ_trans _ _ _ (only_metrics_differ_trans _ _ _ F1 F2) F3)
    as Hfr.
  apply only_metrics_differ_fields in Hfr as (Hmsg & Hven & Hs & Hy & Hl).
  cbn in Hmsg, Hven, Hs, Hy, Hl.
  cbn [World.vendor World.sent World.messages World.logged World.yielded
       World.self_metrics World.set_logged World.set_messages].
  rewrite puts_role, puts_content, puts_tool_calls, Hr, Hc, Htc, Hven, Hs, Hy.
  split; [assumption | ]. split; [assumption | ].
  split.
  { cbn. unfold assemble.
    destruct (String.eqb _ _), (StreamData.response_tool_calls _) as [fr | ];
      try destruct (_build_tool_calls base fr); reflexivity. }
  repeat (split; [auto; fail | ]).
  intros k. rewrite (tally_lookup _ (Counter.key k) _ _ Htally).
  rewrite (Hother _ (proj2 (counter_key_not_list k))).
  rewrite (self_append_lookup_ne _ _ _ _ _ Happ (proj1 (counter_key_not_list k))).
  unfold requested, yields.
  cbn [World.self_metrics World.set_vendor World.set_sent World.set_yielded].
  now rewrite metrics_increments_for.
Qed.

End Effects.

(** ** Whole calls: rounds of model calls and tool dispatch *)

(** A relation between worlds that every round and every dispatch respect,
    and that composes, holds across the whole call. *)
Lemma rounds_preserve round dispatch (P : World.t -> World.t -> Prop) :
  (forall w am w', round w am w' -> P w w') ->
  (forall am w, P w (dispatch am w)) ->
  (forall w1 w2 w3, P w1 w2 -> P w2 w3 -> P w1 w3) ->
  forall w ams w', rounds round dispatch w ams w' -> P w w'.
Proof.
  intros Hround Hdisp Htrans w ams w' H.
  induction H as [w am w' Hr _ | w am w1 ams w' Hr _ _ IH]; eauto.
Qed.

(** Only the last assistant message of a call is free of tool calls. *)
Lemma rounds_tool_calls round dispatch w ams w' :
  rounds round dispatch w ams w' ->
  exists earlier final,
    ams = earlier ++ [final] /\
    Forall (fun am => carries_tool_calls am = true) earlier /\
    carries_tool_calls final = false.
Proof.
  induction 1 as [w am w' _ Hno | w am w1 ams w' _ Hyes _ (earlier & final & -> & Hall & Hno)].
  - exists [], am. auto.
  - exists (am :: earlier), final. auto.
Qed.

Section RunsFacts.

Context (base : Collaborators) (self : Groq.t).

Lemma response_S fuel w :
  response base self (S fuel) w =
  match model_call base self w with
  | (Return (am, mr), w1) =>
      if carries_tool_calls am
      then response base self fuel (model_dispatch base am w1)
      else (Return mr, w1)
  | (Raise e, w1) => (Raise e, w1)
  | (Starved, w1) => (Starved, w1)
  end.
Proof.
  cbn [response]. unfold mbind at 1, M_bind at 1, bind at 1.
  destruct (model_call base self w) as [[[am mr] | e | ] w1]; try reflexivity.
  unfold handle_tool_calls, carries_tool_calls, model_dispatch, dispatched,
    handle_post_tool_call_messages.
  destruct (Message.tool_calls am) as [[ | t ts] | ]; reflexivity.
Qed.

Lemma response_stream_S fuel w :
  response_stream base self (S fuel) w =
  match stream_call base self w with
  | (Return am, w1) =>
      if carries_tool_calls am
      then response_stream base self fuel (stream_dispatch base am w1)
      else (Return tt, w1)
  | (Raise e, w1) => (Raise e, w1)
  | (Starved, w1) => (Starved, w1)
  end.
Proof.
  cbn [response_stream]. unfold mbind at 1, M_bind at 1, bind at 1.
  destruct (stream_call base self w) as [[am | e | ] w1]; try reflexivity.
  unfold handle_stream_tool_calls, carries_tool_calls, stream_dispatch, dispatched,
    handle_post_tool_call_messages_stream.
  destruct (Message.tool_calls am) as [[ | t ts] | ]; reflexivity.
Qed.

(** A call that returned went through rounds, at most [fuel] of them, and
    returned the response built from the last assistant message. *)
Lemma response_rounds fuel w r w' :
  response base self fuel w = (Return r, w') ->
  exists ams final,
    rounds (model_round base self) (model_dispatch base) w ams w' /\
    length ams <= fuel /\ last ams = Some final /\ r = response_of base final.
Proof.
  revert w. induction fuel as [ | fuel IH]; intros w; [discriminate | ].
  rewrite response_S.
  destruct (model_call base self w) as [[[am mr] | e | ] w1] eqn:E; try discriminate.
  destruct (carries_tool_calls am) eqn:Htc.
  - intros H. apply IH in H as (ams & final & Hr & Hlen & Hlast & ->).
    exists (am :: ams), final. split; [ | split; [cbn; lia | split; [ | reflexivity]]].
    + eapply rounds_more; eauto. now exists mr.
    + destruct ams; [inversion Hr | exact Hlast].
  - intros [= <- <-]. exists [am], am.
    split; [ | split; [cbn; lia | split; [reflexivity | ]]].
    + apply rounds_last; auto. now exists mr.
    + apply model_call_Return in E
        as (? & ? & ? & ? & ? & ? & _ & _ & _ & _ & _ & -> & -> & _).
      reflexivity.
Qed.

Lemma stream_rounds fuel w w' :
  response_stream base self fuel w = (Return tt, w') ->
  exists ams, rounds (stream_round base self) (stream_dispatch base) w ams w' /\ length ams <= fuel.
Proof.
  revert w. induction fuel as [ | fuel IH]; intros w; [discriminate | ].
  rewrite response_stream_S.
  destruct (stream_call base self w) as [[am | e | ] w1] eqn:E; try discriminate.
  destruct (carries_tool_calls am) eqn:Htc.
  - intros H. apply IH in H as (ams & Hr & Hlen).
    exists (am :: ams). split; [ | cbn; lia].
    eapply rounds_more; eauto.
  - intros [= <-]. exists [am]. split; [ | cbn; lia].
    now apply rounds_last.
Qed.

(** Conversely, rounds that end are a call that returns, given one unit of
    fuel per round. *)
Lemma rounds_response w ams w' fuel :
  rounds (model_round base self) (model_dispatch base) w ams w' -> length ams <= fuel ->
  exists r, response base self fuel w = (Return r, w').
Proof.
  intros H. revert fuel.
  induction H as [w am w' [mr Hr] Hno | w am w1 ams w' [mr Hr] Hyes _ IH]; intros fuel Hlen.
  - destruct fuel as [ | fuel]; [cbn in Hlen; lia | ].
    rewrite response_S, Hr, Hno. eauto.
  - destruct fuel as [ | fuel]; [cbn in Hlen; lia | ].
    rewrite response_S, Hr, Hyes. apply IH. cbn in Hlen. lia.
Qed.

Lemma rounds_response_stream w ams w' fuel :
  rounds (stream_round base self) (stream_dispatch base) w ams w' -> length ams <= fuel ->
  response_stream base self fuel w = (Return tt, w').
Proof.
  intros H. revert fuel.
  induction H as [w am w' Hr Hno | w am w1 ams w' Hr Hyes _ IH]; intros fuel Hlen.
  - destruct fuel as [ | fuel]; [cbn in Hlen; lia | ].
    now rewrite response_stream_S, Hr, Hno.
  - destruct fuel as [ | fuel]; [cbn in Hlen; lia | ].
    rewrite response_stream_S, Hr, Hyes. apply IH. cbn in Hlen. lia.
Qed.

End RunsFacts.

(** ** The chunk loop and the per-call metrics *)

Lemma metrics_after_app a b m :
  metrics_after (a ++ b) m = metrics_after a m ≫= metrics_after b.
Proof.
  revert m. induction a as [ | [now c] a IH]; intros m; [reflexivity | ].
  cbn [app metrics_after]. destruct (chunk_metrics now c m) as [m1 | ]; cbn; auto.
Qed.

Lemma add_response_usage_counter k m u :
  Counter.of_metrics k (add_response_usage_to_metrics m u) = Counter.of_usage k u.
Proof. now destruct k. Qed.

Lemma add_response_usage_first_token m u :
  Metrics.time_to_first_token (add_response_usage_to_metrics m u) =
  Metrics.time_to_first_token m.
Proof. reflexivity. Qed.

(** A chunk's usage block overwrites all nine counters. *)
Lemma chunk_metrics_usage now c m m' u k :
  chunk_metrics now c m = Some m' -> ChatCompletionChunk.usage c = Some u ->
  Counter.of_metrics k m' = Counter.of_usage k u.
Proof.
  unfold chunk_metrics. intros H Hu. rewrite Hu in H.
  destruct (ChatCompletionChunk.choices c) as [ | d ds]; cbn in H.
  - injection H as <-. apply add_response_usage_counter.
  - destruct (Metrics.completion_tokens m) as [n | ]; cbn in H; [ | discriminate].
    injection H as <-. apply add_response_usage_counter.
Qed.

(** When the stream's last chunk carries a usage block, the per-call metrics
    end up with exactly the vendor's counters. *)
Lemma metrics_after_final_usage front now last m m' u k :
  metrics_after (front ++ [(now, last)]) m = Some m' ->
  ChatCompletionChunk.usage last = Some u ->
  Counter.of_metrics k m' = Counter.of_usage k u.
Proof.
  rewrite metrics_after_app. intros H Hu.
  destruct (metrics_after front m) as [m1 | ]; cbn in H; [ | discriminate].
  destruct (chunk_metrics now last m1) as [m2 | ] eqn:E; cbn in H; [ | discriminate].
  injection H as <-. eapply chunk_metrics_usage; eauto.
Qed.

Lemma filter_no_choices now c chunks :
  ChatCompletionChunk.choices c = [] ->
  filter (fun c => has_choices c = true) ((now, c) :: chunks) =
  filter (fun c => has_choices c = true) chunks.
Proof.
  intros Hc. rewrite filter_cons.
  destruct (decide _) as [H | H]; [ | reflexivity].
  unfold has_choices in H. cbn [snd] in H. rewrite Hc in H. discriminate.
Qed.

Lemma filter_choices now c d ds chunks :
  ChatCompletionChunk.choices c = d :: ds ->
  filter (fun c => has_choices c = true) ((now, c) :: chunks) =
  (now, c) :: filter (fun c => has_choices c = true) chunks.
Proof.
  intros Hc. rewrite filter_cons.
  destruct (decide _) as [H | H]; [reflexivity | ].
  unfold has_choices in H. cbn [snd] in H. rewrite Hc in H. congruence.
Qed.

(** The loop's invariant while no usage block has been seen: the counter is
    the number of chunks with choices so far, and the time to first token is
    the reading at the first of them. *)
Lemma metrics_after_no_usage chunks m :
  Forall (fun c => ChatCompletionChunk.usage c.2 = None) chunks ->
  forall n : Z,
    Metrics.completion_tokens m = Some n -> (0 <= n)%Z ->
    (n = 0%Z -> Metrics.time_to_first_token m = None) ->
    exists m',
      metrics_after chunks m = Some m' /\
      Metrics.completion_tokens m' =
        Some (n + Z.of_nat (length (filter (fun c => has_choices c = true) chunks)))%Z /\
      Metrics.time_to_first_token m' =
        if (n =? 0)%Z then first_choice_time chunks else Metrics.time_to_first_token m.
Proof.
  intros Hall. revert m.
  induction Hall as [ | [now c] chunks Hu _ IH]; intros m n Hn Hpos Hfresh.
  - exists m. cbn. rewrite Z.add_0_r. repeat split; auto.
    destruct (Z.eqb_spec n 0); auto.
  - cbn [metrics_after]. unfold chunk_metrics. cbn [snd] in Hu. rewrite Hu.
    unfold first_choice_time.
    destruct (ChatCompletionChunk.choices c) as [ | d ds] eqn:Hc.
    + rewrite (filter_no_choices _ _ _ Hc). cbn.
      destruct (IH (Metrics.set_response_timer now m) n Hn Hpos Hfresh)
        as (m' & Hm' & Hct & Hft).
      exists m'. rewrite Hm', Hct, Hft. auto.
    + rewrite (filter_choices _ _ _ _ _ Hc). cbn. rewrite Hn. cbn.
      destruct (Z.eqb_spec (n + 1) 1) as [E | E].
      * assert (n = 0%Z) as -> by lia.
        destruct (IH (Metrics.set_time_to_first_token (Some now)
                        (Metrics.set_completion_tokens (Some (0 + 1)%Z)
                           (Metrics.set_response_timer now m))) 1%Z)
          as (m' & Hm' & Hct & Hft); [reflexivity | lia | lia | ].
        exists m'. rewrite Hm', Hct. cbn in Hft. rewrite Hft. cbn.
        repeat split. f_equal. lia.
      * destruct (IH (Metrics.set_completion_tokens (Some (n + 1)%Z)
                        (Metrics.set_response_timer now m)) (n + 1)%Z)
          as (m' & Hm' & Hct & Hft); [reflexivity | lia | lia | ].
        exists m'. rewrite Hm', Hct.
        destruct (Z.eqb_spec (n + 1) 0) as [? | _]; [lia | ].
        cbn in Hft. rewrite Hft.
        destruct (Z.eqb_spec n 0) as [-> | _]; [lia | ].
        repeat split. cbn. f_equal. lia.
Qed.

(** ** Vendor failures (C2) *)

Lemma model_call_fails base self w status_code message rest :
  World.vendor w = Fails status_code message :: rest ->
  model_call base self w =
  (Raise (Py.APIStatusError status_code message), requested self false rest w).
Proof.
  intros Hv. unfold model_call.
  erewrite mbind_Raise; [reflexivity | ].
  apply invoke_Raise. eauto 6.
Qed.

(** C2, as amended.  If the vendor call made inside [response] fails, the
    SDK's own exception propagates unchanged, with the status code and the
    message the vendor gave; the adapter neither wraps it into a provider
    error nor attaches its model id (an adapter with any other id raises the
    very same exception).  The conversation list is left as it was passed in:
    no assistant message is appended, nothing is logged, and the lifetime
    metrics are untouched. *)
Theorem vendor_failure_propagates_unwrapped
    base self fuel w status_code message rest :
  World.vendor w = Fails status_code message :: rest ->
  exists w',
    response base self (S fuel) w = (Raise (Py.APIStatusError status_code message), w') /\
    World.messages w' = World.messages w /\
    World.self_metrics w' = World.self_metrics w /\
    World.logged w' = World.logged w /\
    forall other : Groq.t,
      (response base other (S fuel) w).1 = Raise (Py.APIStatusError status_code message).
Proof.
  intros Hv. exists (requested self false rest w).
  rewrite response_S, (model_call_fails _ _ _ _ _ _ Hv).
  repeat split.
  intros other. now rewrite response_S, (model_call_fails _ _ _ _ _ _ Hv).
Qed.

Lemma vendor_failure_witness :
  let w := World.init [Example.user_says "hi"] [Fails 404 "model_not_found"] in
  exists w',
    response Example.base Example.groq 1 w =
      (Raise (Py.APIStatusError 404 "model_not_found"), w') /\
    World.messages w' = World.messages w /\
    World.self_metrics w' = World.self_metrics w /\
    World.logged w' = World.logged w /\
    forall other : Groq.t,
      (response Example.base other 1 w).1 = Raise (Py.APIStatusError 404 "model_not_found").
Proof.
  intros w.
  apply (vendor_failure_propagates_unwrapped Example.base Example.groq 0 w 404
           "model_not_found" []).
  reflexivity.
Defined.

(** C2 as stated fails: for the invalid model id ["gpt-100"] and a vendor
    answering 404, what [response] raises is the SDK's status error, not a
    provider error carrying the model id. *)
Lemma provider_error_counterexample :
  let out :=
    (response Example.base (Groq.default "gpt-100") 1
       (World.init [Example.user_says "hi"] [Fails 404 "model_not_found"])).1 in
  out = Raise (Py.APIStatusError 404 "model_not_found") /\
  out <> Raise (Py.ModelProviderError "Groq" "gpt-100" 404).
Proof. split; [reflexivity | discriminate]. Qed.

(** ** Token counters of one call (C5) *)

(** C5, as amended.  After a completed non-streaming call whose usage block
    reports [prompt_tokens], [completion_tokens] and [total_tokens], the
    per-call metrics hold exactly these three numbers as input, output and
    total: the adapter copies and never recomputes, so total = input + output
    holds precisely when the vendor's block satisfies it. *)
Theorem usage_tokens_copied
    base self w am mr w' elapsed c rest u p o t :
  World.vendor w = Completes elapsed c :: rest ->
  ChatCompletion.usage c = Some u ->
  Usage.prompt_tokens u = Some p ->
  Usage.completion_tokens u = Some o ->
  Usage.total_tokens u = Some t ->
  model_call base self w = (Return (am, mr), w') ->
  exists m,
    World.logged w' = World.logged w ++ [m] /\
    Metrics.input_tokens m = Some p /\
    Metrics.output_tokens m = Some o /\
    Metrics.total_tokens m = Some t /\
    (tokens_add_up m <-> t = (p + o)%Z).
Proof.
  intros Hv Hu Hp Ho Ht H.
  apply model_call_effect in H
    as (elapsed' & c' & rest' & rm & Hv' & _ & _ & _ & _ & _ & _ & Hl & _).
  rewrite Hv in Hv'. injection Hv' as <- <- <-.
  eexists. split; [exact Hl | ].
  unfold call_metrics. rewrite Hu.
  pose proof (usage_metrics_tokens u (Metrics.set_response_timer elapsed (Metrics_new base)))
    as (Hi & Hout & Htot & _).
  cbv zeta in Hi, Hout, Htot. rewrite Hp in Hi. rewrite Ho in Hout. rewrite Ht in Htot.
  cbn [keep] in Hi, Hout, Htot.
  repeat (split; [assumption | ]).
  unfold tokens_add_up. rewrite Hi, Hout, Htot. split.
  - intros H. now apply H.
  - intros -> i o' t' [= <-] [= <-] [= <-]. reflexivity.
Qed.

Lemma usage_tokens_copied_witness :
  let w := World.init [Example.user_says "hi"]
             [Completes (1 # 2) (Example.answers "hello" (Example.usage 5 2 7))] in
  let w' := (model_call Example.base Example.groq w).2 in
  exists m,
    World.logged w' = World.logged w ++ [m] /\
    Metrics.input_tokens m = Some 5%Z /\
    Metrics.output_tokens m = Some 2%Z /\
    Metrics.total_tokens m = Some 7%Z /\
    (tokens_add_up m <-> 7%Z = (5 + 2)%Z).
Proof.
  intros w w'.
  refine (usage_tokens_copied Example.base Example.groq w _ _ w' (1 # 2) _ [] _ 5 2 7
            eq_refl eq_refl eq_refl eq_refl eq_refl _).
  vm_compute. reflexivity.
Defined.

(** C5 as stated fails: a vendor whose usage block says 5 + 2 = 100 gets its
    numbers copied as they are, and the per-call metrics break the invariant. *)
Lemma tokens_add_up_counterexample :
  let w' :=
    (response Example.base Example.groq 1
       (World.init [Example.user_says "hi"]
          [Completes (1 # 2) (Example.answers "hello" (Example.usage 5 2 100))])).2 in
  exists m,
    World.logged w' = [m] /\
    Metrics.input_tokens m = Some 5%Z /\
    Metrics.output_tokens m = Some 2%Z /\
    Metrics.total_tokens m = Some 100%Z /\
    ~ tokens_add_up m.
Proof.
  eexists. split; [vm_compute; reflexivity | ].
  repeat split. intros H. specialize (H 5%Z 2%Z 100%Z eq_refl eq_refl eq_refl). discriminate.
Qed.

(** ** Counters the vendor does not report (C3) *)

Lemma set_response_timer_counter k t m :
  Counter.of_metrics k (Metrics.set_response_timer t m) = Counter.of_metrics k m.
Proof. now destruct k. Qed.

Lemma chunk_metrics_timing now c m m' k :
  chunk_metrics now c m = Some m' -> ChatCompletionChunk.usage c = None ->
  is_timing k = true -> Counter.of_metrics k m' = Counter.of_metrics k m.
Proof.
  unfold chunk_metrics. intros H Hu Hk. rewrite Hu in H.
  destruct (ChatCompletionChunk.choices c) as [ | d ds]; cbn in H.
  - injection H as <-. now destruct k.
  - destruct (Metrics.completion_tokens m) as [n | ]; cbn in H; [ | discriminate].
    injection H as <-. destruct (n + 1 =? 1)%Z; now destruct k.
Qed.

Lemma metrics_after_timing chunks m m' k :
  Forall (fun c => ChatCompletionChunk.usage c.2 = None) chunks ->
  metrics_after chunks m = Some m' -> is_timing k = true ->
  Counter.of_metrics k m' = Counter.of_metrics k m.
Proof.
  intros Hall. revert m. induction Hall as [ | [now c] chunks Hu _ IH]; intros m H Hk.
  - now injection H as <-.
  - cbn [metrics_after] in H.
    destruct (chunk_metrics now c m) as [m1 | ] eqn:E; cbn in H; [ | discriminate].
    rewrite (IH _ H Hk). eapply chunk_metrics_timing; eauto.
Qed.

(** *** Whatever the outcome of a call *)

(** Inversion of a sequence, whatever its outcome. *)
Lemma mbind_inv {W A B} (c : M W A) (k : A -> M W B) w o w2 :
  (c ≫= k) w = (o, w2) ->
  (exists a w1, c w = (Return a, w1) /\ k a w1 = (o, w2)) \/
  (exists o1, c w = (o1, w2) /\ forall a, o1 <> Return a).
Proof.
  unfold mbind, M_bind, bind. destruct (c w) as [[a | e | ] w1]; intros H.
  - left. eauto.
  - injection H as <- <-. right. exists (Raise e). split; [reflexivity | discriminate].
  - injection H as <- <-. right. exists Starved. split; [reflexivity | discriminate].
Qed.

Lemma invoke_self_metrics self w o w1 :
  invoke self w = (o, w1) -> World.self_metrics w1 = World.self_metrics w.
Proof.
  unfold invoke, mbind, M_bind, bind, get, modify. cbn.
  destruct (World.vendor w) as [ | [sc msg | el c | chunks el] rest]; cbn;
    now intros [= <- <-].
Qed.

Lemma invoke_stream_self_metrics self w o w1 :
  invoke_stream self w = (o, w1) -> World.self_metrics w1 = World.self_metrics w.
Proof.
  unfold invoke_stream, mbind, M_bind, bind, get, modify. cbn.
  destruct (World.vendor w) as [ | [sc msg | el c | chunks el] rest]; cbn;
    now intros [= <- <-].
Qed.

Lemma on_chunk_self_metrics now c sd m w o w1 :
  on_chunk now c sd m w = (o, w1) -> World.self_metrics w1 = World.self_metrics w.
Proof.
  unfold on_chunk.
  destruct c as [[ | [content tcs] choices] usage]; cbn.
  - now intros [= <- <-].
  - destruct (Metrics.completion_tokens m) as [n | ]; cbn; [ | now intros [= <- <-]].
    destruct content as [s | ]; cbn; now intros [= <- <-].
Qed.

Lemma consume_self_metrics chunks sd m w o w1 :
  consume chunks sd m w = (o, w1) -> World.self_metrics w1 = World.self_metrics w.
Proof.
  revert sd m w. induction chunks as [ | [now c] chunks IH]; intros sd m w.
  - now intros [= <- <-].
  - cbn [consume]. intros H.
    apply mbind_inv in H as [([sd1 m1] & w2 & H1 & H) | (o1 & H1 & _)].
    + rewrite (IH _ _ _ H). eapply on_chunk_self_metrics; eauto.
    + eapply on_chunk_self_metrics; eauto.
Qed.

Lemma self_append_untouched k x w o w' k' :
  self_append k x w = (o, w') -> k' ≠ k ->
  World.self_metrics w' !! k' = World.self_metrics w !! k'.
Proof.
  intros H Hne. apply self_append_inv in H. destruct o as [[] | e | ].
  - destruct H as (xs & _ & ->). cbn. now rewrite lookup_insert_ne.
  - now destruct H as (_ & -> & _).
  - easy.
Qed.

(** A tally, completed or not, leaves alone the keys it has no increment for. *)
Lemma tally_untouched incs k w o w' :
  tally incs w = (o, w') -> increments_for k incs = [] ->
  World.self_metrics w' !! k = World.self_metrics w !! k.
Proof.
  revert w. induction incs as [ | [k1 v] incs IH]; intros w.
  - now intros [= <- <-].
  - cbn [tally]. intros H Hk.
    assert (k1 ≠ k /\ increments_for k incs = []) as [Hne Hrest].
    { destruct (decide (k1 = k)) as [-> | Hne].
      - rewrite increments_for_cons_eq in Hk. discriminate.
      - rewrite increments_for_cons_ne in Hk by assumption. auto. }
    assert (forall o1 w1, self_add k1 v w = (o1, w1) ->
                          World.self_metrics w1 !! k = World.self_metrics w !! k) as Hadd.
    { intros o1 w1 E. apply self_add_inv in E. destruct o1 as [[] | e | ].
      - destruct E as (x & _ & ->). cbn. now rewrite lookup_insert_ne.
      - now destruct E as (_ & -> & _).
      - easy. }
    apply mbind_inv in H as [([] & w1 & E & H) | (o1 & E & _)].
    + rewrite (IH _ H Hrest). eauto.
    + eauto.
Qed.

Lemma first_token_block_untouched m am w o w' k :
  first_token_block m am w = (o, w') -> k ≠ "time_to_first_token" ->
  World.self_metrics w' !! k = World.self_metrics w !! k.
Proof. intros H Hne. apply first_token_block_inv in H as (_ & Hk & _). auto. Qed.

Lemma log_self_metrics m w o w' :
  log m w = (o, w') -> World.self_metrics w' = World.self_metrics w.
Proof.
  unfold log, raise, modify. destruct (Metrics.output_tokens m); [ | now intros [= <- <-]].
  destruct (_ =? _)%Z; now intros [= <- <-].
Qed.

Section Untouched.

Context (base : Collaborators) (self : Groq.t).

(** A non-streaming call, whatever its outcome, leaves alone the lifetime
    entries for which the completion brings no increment. *)
Lemma model_call_untouched w o w' key :
  key ≠ "response_times" ->
  (forall elapsed c rest,
      World.vendor w = Completes elapsed c :: rest ->
      increments_for key (usage_increments (ChatCompletion.usage c)) = []) ->
  model_call base self w = (o, w') ->
  World.self_metrics w' !! key = World.self_metrics w !! key.
Proof.
  intros Hkey Hnone H. unfold model_call in H.
  apply mbind_inv in H as [([elapsed c] & w1 & E1 & H) | (o1 & E1 & _)];
    [ | now rewrite (invoke_self_metrics _ _ _ _ E1)].
  rewrite <- (invoke_self_metrics _ _ _ _ E1).
  apply invoke_Return in E1 as (rest & Hv & _). specialize (Hnone _ _ _ Hv).
  apply mbind_inv in H as [(rm & w2 & E2 & H) | (o2 & E2 & _)].
  2:{ destruct (ChatCompletion.choices c); now injection E2 as <- <-. }
  assert (w2 = w1) as -> by (destruct (ChatCompletion.choices c); now injection E2).
  apply mbind_inv in H as [([am m] & w3 & E3 & H) | (o3 & E3 & Hno3)];
    rewrite create_assistant_message_draft, update_usage_metrics_tally in E3.
  - apply mbind_inv_Return in E3 as ([] & wa & Ea & E3).
    apply mbind_inv_Return in E3 as ([] & wb & Eb & E3). injection E3 as <- <- <-.
    apply mbind_inv in H as [([] & w4 & E4 & H) | (o4 & E4 & Hno)];
      unfold append_message, modify in E4; [ | injection E4 as <- <-; now destruct (Hno tt)].
    injection E4 as <-.
    assert (World.self_metrics w' = World.self_metrics wb) as ->.
    { apply mbind_inv in H as [([] & w5 & E5 & H) | (o5 & E5 & _)].
      - injection H as <- <-. now rewrite (log_self_metrics _ _ _ _ E5).
      - now rewrite (log_self_metrics _ _ _ _ E5). }
    rewrite (tally_untouched _ _ _ _ _ Eb Hnone).
    now rewrite (self_append_untouched _ _ _ _ _ _ Ea Hkey).
  - apply mbind_inv in E3 as [([] & wa & Ea & E3) | (oa & Ea & _)];
      [ | now rewrite (self_append_untouched _ _ _ _ _ _ Ea Hkey)].
    apply mbind_inv in E3 as [([] & wb & Eb & E3) | (ob & Eb & _)];
      [injection E3 as <- <-; exfalso; eapply Hno3; reflexivity | ].
    rewrite (tally_untouched _ _ _ _ _ Eb Hnone).
    now rewrite (self_append_untouched _ _ _ _ _ _ Ea Hkey).
Qed.

(** The same for a streamed call and the per-call metrics at the end of the
    stream. *)
Lemma stream_call_untouched w o w' key :
  key ≠ "response_times" -> key ≠ "time_to_first_token" ->
  (forall chunks elapsed rest m,
      World.vendor w = Streams chunks elapsed :: rest ->
      metrics_after chunks (Metrics_new base) = Some m ->
      increments_for key (metrics_increments m) = []) ->
  stream_call base self w = (o, w') ->
  World.self_metrics w' !! key = World.self_metrics w !! key.
Proof.
  intros Hkey Hkey' Hnone H. unfold stream_call in H.
  apply mbind_inv in H as [([chunks elapsed] & w1 & E1 & H) | (o1 & E1 & _)];
    [ | now rewrite (invoke_stream_self_metrics _ _ _ _ E1)].
  rewrite <- (invoke_stream_self_metrics _ _ _ _ E1).
  apply invoke_stream_Return in E1 as (rest & Hv & _).
  pose proof (fun m => Hnone chunks elapsed rest m Hv) as Hn. clear Hnone.
  apply mbind_inv in H as [([sd m] & w2 & E2 & H) | (o2 & E2 & _)];
    [ | now rewrite (consume_self_metrics _ _ _ _ _ _ E2)].
  rewrite <- (consume_self_metrics _ _ _ _ _ _ E2).
  apply consume_Return in E2 as (Hm & _ & _). specialize (Hn _ Hm).
  assert (increments_for key (metrics_increments (Metrics.set_response_timer elapsed m)) = [])
    as Hnone' by (now destruct m).
  assert (forall A (c : Message.t -> M World.t A) o w',
             (update_stream_metrics (assemble base sd) (Metrics.set_response_timer elapsed m)
                ≫= c) w2 = (o, w') ->
             (forall am w3 o w', c am w3 = (o, w') ->
                                 World.self_metrics w' = World.self_metrics w3) ->
             World.self_metrics w' !! key = World.self_metrics w2 !! key) as Hrest.
  { intros A c o0 w0 H0 Hc.
    apply mbind_inv in H0 as [(am & w3 & E3 & H0) | (o3 & E3 & _)];
      rewrite update_stream_metrics_tally in E3.
    - rewrite (Hc _ _ _ _ H0).
      apply mbind_inv_Return in E3 as ([] & wa & Ea & E3).
      apply mbind_inv_Return in E3 as (am1 & wb & Eb & E3).
      apply mbind_inv_Return in E3 as ([] & wc & Ec & E3). injection E3 as <- <-.
      rewrite (tally_untouched _ _ _ _ _ Ec Hnone').
      rewrite (first_token_block_untouched _ _ _ _ _ _ Eb Hkey').
      now rewrite (self_append_untouched _ _ _ _ _ _ Ea Hkey).
    - apply mbind_inv in E3 as [([] & wa & Ea & E3) | (oa & Ea & _)];
        [ | now rewrite (self_append_untouched _ _ _ _ _ _ Ea Hkey)].
      rewrite <- (self_append_untouched _ _ _ _ _ _ Ea Hkey).
      apply mbind_inv in E3 as [(am1 & wb & Eb & E3) | (ob & Eb & _)];
        [ | now rewrite (first_token_block_untouched _ _ _ _ _ _ Eb Hkey')].
      rewrite <- (first_token_block_untouched _ _ _ _ _ _ Eb Hkey').
      apply mbind_inv in E3 as [([] & wc & Ec & E3) | (oc & Ec & _)].
      + injection E3 as <- <-. now rewrite (tally_untouched _ _ _ _ _ Ec Hnone').
      + now rewrite (tally_untouched _ _ _ _ _ Ec Hnone'). }
  eapply Hrest; [exact H | ].
  intros am w3 o0 w0 H0.
  apply mbind_inv in H0 as [([] & w4 & E4 & H0) | (o4 & E4 & _)];
    unfold append_message, modify in E4; [ | now injection E4 as <- <-].
  injection E4 as <-.
  apply mbind_inv in H0 as [([] & w5 & E5 & H0) | (o5 & E5 & _)].
  - injection H0 as <- <-. now rewrite (log_self_metrics _ _ _ _ E5).
  - now rewrite (log_self_metrics _ _ _ _ E5).
Qed.

End Untouched.

Lemma metrics_after_count chunks m m' n :
  Forall (fun c => ChatCompletionChunk.usage c.2 = None) chunks ->
  Metrics.completion_tokens m = Some n ->
  metrics_after chunks m = Some m' ->
  Metrics.completion_tokens m' =
    Some (n + Z.of_nat (length (filter (fun c => has_choices c = true) chunks)))%Z.
Proof.
  intros Hall. revert m n.
  induction Hall as [ | [now c] chunks Hu _ IH]; intros m n Hn H.
  - injection H as <-. cbn. now rewrite Z.add_0_r.
  - cbn [metrics_after] in H. unfold chunk_metrics in H. cbn [snd] in Hu. rewrite Hu in H.
    destruct (ChatCompletionChunk.choices c) as [ | d ds] eqn:Hc.
    + rewrite (filter_no_choices _ _ _ Hc). cbn in H. exact (IH (Metrics.set_response_timer now m) n Hn H).
    + rewrite (filter_choices _ _ _ _ _ Hc). cbn in H. rewrite Hn in H. cbn in H.
      rewrite (fun E => IH _ (n + 1)%Z E H) by (now destruct (n + 1 =? 1)%Z).
      cbn [length]. f_equal. lia.
Qed.

(** C3, as amended.  For every call, streamed or not, and every counter the
    vendor does not report for it, the adapter's lifetime entry for that
    counter is the same after the call as before, whether the call returns
    or raises on its way: nothing is added, not even zero.  A streamed reply
    counts as not reporting a counter when its final chunk carries a usage
    block without it, or, for the four timings, when no chunk carries a usage
    block.  For [completion_tokens] a stream without any usage block is
    another matter: the per-call metrics then hold the adapter's own count of
    the chunks that had a choice (the base [Metrics] counting from zero), and
    a call that returns has added that count to the lifetime entry. *)
Theorem unreported_counter_untouched base self streamed k w reply rest :
  World.vendor w = reply :: rest ->
  (unreported k reply ->
   forall o w',
     a_call base self streamed w = (o, w') ->
     World.self_metrics w' !! Counter.key k = World.self_metrics w !! Counter.key k) /\
  (forall chunks elapsed am w',
      reply = Streams chunks elapsed ->
      Forall (fun c => ChatCompletionChunk.usage c.2 = None) chunks ->
      Metrics.completion_tokens (Metrics_new base) = Some 0%Z ->
      a_call base self true w = (Return am, w') ->
      let count := Z.of_nat (length (filter (fun c => has_choices c = true) chunks)) in
      (exists m, World.logged w' = World.logged w ++ [m] /\
                 Metrics.completion_tokens m = Some count) /\
      World.self_metrics w' !! "completion_tokens" =
        bumped (World.self_metrics w !! "completion_tokens") [Py.Int count]).
Proof.
  intros Hv. split.
  - intros Hun o w' H. destruct streamed; cbn [a_call] in H.
    + eapply stream_call_untouched; try exact H; try apply counter_key_not_list.
      intros chunks elapsed rest' m Hv' Hm.
      rewrite Hv in Hv'. injection Hv' as -> <-. cbn [unreported] in Hun.
      rewrite metrics_increments_for.
      destruct Hun as [(front & now & last & u & -> & Hu & Hnone) | [Hall Htiming]].
      * now rewrite (metrics_after_final_usage _ _ _ _ _ _ k Hm Hu), Hnone.
      * rewrite (metrics_after_timing _ _ _ k Hall Hm Htiming). now destruct k.
    + assert (exists o1, model_call base self w = (o1, w')) as [o1 H1].
      { apply mbind_inv in H as [([am mr] & w1 & H1 & H) | (o1 & H1 & _)]; [ | eauto].
        injection H as <- <-. eauto. }
      eapply model_call_untouched; try exact H1; try apply counter_key_not_list.
      intros elapsed c rest' Hv'.
      rewrite Hv in Hv'. injection Hv' as -> <-. cbn [unreported] in Hun.
      unfold reported_value in Hun.
      destruct (ChatCompletion.usage c) as [u | ]; [ | reflexivity].
      cbn in Hun. now rewrite usage_increments_for, Hun.
  - intros chunks elapsed am w' -> Hall Hzero H. cbn [a_call] in H.
    apply stream_call_effect in H
      as (chunks' & elapsed' & rest' & m & Hv' & Hm & _ & _ & _ & _ & _ & _ & Hl & _ & Hk).
    rewrite Hv in Hv'. injection Hv' as <- <- <-.
    unfold stream_metrics in Hm.
    destruct (metrics_after chunks (Metrics_new base)) as [m0 | ] eqn:Hm0; [ | discriminate].
    injection Hm as <-.
    pose proof (metrics_after_count _ _ _ _ Hall Hzero Hm0) as Hcount.
    rewrite Z.add_0_l in Hcount. cbv zeta. split.
    + eexists. split; [exact Hl | ]. exact Hcount.
    + pose proof (Hk Counter.completion_tokens) as Hk'.
      cbn [Counter.of_metrics Counter.key Metrics.completion_tokens
           Metrics.set_response_timer] in Hk'.
      now rewrite Hk', Hcount.
Qed.

Lemma unreported_counter_witness :
  let no_total := Usage.mk (Some 5%Z) (Some 2%Z) None None None None None in
  let no_completion := Usage.mk (Some 5%Z) None (Some 5%Z) None None None None in
  let streamed_w u :=
    World.init [Example.user_says "hi"]
      [Streams [(1 # 10, Example.says "Hi"); (2 # 10, ChatCompletionChunk.mk [] (Some u))]
               (2 # 10)] in
  let plain_w :=
    World.init [Example.user_says "hi"]
      [Completes (1 # 2) (Example.answers "hello" Example.no_usage)] in
  let counted_w :=
    World.init [Example.user_says "hi"]
      [Streams [(1 # 10, Example.says "Hel"); (2 # 10, Example.says "lo")] (2 # 10)] in
  (exists am w',
      stream_call Example.base Example.groq (streamed_w no_total) = (Return am, w') /\
      World.self_metrics w' !! "total_tokens" = None) /\
  (exists w',
      stream_call Example.base Example.groq (streamed_w no_completion)
        = (Raise Py.TypeError, w') /\
      World.self_metrics w' !! "completion_tokens" = None) /\
  (exists am mr w',
      model_call Example.base Example.groq plain_w = (Return (am, mr), w') /\
      World.self_metrics w' !! "total_tokens" = None) /\
  (exists am w',
      stream_call Example.base Example.groq counted_w = (Return am, w') /\
      World.self_metrics w' !! "completion_tokens" = Some (Py.Num (Py.Int 2))).
Proof.
  intros no_total no_completion streamed_w plain_w counted_w.
  split; [ | split; [ | split]].
  - assert (exists am w', stream_call Example.base Example.groq (streamed_w no_total)
                          = (Return am, w')) as (am & w' & E)
      by (eexists _, _; vm_compute; reflexivity).
    exists am, w'. split; [exact E | ].
    refine (proj1 (unreported_counter_untouched Example.base Example.groq true
                     Counter.total_tokens (streamed_w no_total) _ [] eq_refl) _ _ _ E).
    left. exists [(1 # 10, Example.says "Hi")]. do 3 eexists.
    split; [reflexivity | split; reflexivity].
  - assert (exists w', stream_call Example.base Example.groq (streamed_w no_completion)
                       = (Raise Py.TypeError, w')) as (w' & E)
      by (eexists; vm_compute; reflexivity).
    exists w'. split; [exact E | ].
    refine (proj1 (unreported_counter_untouched Example.base Example.groq true
                     Counter.completion_tokens (streamed_w no_completion) _ [] eq_refl)
              _ _ _ E).
    left. exists [(1 # 10, Example.says "Hi")]. do 3 eexists.
    split; [reflexivity | split; reflexivity].
  - assert (exists am mr w', model_call Example.base Example.groq plain_w
                             = (Return (am, mr), w')) as (am & mr & w' & E)
      by (eexists _, _, _; vm_compute; reflexivity).
    exists am, mr, w'. split; [exact E | ].
    refine (proj1 (unreported_counter_untouched Example.base Example.groq false
                     Counter.total_tokens plain_w _ [] eq_refl) _ (Return am) w' _).
    + reflexivity.
    + cbn [a_call]. now erewrite mbind_Return by exact E.
  - assert (exists am w', stream_call Example.base Example.groq counted_w = (Return am, w'))
      as (am & w' & E) by (eexists _, _; vm_compute; reflexivity).
    exists am, w'. split; [exact E | ].
    refine (proj2 (proj2 (unreported_counter_untouched Example.base Example.groq true
                            Counter.completion_tokens counted_w _ [] eq_refl)
                     _ _ am w' eq_refl _ eq_refl E)).
    repeat constructor.
Defined.

(** C3 as stated fails on the streaming path: the vendor sends one content
    chunk and no usage block at all, yet the lifetime [completion_tokens],
    absent before the call, is 1 after it (the adapter's own chunk count). *)
Lemma unreported_completion_tokens_counterexample :
  let reply := Streams [(1 # 10, Example.says "Hi")] (1 # 5) in
  let w := World.init [Example.user_says "hi"] [reply] in
  let w' := (response_stream Example.base Example.groq 1 w).2 in
  (response_stream Example.base Example.groq 1 w).1 = Return tt /\
  World.self_metrics w !! "completion_tokens" = None /\
  World.self_metrics w' !! "completion_tokens" = Some (Py.Num (Py.Int 1)).
Proof. vm_compute. auto. Qed.

(** ** Time to first token (C7) *)

Lemma usage_at_end_only_take n chunks :
  usage_at_end_only chunks -> usage_at_end_only (take n chunks).
Proof.
  intros H i c Hi Hlen. rewrite length_take in Hlen.
  apply lookup_take_Some in Hi as [Hi _]. apply (H i c Hi). lia.
Qed.

Lemma usage_at_end_only_front front c :
  usage_at_end_only (front ++ [c]) ->
  Forall (fun c => ChatCompletionChunk.usage c.2 = None) front.
Proof.
  intros H. apply Forall_lookup. intros i x Hi.
  apply (H i x).
  - now apply lookup_app_l_Some.
  - rewrite length_app. cbn. apply lookup_lt_Some in Hi. lia.
Qed.

Lemma first_choice_time_snoc front now c :
  first_choice_time (front ++ [(now, c)]) =
  match first_choice_time front with
  | Some t => Some t
  | None => if has_choices (now, c) then Some now else None
  end.
Proof.
  unfold first_choice_time. rewrite filter_app.
  destruct (filter _ front) as [ | x xs] eqn:E; cbn [app]; [ | reflexivity].
  rewrite filter_cons, filter_nil.
  destruct (decide (has_choices (now, c) = true)) as [-> | Hno]; [reflexivity | ].
  now destruct (has_choices (now, c)).
Qed.

(** With the counter starting at 0 and usage blocks only at the end of the
    stream, the loop never raises and leaves in [time_to_first_token] the
    timer's reading at the first chunk that has a choice. *)
Lemma metrics_after_first_token chunks m :
  Metrics.completion_tokens m = Some 0%Z ->
  Metrics.time_to_first_token m = None ->
  usage_at_end_only chunks ->
  exists m',
    metrics_after chunks m = Some m' /\
    Metrics.time_to_first_token m' = first_choice_time chunks.
Proof.
  intros Hn Hft Hend.
  destruct chunks as [ | c0 chunks0] using rev_ind; [now exists m | clear IHchunks0].
  destruct c0 as [now c].
  pose proof (usage_at_end_only_front _ _ Hend) as Hfront.
  destruct (metrics_after_no_usage _ m Hfront 0%Z Hn ltac:(lia) (fun _ => Hft))
    as (m1 & Hm1 & Hct & Hft1).
  cbn [Z.eqb] in Hft1.
  rewrite metrics_after_app, Hm1, first_choice_time_snoc. cbn [mbind option_bind metrics_after].
  unfold chunk_metrics, has_choices. cbn [snd].
  destruct (ChatCompletionChunk.choices c) as [ | d ds]; cbn.
  - eexists. split; [reflexivity | ].
    destruct (ChatCompletionChunk.usage c); cbn; rewrite Hft1;
      now destruct (first_choice_time chunks0).
  - rewrite Hct. cbn.
    eexists. split; [reflexivity | ].
    assert (Metrics.time_to_first_token
              (if (0 + Z.of_nat (length (filter (fun c => has_choices c = true) chunks0))
                   + 1 =? 1)%Z
               then Metrics.set_time_to_first_token (Some now)
                      (Metrics.set_completion_tokens
                         (Some (0 + Z.of_nat
                                  (length (filter (fun c => has_choices c = true) chunks0))
                                + 1)%Z)
                         (Metrics.set_response_timer now m1))
               else Metrics.set_completion_tokens
                      (Some (0 + Z.of_nat
                               (length (filter (fun c => has_choices c = true) chunks0))
                             + 1)%Z)
                      (Metrics.set_response_timer now m1)) =
            match first_choice_time chunks0 with
            | Some t => Some t
            | None => Some now
            end) as Hgoal.
    { unfold first_choice_time in *.
      destruct (filter (fun c => has_choices c = true) chunks0) as [ | x xs].
      - reflexivity.
      - destruct (Z.eqb_spec (0 + Z.of_nat (length (x :: xs)) + 1) 1) as [E | _];
          [cbn [length] in E; lia | ].
        cbn in *. exact Hft1. }
    destruct (ChatCompletionChunk.usage c); cbn; exact Hgoal.
Qed.

(** C7, as amended.  In a streaming call whose usage blocks come on the final
    chunk only, [time_to_first_token] is, after any number [n] of chunks, the
    response timer's reading at the first chunk so far that has at least one
    choice, whether or not its delta has content: it is set there and never
    changed afterwards.  A chunk with zero choices yields nothing and
    leaves the accumulated content, the tool calls, the chunk count and the
    time to first token alone; and the usage block of a chunk, with or
    without choices, overwrites the nine counters of the per-call metrics. *)
Theorem first_token_time_at_first_choice base chunks n :
  Metrics.completion_tokens (Metrics_new base) = Some 0%Z ->
  Metrics.time_to_first_token (Metrics_new base) = None ->
  usage_at_end_only chunks ->
  (exists m,
      metrics_after (take n chunks) (Metrics_new base) = Some m /\
      Metrics.time_to_first_token m = first_choice_time (take n chunks)) /\
  (forall now c sd m w,
      ChatCompletionChunk.choices c = [] ->
      exists m',
        on_chunk now c sd m w = (Return (sd, m'), w) /\
        Metrics.time_to_first_token m' = Metrics.time_to_first_token m /\
        (ChatCompletionChunk.usage c = None ->
         Metrics.completion_tokens m' = Metrics.completion_tokens m)) /\
  (forall now c sd m sd' m' w w' u k,
      on_chunk now c sd m w = (Return (sd', m'), w') ->
      ChatCompletionChunk.usage c = Some u ->
      Counter.of_metrics k m' = Counter.of_usage k u).
Proof.
  intros Hn Hft Hend. split; [ | split].
  - apply metrics_after_first_token; auto using usage_at_end_only_take.
  - intros now c sd m w Hc.
    eexists. split.
    + apply on_chunk_Return. unfold chunk_metrics, chunk_data, content_of, delta_of.
      rewrite Hc. cbn. rewrite yields_nil. repeat split.
    + split; [now destruct (ChatCompletionChunk.usage c) | ].
      now intros ->.
  - intros now c sd m sd' m' w w' u k H Hu.
    apply on_chunk_Return in H as (H & _ & _).
    eapply chunk_metrics_usage; eauto.
Qed.

Lemma usage_at_end_only_snoc front c :
  Forall (fun c => ChatCompletionChunk.usage c.2 = None) front ->
  usage_at_end_only (front ++ [c]).
Proof.
  intros Hall i x Hi Hlen. rewrite length_app in Hlen. cbn in Hlen.
  rewrite lookup_app_l in Hi by lia.
  eapply Forall_lookup in Hall; eauto.
Qed.

Lemma first_token_time_witness :
  let chunks := [(1 # 10, Example.says "Hello"); (2 # 10, Example.says " world");
                 (3 # 10, Example.reports 5 2 7)] in
  exists m,
    metrics_after (take 3 chunks) (Metrics_new Example.base) = Some m /\
    Metrics.time_to_first_token m = first_choice_time (take 3 chunks).
Proof.
  intros chunks.
  apply (first_token_time_at_first_choice Example.base chunks 3).
  - reflexivity.
  - reflexivity.
  - apply (usage_at_end_only_snoc
             [(1 # 10, Example.says "Hello"); (2 # 10, Example.says " world")]).
    repeat constructor.
Defined.

(** C7 as stated fails: the first chunk has a choice whose delta carries no
    content (only the role), the second carries the first content; the time
    to first token is the reading at the first chunk, not at the first chunk
    that has content. *)
Lemma first_token_time_counterexample :
  let chunks :=
    [(1 # 10, ChatCompletionChunk.mk [ChoiceDelta.mk None None] None);
     (2 # 10, Example.says "Hi")] in
  let w' :=
    (response_stream Example.base Example.groq 1
       (World.init [Example.user_says "hi"] [Streams chunks (3 # 10)])).2 in
  Metrics.time_to_first_token <$> World.logged w' = [Some (1 # 10)] /\
  first_content_time chunks = Some (2 # 10) /\
  Some (1 # 10) <> first_content_time chunks.
Proof. vm_compute. repeat split. discriminate. Qed.

(** ** Tool calls are never terminal (C4) *)

Lemma rounds_conversation round dispatch (mkreq : list Message.t -> Request)
    (disp : Message.t -> list Message.t) :
  (forall w am w', round w am w' ->
                   World.sent w' = World.sent w ++ [mkreq (World.messages w)] /\
                   World.messages w' = World.messages w ++ [am]) ->
  (forall am w, World.sent (dispatch am w) = World.sent w /\
                World.messages (dispatch am w) = World.messages w ++ disp am) ->
  forall w ams w', rounds round dispatch w ams w' ->
    exists earlier final,
      ams = earlier ++ [final] /\
      Forall (fun am => carries_tool_calls am = true) earlier /\
      carries_tool_calls final = false /\
      World.sent w' =
        World.sent w ++ map mkreq (conversations disp (World.messages w) ams) /\
      World.messages w' = grown disp (World.messages w) earlier ++ [final].
Proof.
  intros Hround Hdisp w ams w' H.
  induction H as [w am w' Hr Hno
                 | w am w1 ams w' Hr Hyes _ (earlier & final & -> & Hall & Hno & Hs & Hm)].
  - apply Hround in Hr as [Hs Hm]. exists [], am. repeat split; auto.
  - apply Hround in Hr as [Hs1 Hm1].
    destruct (Hdisp am w1) as [Hs2 Hm2].
    exists (am :: earlier), final.
    split; [reflexivity | ]. split; [auto | ]. split; [exact Hno | ].
    rewrite Hs, Hm, Hs2, Hm2, Hs1, Hm1. cbn [conversations map grown foldl].
    rewrite <- !app_assoc. cbn [app]. split; reflexivity.
Qed.

(** *** Calls return: the lifetime dict stays well typed *)

Lemma well_typed_empty : well_typed ∅.
Proof. repeat split. Qed.

Lemma bumped_addable d d' k vs :
  d' !! k = bumped (d !! k) vs -> addable d k -> addable d' k.
Proof.
  unfold addable, bumped. intros ->.
  destruct vs as [ | v vs]; [auto | ].
  destruct (d !! k) as [[x | xs] | ]; cbn; auto.
Qed.

Lemma usage_increments_not_list ou k :
  k = "response_times" \/ k = "time_to_first_token" ->
  increments_for k (usage_increments ou) = [].
Proof.
  destruct ou as [[pt ct tt ctm ptm qtm ttm] | ]; [ | reflexivity].
  intros [-> | ->]; destruct pt, ct, tt, ctm, ptm, qtm, ttm; reflexivity.
Qed.

Lemma metrics_increments_not_list m k :
  k = "response_times" \/ k = "time_to_first_token" ->
  increments_for k (metrics_increments m) = [].
Proof.
  destruct m as [a b c' d e f g h i j l].
  intros [-> | ->]; destruct a, b, c', d, e, h, i, j, l; reflexivity.
Qed.

Lemma reported_keys (P : string -> Prop) keys x :
  Forall P keys -> Forall (fun kv => P kv.1) (reported keys x).
Proof.
  intros H. destruct x as [v | ]; [ | constructor]. cbn.
  induction H; constructor; auto.
Qed.

Ltac counter_key :=
  first [ now exists Counter.input_tokens | now exists Counter.prompt_tokens
        | now exists Counter.output_tokens | now exists Counter.completion_tokens
        | now exists Counter.total_tokens | now exists Counter.completion_time
        | now exists Counter.prompt_time | now exists Counter.queue_time
        | now exists Counter.total_time ].

Ltac counter_keys :=
  cbn [map concat]; unfold field_increments; cbn [f_keys f_value];
  repeat (apply Forall_app; split);
  first [ solve [constructor]
        | apply (reported_keys (fun s => exists k, s = Counter.key k));
          repeat (constructor; [counter_key | ]); constructor ].

Lemma usage_increments_keys ou :
  Forall (fun kv => exists k, kv.1 = Counter.key k) (usage_increments ou).
Proof.
  destruct ou as [u | ]; [ | constructor].
  unfold usage_increments, usage_fields. counter_keys.
Qed.

Lemma metrics_increments_keys m :
  Forall (fun kv => exists k, kv.1 = Counter.key k) (metrics_increments m).
Proof. unfold metrics_increments, metrics_fields. counter_keys. Qed.

(** Appending the elapsed time and tallying increments under counter keys
    returns on a well-typed dict and leaves it well typed. *)
Lemma record_returns (elapsed : Q) incs w :
  well_typed (World.self_metrics w) ->
  Forall (fun kv => exists k, kv.1 = Counter.key k) incs ->
  (forall k, k = "response_times" \/ k = "time_to_first_token" -> increments_for k incs = []) ->
  exists w1 w2,
    self_append "response_times" elapsed w = (Return tt, w1) /\
    tally incs w1 = (Return tt, w2) /\
    well_typed (World.self_metrics w2).
Proof.
  intros (Hadd & Hrt & Hft) Hkeys Hlist.
  destruct (self_append_appendable "response_times" elapsed w Hrt) as (xs & _ & E1).
  set (w1 := World.set_self_metrics _ w) in E1.
  assert (forall k, addable (World.self_metrics w1) (Counter.key k)) as Hadd1.
  { intros k. subst w1. cbn. unfold addable.
    rewrite lookup_insert_ne by (apply not_eq_sym, counter_key_not_list). apply Hadd. }
  destruct (tally_returns incs w1) as (w2 & E2).
  { eapply Forall_impl; [exact Hkeys | ]. intros kv [k ->]. apply Hadd1. }
  exists w1, w2. split; [exact E1 | ]. split; [exact E2 | ].
  split; [ | split].
  - intros k. eapply bumped_addable; [apply (tally_lookup _ _ _ _ E2) | apply Hadd1].
  - unfold appendable. rewrite (tally_lookup _ _ _ _ E2), Hlist by auto.
    subst w1. cbn. now rewrite lookup_insert_eq.
  - unfold appendable. rewrite (tally_lookup _ _ _ _ E2), Hlist by auto.
    subst w1. cbn. now rewrite lookup_insert_ne.
Qed.

Section TotalityFacts.

Context (base : Collaborators) (self : Groq.t).

(** A completion with at least one choice is always turned into an assistant
    message, as long as the lifetime dict is well typed and the per-call
    metrics can be logged. *)
Lemma model_call_returns w elapsed c rest rm :
  well_typed (World.self_metrics w) ->
  World.vendor w = Completes elapsed c :: rest ->
  head (ChatCompletion.choices c) = Some rm ->
  loggable (call_metrics base elapsed (ChatCompletion.usage c)) ->
  exists w',
    model_call base self w =
      (Return (call_message base elapsed rm (ChatCompletion.usage c),
               response_of base (call_message base elapsed rm (ChatCompletion.usage c))),
       w') /\
    well_typed (World.self_metrics w') /\
    World.vendor w' = rest.
Proof.
  intros Hwt Hv Hrm Hlg.
  destruct (record_returns elapsed (usage_increments (ChatCompletion.usage c))
              (requested self false rest w))
    as (w1 & w2 & E1 & E2 & Hwt2);
    auto using usage_increments_keys, usage_increments_not_list.
  eexists. split; [ | split].
  - apply model_call_Return. exists elapsed, c, rest, rm, w1, w2. auto 10.
  - exact Hwt2.
  - pose proof (only_metrics_differ_trans _ _ _
                  (self_append_frame _ _ _ _ _ E1) (tally_frame _ _ _ _ E2)) as Hfr.
    apply only_metrics_differ_fields in Hfr as (_ & Hven & _). exact Hven.
Qed.

Lemma call_message_tool_calls elapsed rm ou :
  carries_tool_calls (call_message base elapsed rm ou) =
  carries_tool_calls (draft_message base rm).
Proof. unfold carries_tool_calls, call_message. now rewrite puts_tool_calls. Qed.

(** Enough fuel gives the result: if the vendor answers with tool calls
    [length asking] times and then without, [response] returns after
    [length asking + 1] model calls, whatever the tools do. *)
Lemma response_returns asking elapsed c rm rest w :
  well_typed (World.self_metrics w) ->
  Forall (asks_for_tools base) asking ->
  head (ChatCompletion.choices c) = Some rm ->
  carries_tool_calls (draft_message base rm) = false ->
  loggable (call_metrics base elapsed (ChatCompletion.usage c)) ->
  World.vendor w = map (fun r => Completes r.1 r.2) asking ++ Completes elapsed c :: rest ->
  exists w',
    response base self (S (length asking)) w =
      (Return (response_of base (call_message base elapsed rm (ChatCompletion.usage c))), w').
Proof.
  intros Hwt Hall Hrm Hno Hlg. revert w Hwt.
  induction Hall as [ | [el c1] asking (Hlg1 & rm1 & Hrm1 & Hyes) _ IH]; intros w Hwt Hv.
  - destruct (model_call_returns w elapsed c rest rm Hwt Hv Hrm Hlg) as (w' & E & _).
    exists w'. rewrite response_S, E, call_message_tool_calls, Hno. reflexivity.
  - cbn [map app fst snd] in Hv, Hlg1.
    destruct (model_call_returns w el c1 _ rm1 Hwt Hv Hrm1 Hlg1) as (w1 & E & Hwt1 & Hv1).
    cbn [length]. rewrite response_S, E, call_message_tool_calls, Hyes.
    apply IH; auto.
Qed.

End TotalityFacts.

Section StreamTotalityFacts.

Context (base : Collaborators) (self : Groq.t).

(** A stream whose loop does not raise is always turned into an assistant
    message, as long as the lifetime dict is well typed and the per-call
    metrics can be logged. *)
Lemma stream_call_returns w chunks elapsed rest m :
  well_typed (World.self_metrics w) ->
  World.vendor w = Streams chunks elapsed :: rest ->
  stream_metrics base chunks elapsed = Some m ->
  loggable m ->
  exists am w',
    stream_call base self w = (Return am, w') /\
    Message.tool_calls am =
      Message.tool_calls (assemble base (data_after chunks StreamData.new)) /\
    well_typed (World.self_metrics w') /\
    World.vendor w' = rest.
Proof.
  intros (Hadd & Hrt & Hft) Hv Hm Hlg.
  set (w0 := yields (contents chunks) (requested self true rest w)).
  destruct (self_append_appendable "response_times" elapsed w0 Hrt) as (xs & _ & E1).
  set (w1 := World.set_self_metrics _ w0) in E1.
  assert (well_typed (World.self_metrics w1)) as (Hadd1 & Hrt1 & Hft1).
  { subst w1. cbn. split; [ | split].
    - intros k. unfold addable.
      rewrite lookup_insert_ne by (apply not_eq_sym, counter_key_not_list). apply Hadd.
    - unfold appendable. now rewrite lookup_insert_eq.
    - unfold appendable. now rewrite lookup_insert_ne. }
  set (am0 := Message.put "time" (Py.Num (Py.Float elapsed))
                (assemble base (data_after chunks StreamData.new))).
  assert (exists am1 w2,
             first_token_block m am0 w1 = (Return am1, w2) /\
             well_typed (World.self_metrics w2)) as (am1 & w2 & E2 & Hwt2).
  { unfold first_token_block. destruct (Metrics.time_to_first_token m) as [t | ].
    - destruct (self_append_appendable "time_to_first_token" t w1 Hft1) as (ys & _ & E).
      eexists _, _. split; [now erewrite mbind_Return by exact E | ].
      cbn. split; [ | split].
      + intros k. unfold addable.
        rewrite lookup_insert_ne by (apply not_eq_sym, counter_key_not_list). apply Hadd1.
      + unfold appendable. now rewrite lookup_insert_ne.
      + unfold appendable. now rewrite lookup_insert_eq.
    - exists am0, w1. repeat split; auto. }
  destruct Hwt2 as (Hadd2 & Hrt2 & Hft2).
  destruct (tally_returns (metrics_increments m) w2) as (w3 & E3).
  { eapply Forall_impl; [apply metrics_increments_keys | ]. intros kv [k ->]. apply Hadd2. }
  eexists _, _. split; [ | split; [ | split]].
  - apply stream_call_Return. exists chunks, elapsed, rest, m, w1, am1, w2, w3. auto 10.
  - rewrite puts_tool_calls.
    now destruct (first_token_block_inv _ _ _ _ _ E2) as (_ & _ & _ & -> & _).
  - cbn. split; [ | split].
    + intros k. eapply bumped_addable; [apply (tally_lookup _ _ _ _ E3) | apply Hadd2].
    + unfold appendable.
      rewrite (tally_lookup _ _ _ _ E3), metrics_increments_not_list by auto. apply Hrt2.
    + unfold appendable.
      rewrite (tally_lookup _ _ _ _ E3), metrics_increments_not_list by auto. apply Hft2.
  - pose proof (self_append_frame _ _ _ _ _ E1) as F1.
    pose proof (proj1 (first_token_block_inv _ _ _ _ _ E2)) as F2.
    pose proof (tally_frame _ _ _ _ E3) as F3.
    pose proof (only_metrics_differ_trans _ _ _ (only_metrics_differ_trans _ _ _ F1 F2) F3)
      as Hfr.
    apply only_metrics_differ_fields in Hfr as (_ & Hven & _). exact Hven.
Qed.

(** Enough fuel gives the result, streaming. *)
Lemma response_stream_returns asking chunks elapsed rest w :
  well_typed (World.self_metrics w) ->
  Forall (streams_tools base) asking ->
  stream_logs base chunks elapsed ->
  carries_tool_calls (assemble base (data_after chunks StreamData.new)) = false ->
  World.vendor w = map (fun r => Streams r.1 r.2) asking ++ Streams chunks elapsed :: rest ->
  exists w', response_stream base self (S (length asking)) w = (Return tt, w').
Proof.
  intros Hwt Hall (m & Hm & Hlg) Hno. revert w Hwt.
  induction Hall as [ | [chunks1 el] asking ((m1 & Hm1 & Hlg1) & Hyes) _ IH]; intros w Hwt Hv.
  - destruct (stream_call_returns w chunks elapsed rest m Hwt Hv Hm Hlg)
      as (am & w' & E & Htc & _).
    exists w'. rewrite response_stream_S, E. unfold carries_tool_calls in *.
    now rewrite Htc, Hno.
  - cbn [map app fst snd] in Hv, Hm1, Hyes.
    destruct (stream_call_returns w chunks1 el _ m1 Hwt Hv Hm1 Hlg1)
      as (am & w1 & E & Htc & Hwt1 & Hv1).
    cbn [length]. rewrite response_stream_S, E. unfold carries_tool_calls in *.
    rewrite Htc, Hyes. apply IH; auto.
Qed.

End StreamTotalityFacts.

(** *** The statement *)

(** C4.  A call of [response] that returns has gone through a sequence of
    model calls of which every assistant message but the last carries tool
    calls and the last carries none; after each of the former the tool
    results were dispatched into the conversation and a follow-up request
    was made with the enlarged conversation; the response returned is the
    one built from the last assistant message.  The same holds for the
    rounds of [response_stream].  And such calls do return: when the vendor
    answers with tool calls a number of times and then without, one unit of
    fuel per model call is enough, provided [Metrics.log] can print the
    per-call metrics of every round (there is a number of output tokens and
    the timer does not read zero; otherwise the call raises there). *)
Theorem tool_calls_never_terminal base self fuel w w' :
  (forall r,
      response base self fuel w = (Return r, w') ->
      exists earlier final,
        Forall (fun am => carries_tool_calls am = true) earlier /\
        carries_tool_calls final = false /\
        r = response_of base final /\
        World.messages w' = grown (dispatched base) (World.messages w) earlier ++ [final] /\
        World.sent w' =
          World.sent w ++
          map (fun msgs => Build_Request (Groq.id self) msgs false)
              (conversations (dispatched base) (World.messages w) (earlier ++ [final]))) /\
  (response_stream base self fuel w = (Return tt, w') ->
   exists earlier final,
     Forall (fun am => carries_tool_calls am = true) earlier /\
     carries_tool_calls final = false /\
     World.messages w' = grown (dispatched base) (World.messages w) earlier ++ [final] /\
     World.sent w' =
       World.sent w ++
       map (fun msgs => Build_Request (Groq.id self) msgs true)
           (conversations (dispatched base) (World.messages w) (earlier ++ [final]))) /\
  (forall asking elapsed c rm rest,
      well_typed (World.self_metrics w) ->
      Forall (asks_for_tools base) asking ->
      head (ChatCompletion.choices c) = Some rm ->
      carries_tool_calls (draft_message base rm) = false ->
      loggable (call_metrics base elapsed (ChatCompletion.usage c)) ->
      World.vendor w = map (fun r => Completes r.1 r.2) asking ++ Completes elapsed c :: rest ->
      exists w'',
        response base self (S (length asking)) w =
        (Return (response_of base (call_message base elapsed rm (ChatCompletion.usage c))),
         w'')) /\
  (forall asking chunks elapsed rest,
      well_typed (World.self_metrics w) ->
      Forall (streams_tools base) asking ->
      stream_logs base chunks elapsed ->
      carries_tool_calls (assemble base (data_after chunks StreamData.new)) = false ->
      World.vendor w = map (fun r => Streams r.1 r.2) asking ++ Streams chunks elapsed :: rest ->
      exists w'', response_stream base self (S (length asking)) w = (Return tt, w'')).
Proof.
  split; [ | split; [ | split]].
  - intros r H.
    apply response_rounds in H as (ams & final' & Hr & _ & Hlast & ->).
    eapply (rounds_conversation _ _
              (fun msgs => Build_Request (Groq.id self) msgs false) (dispatched base))
      in Hr as (earlier & final & -> & Hall & Hno & Hs & Hm).
    + rewrite last_snoc in Hlast. injection Hlast as <-.
      exists earlier, final. auto 6.
    + intros w0 am w1 [mr H]. apply model_call_effect in H
        as (? & ? & ? & ? & _ & _ & _ & _ & _ & Hs & Hm & _). auto.
    + intros am w0. split; reflexivity.
  - intros H.
    apply stream_rounds in H as (ams & Hr & _).
    eapply (rounds_conversation _ _
              (fun msgs => Build_Request (Groq.id self) msgs true) (dispatched base))
      in Hr as (earlier & final & -> & Hall & Hno & Hs & Hm).
    + exists earlier, final. auto 6.
    + intros w0 am w1 H. apply stream_call_effect in H
        as (? & ? & ? & ? & _ & _ & _ & _ & _ & _ & Hs & Hm & _). auto.
    + intros am w0. split; reflexivity.
  - intros. eapply response_returns; eauto.
  - intros. eapply response_stream_returns; eauto.
Qed.

Lemma tool_calls_witness :
  let w :=
    World.init [Example.user_says "weather?"]
      [Completes (1 # 2) (Example.asks_tool "call_1" "get_weather" Example.no_usage);
       Completes (1 # 3) (Example.answers "sunny" Example.no_usage)] in
  let out := response Example.base Example.groq 2 w in
  let asks := [(1 # 10, Example.calls "call_1" "get_weather"); (2 # 10, Example.reports 9 4 13)] in
  let tells := [(1 # 10, Example.says "sunny"); (2 # 10, Example.reports 20 1 21)] in
  let streamed :=
    World.init [Example.user_says "weather?"] [Streams asks (2 # 10); Streams tells (2 # 10)] in
  (exists earlier final,
      Forall (fun am => carries_tool_calls am = true) earlier /\
      carries_tool_calls final = false /\
      out.1 = Return (response_of Example.base final) /\
      World.messages out.2 =
        grown (dispatched Example.base) (World.messages w) earlier ++ [final]) /\
  (exists w', response_stream Example.base Example.groq 2 streamed = (Return tt, w')).
Proof.
  intros w out asks tells streamed. split.
  - destruct (tool_calls_never_terminal Example.base Example.groq 2 w out.2) as (H & _).
    destruct (H (ModelResponse.mk (Some "sunny") None))
      as (earlier & final & H1 & H2 & H3 & H4 & _).
    + vm_compute. reflexivity.
    + exists earlier, final. repeat split; auto.
      rewrite <- H3. vm_compute. reflexivity.
  - destruct (tool_calls_never_terminal Example.base Example.groq 2 streamed streamed)
      as (_ & _ & _ & H).
    apply (H [(asks, 2 # 10)] tells (2 # 10) []).
    + apply well_typed_empty.
    + constructor; [ | constructor]. split; [ | reflexivity].
      eexists. split; [vm_compute; reflexivity | ].
      split; [eexists; reflexivity | discriminate].
    + eexists. split; [vm_compute; reflexivity | ].
      split; [eexists; reflexivity | discriminate].
    + reflexivity.
    + reflexivity.
Defined.

(** ** Streamed content (C1) *)

Section StreamedFacts.

Context (base : Collaborators) (self : Groq.t).

Lemma assemble_content sd :
  Message.content (assemble base sd) = nonempty (StreamData.response_content sd).
Proof.
  unfold assemble, nonempty.
  destruct (String.eqb _ _), (StreamData.response_tool_calls sd) as [fr | ];
    try destruct (_build_tool_calls base fr); reflexivity.
Qed.

Lemma stream_rounds_trace w ams w' :
  rounds (stream_round base self) (stream_dispatch base) w ams w' ->
  exists rs : list Round,
    map snd rs = ams /\
    World.vendor w = map (fun r => Streams r.1.1 r.1.2) rs ++ World.vendor w' /\
    Forall round_ok rs /\
    World.messages w' = World.messages w ++ concat (map (fun r => round_messages base r.2) rs) /\
    World.yielded w' =
      World.yielded w ++
      concat (map (fun r => map ModelResponse.of_content (contents r.1.1) ++ round_events base r.2)
                  rs).
Proof.
  induction 1 as [w am w' Hr Hno
                 | w am w1 ams w' Hr Hyes _ (rs & Hams & Hv & Hok & Hm & Hy)].
  - apply stream_call_effect in Hr
      as (chunks & elapsed & rest & m & Hv & _ & Hrole & Hc & _ & Hv' & _ & Hm & _ & Hy & _).
    exists [(chunks, elapsed, am)]. cbn.
    unfold round_messages, round_events. rewrite Hno, !app_nil_r.
    repeat split; auto.
    + now rewrite Hv, Hv'.
    + constructor; [ | constructor]. split; [exact Hrole | ].
      cbn. now rewrite Hc, assemble_content, data_after_content.
  - apply stream_call_effect in Hr
      as (chunks & elapsed & rest & m & Hv1 & _ & Hrole & Hc & _ & Hv1' & _ & Hm1 & _ & Hy1 & _).
    exists ((chunks, elapsed, am) :: rs). cbn.
    unfold round_messages at 1, round_events at 1. rewrite Hyes.
    cbn in Hv, Hm, Hy. rewrite Hm, Hy, Hm1, Hy1, Hv1, <- Hv, Hv1'.
    rewrite <- !app_assoc. cbn.
    repeat split; auto.
    + now rewrite Hams.
    + constructor; [ | exact Hok]. split; [exact Hrole | ].
      cbn. now rewrite Hc, assemble_content, data_after_content.
Qed.

End StreamedFacts.

(** C1, as amended.  A streaming call that runs to completion went through
    one or more rounds, each consuming one chunk stream of the vendor.  In
    every round the content fragments are yielded one by one in the vendor's
    emission order, and the assistant message appended for the round has
    their full concatenation as its content whenever that concatenation is
    not empty; when it is empty (no chunk carried content, or only empty
    strings) the message has no content at all ([None]). *)
Theorem stream_content_is_concatenation base self fuel w w' :
  response_stream base self fuel w = (Return tt, w') ->
  exists rs : list Round,
    World.vendor w = map (fun r => Streams r.1.1 r.1.2) rs ++ World.vendor w' /\
    Forall (fun r => Message.role r.2 = "assistant" /\
                     Message.content r.2 = nonempty (join (contents r.1.1))) rs /\
    World.messages w' =
      World.messages w ++ concat (map (fun r => round_messages base r.2) rs) /\
    World.yielded w' =
      World.yielded w ++
      concat (map (fun r => map ModelResponse.of_content (contents r.1.1)
                              ++ round_events base r.2) rs).
Proof.
  intros H. apply stream_rounds in H as (ams & Hr & _).
  apply stream_rounds_trace in Hr as (rs & _ & Hv & Hok & Hm & Hy).
  exists rs. auto.
Qed.

Lemma stream_content_witness :
  let w := World.init [Example.user_says "hi"] [Example.hello_world] in
  let w' := (response_stream Example.base Example.groq 1 w).2 in
  exists rs : list Round,
    World.vendor w = map (fun r => Streams r.1.1 r.1.2) rs ++ World.vendor w' /\
    Forall (fun r => Message.role r.2 = "assistant" /\
                     Message.content r.2 = nonempty (join (contents r.1.1))) rs /\
    World.messages w' =
      World.messages w ++ concat (map (fun r => round_messages Example.base r.2) rs) /\
    World.yielded w' =
      World.yielded w ++
      concat (map (fun r => map ModelResponse.of_content (contents r.1.1)
                              ++ round_events Example.base r.2) rs).
Proof.
  intros w w'.
  apply (stream_content_is_concatenation Example.base Example.groq 1 w w').
  vm_compute. reflexivity.
Defined.

(** C1 as stated fails when the concatenation is empty: the vendor streams
    one chunk whose content is the empty string; it is yielded, the
    concatenation of what was yielded is the empty string, and the appended
    assistant message has content [None], which is not that string. *)
Lemma stream_content_counterexample :
  let w := World.init [Example.user_says "hi"]
             [Streams [(1 # 10, Example.says "")] (1 # 5)] in
  let out := response_stream Example.base Example.groq 1 w in
  out.1 = Return tt /\
  World.yielded out.2 = [ModelResponse.of_content ""] /\
  Message.content <$> last (World.messages out.2) = Some None /\
  Message.content <$> last (World.messages out.2) <>
    Some (Some (join (omap ModelResponse.content (World.yielded out.2)))).
Proof. vm_compute. repeat split. discriminate. Qed.

(** ** Lifetime totals are sums of per-call values (C6) *)

Lemma bumped_app o a b : bumped (bumped o a) b = bumped o (a ++ b).
Proof.
  destruct a as [ | x a]; [reflexivity | ].
  unfold bumped at 2 3. cbn [app].
  destruct (default (Py.Num (Py.Int 0)) o) as [n | xs] eqn:E.
  - destruct b as [ | y b]; [now rewrite app_nil_r | ].
    cbn. now rewrite foldl_app.
  - unfold bumped. rewrite E. now destruct b.
Qed.

Lemma omap_singleton {A B} (f : A -> option B) (x : A) : omap f [x] = option_list (f x).
Proof. cbn. now destruct (f x). Qed.

Lemma accounted_refl k w : accounted k w w.
Proof. exists [], []. rewrite app_nil_r. repeat split; auto. Qed.

Lemma accounted_same k w w' :
  World.vendor w' = World.vendor w -> World.logged w' = World.logged w ->
  World.self_metrics w' = World.self_metrics w -> accounted k w w'.
Proof.
  intros Hv Hl Hm. exists [], []. rewrite Hv, Hl, Hm, app_nil_r. repeat split; auto.
Qed.

Lemma accounted_trans k w1 w2 w3 :
  accounted k w1 w2 -> accounted k w2 w3 -> accounted k w1 w3.
Proof.
  intros (c1 & m1 & Hv1 & Hl1 & Hn1 & H1) (c2 & m2 & Hv2 & Hl2 & Hn2 & H2).
  exists (c1 ++ c2), (m1 ++ m2).
  rewrite Hv1, Hv2, Hl2, Hl1, !length_app, <- !app_assoc.
  do 2 (split; [reflexivity | ]). split; [lia | ]. intros H. split.
  - apply Forall_app in H as [Ha Hb]. apply Forall_app. split; [apply H1 | apply H2]; auto.
  - apply Forall_app in H as [Ha Hb].
    destruct (H2 Hb) as [_ ->]. destruct (H1 Ha) as [_ ->].
    now rewrite bumped_app, omap_app.
Qed.

Section Accounting.

Context (base : Collaborators) (self : Groq.t) (k : Counter.t).

Lemma model_round_accounted w am w' :
  model_round base self w am w' -> accounted k w w'.
Proof.
  intros [mr H]. apply model_call_effect in H
    as (elapsed & c & rest & rm & Hv & _ & _ & _ & Hv' & _ & _ & Hl & _ & Hk).
  exists [Completes elapsed c], [call_metrics base elapsed (ChatCompletion.usage c)].
  rewrite Hv, Hv', Hl. do 3 (split; [reflexivity | ]). intros H. split.
  - inversion H as [ | ? ? Hrep _]; subst. cbn [reports] in Hrep.
    destruct Hrep as [v Hrep]. constructor; [ | constructor].
    unfold call_metrics, reported_value in *.
    destruct (ChatCompletion.usage c) as [u | ]; [ | discriminate].
    cbn in Hrep. rewrite usage_metrics_counter, Hrep. cbn. eauto.
  - inversion H as [ | ? ? Hrep _]; subst. cbn [reports] in Hrep.
    destruct Hrep as [v Hrep]. rewrite Hk, Hrep, omap_singleton.
    unfold call_metrics, reported_value in *.
    destruct (ChatCompletion.usage c) as [u | ]; [ | discriminate].
    cbn [mbind option_bind] in Hrep. now rewrite usage_metrics_counter, Hrep.
Qed.

Lemma stream_round_accounted w am w' :
  stream_round base self w am w' -> accounted k w w'.
Proof.
  intros H. apply stream_call_effect in H
    as (chunks & elapsed & rest & m & Hv & Hm & _ & _ & _ & Hv' & _ & _ & Hl & _ & Hk).
  exists [Streams chunks elapsed], [m].
  rewrite Hv, Hv', Hl. do 3 (split; [reflexivity | ]). intros H. split.
  - inversion H as [ | ? ? Hrep _]; subst. cbn [reports] in Hrep.
    destruct Hrep as (front & now & last & u & -> & Hu & [v Hrep]).
    constructor; [ | constructor].
    unfold stream_metrics in Hm.
    destruct (metrics_after _ _) as [m0 | ] eqn:Hm0; [ | discriminate].
    injection Hm as <-. rewrite set_response_timer_counter.
    rewrite (metrics_after_final_usage _ _ _ _ _ _ k Hm0 Hu), Hrep. eauto.
  - now rewrite Hk, omap_singleton.
Qed.

Lemma response_accounted fuel w r w' :
  response base self fuel w = (Return r, w') -> accounted k w w'.
Proof.
  intros H. apply response_rounds in H as (ams & _ & Hr & _).
  eapply rounds_preserve in Hr; eauto using accounted_trans, model_round_accounted.
  intros am w0. now apply accounted_same.
Qed.

Lemma response_stream_accounted fuel w w' :
  response_stream base self fuel w = (Return tt, w') -> accounted k w w'.
Proof.
  intros H. apply stream_rounds in H as (ams & Hr & _).
  eapply rounds_preserve in Hr; eauto using accounted_trans, stream_round_accounted.
  intros am w0. now apply accounted_same.
Qed.

Lemma call_accounted fuel c w w' :
  call base self fuel c w = (Return tt, w') -> accounted k w w'.
Proof.
  destruct c as [ms | ms]; cbn [call]; intros H;
    apply mbind_inv_Return in H as ([] & w1 & [= <-] & H).
  - apply mbind_inv_Return in H as (r & w2 & H & [= <-]).
    eapply accounted_trans; [ | eapply response_accounted; eauto].
    now apply accounted_same.
  - eapply accounted_trans; [ | eapply response_stream_accounted; eauto].
    now apply accounted_same.
Qed.

Lemma session_accounted fuel cs w w' :
  session base self fuel cs w = (Return tt, w') -> accounted k w w'.
Proof.
  revert w. induction cs as [ | c cs IH]; intros w; cbn [session].
  - intros [= <-]. apply accounted_refl.
  - intros H. apply mbind_inv_Return in H as ([] & w1 & Hc & H).
    eapply accounted_trans; [eapply call_accounted | eapply IH]; eauto.
Qed.

End Accounting.

(** C6.  After any sequence of completed calls on one adapter instance,
    streamed or not, as many per-call metrics were produced as vendor replies
    were consumed; and for every counter that the vendor reported in all of
    them, each per-call metrics has a value for the counter and the
    adapter's lifetime entry is its value before the calls plus these N
    values, added in the order of the calls.  On an adapter for which the
    counter was never recorded before it is their sum. *)
Theorem lifetime_is_sum_of_calls base self fuel calls k w w' :
  session base self fuel calls w = (Return tt, w') ->
  exists consumed ms,
    World.vendor w = consumed ++ World.vendor w' /\
    World.logged w' = World.logged w ++ ms /\
    length ms = length consumed /\
    (Forall (reports k) consumed ->
     exists vs,
       Forall2 (fun m v => Counter.of_metrics k m = Some v) ms vs /\
       World.self_metrics w' !! Counter.key k =
         bumped (World.self_metrics w !! Counter.key k) vs /\
       (World.self_metrics w !! Counter.key k = None -> vs <> [] ->
        World.self_metrics w' !! Counter.key k = Some (Py.Num (Py.sum vs)))).
Proof.
  intros H. apply (session_accounted base self k) in H
    as (consumed & ms & Hv & Hl & Hn & H).
  exists consumed, ms. repeat split; auto.
  intros Hrep. destruct (H Hrep) as [Hall Hk].
  exists (omap (Counter.of_metrics k) ms). split; [ | split].
  - clear -Hall. induction Hall as [ | m ms [v Hv] _ IH]; cbn; [constructor | ].
    rewrite Hv. cbn. constructor; auto.
  - exact Hk.
  - intros Hnone Hne. rewrite Hk, Hnone. unfold bumped, Py.sum.
    now destruct (omap _ ms).
Qed.

Lemma lifetime_is_sum_witness :
  let script :=
    [Completes (1 # 2) (Example.answers "hello" (Example.usage 5 2 7)); Example.hello_world] in
  let w := World.init [] script in
  let w' :=
    (session Example.base Example.groq 1
       [Plain [Example.user_says "hi"]; Streamed [Example.user_says "hi again"]] w).2 in
  exists vs,
    Forall2 (fun m v => Counter.of_metrics Counter.total_tokens m = Some v)
            (World.logged w') vs /\
    World.self_metrics w' !! "total_tokens" = Some (Py.Num (Py.sum vs)) /\
    Py.sum vs = Py.Int 14.
Proof.
  intros script w w'.
  destruct (lifetime_is_sum_of_calls Example.base Example.groq 1
              [Plain [Example.user_says "hi"]; Streamed [Example.user_says "hi again"]]
              Counter.total_tokens w w')
    as (consumed & ms & Hv & Hl & Hn & H).
  { vm_compute. reflexivity. }
  assert (World.vendor w' = []) as Hend by (vm_compute; reflexivity).
  rewrite Hend, app_nil_r in Hv. cbn in Hv. subst consumed.
  destruct H as (vs & Hvs & Hk & Hsum).
  { constructor; [cbn; eauto | ]. constructor; [ | constructor].
    exists [(1 # 10, Example.says "Hello"); (2 # 10, Example.says " world")].
    do 3 eexists. split; [reflexivity | ]. split; [reflexivity | ]. cbn. eauto. }
  exists vs. cbn in Hl. rewrite Hl. split; [exact Hvs | ].
  assert (vs <> []) as Hne.
  { intros ->. apply Forall2_length in Hvs. cbn in Hn. rewrite Hn in Hvs. discriminate. }
  pose proof (Hsum eq_refl Hne) as Hk'. split; [exact Hk' | ].
  change (Counter.key Counter.total_tokens) with "total_tokens" in Hk'.
  assert (World.self_metrics w' !! "total_tokens" = Some (Py.Num (Py.Int 14))) as E
    by (vm_compute; reflexivity).
  rewrite E in Hk'. now injection Hk' as <-.
Defined.

(** ** Retries of the PDF-URL reader (C8) *)

Ltac run_reader :=
  repeat progress
    (cbn [PdfUrl.fetch seq Nat.eqb Nat.pow Nat.mul Nat.add PdfUrl.network PdfUrl.slept
          PdfUrl.log];
     unfold mbind, M_bind, bind, PdfUrl.logger, PdfUrl.sleep, modify, PdfUrl.httpx_get,
       mret, M_ret, ret, raise).

Section PdfRetries.

Import PdfUrl.

Context (lib : Library) (self : Reader).

(** Two transient failures, then a response: the reader waits 1 s and 2 s,
    logs two warnings and no error, and returns the documents of the parsed
    pages (chunked if asked to); no exception reaches the caller. *)
Lemma read_succeeds_on_third_attempt url e1 e2 response rest pages w :
  url <> "" ->
  network w = Unreachable e1 :: Unreachable e2 :: Fetched response :: rest ->
  is_error_status lib (status_code response) = false ->
  page_texts lib (body response) = Some pages ->
  exists w',
    read lib self url w =
      (Return (let documents :=
                 imap (fun i text => _build_document (document_name url) (S i) text) pages in
               if chunk self then _build_chunked_documents lib documents else documents),
       w') /\
    network w' = rest /\
    slept w' = slept w ++ [1; 2] /\
    log w' =
      log w ++ [(Info, "Reading: " +:+ url);
                (Warning, "Request failed, retrying in 1 seconds...");
                (Warning, "Request failed, retrying in 2 seconds...")].
Proof.
  intros Hurl Hnet Hok Hpages. unfold read.
  destruct (String.eqb_spec url "") as [? | _]; [contradiction | ].
  run_reader. rewrite Hnet. run_reader. rewrite Hok. run_reader. rewrite Hpages.
  destruct (chunk self); eexists; (split; [reflexivity | ]); cbn;
    rewrite <- !app_assoc; auto.
Qed.

(** A response at the first attempt: no wait, no warning. *)
Lemma read_succeeds_at_once url response rest pages w :
  url <> "" ->
  network w = Fetched response :: rest ->
  is_error_status lib (status_code response) = false ->
  page_texts lib (body response) = Some pages ->
  exists docs w',
    read lib self url w = (Return docs, w') /\ slept w' = slept w.
Proof.
  intros Hurl Hnet Hok Hpages. unfold read.
  destruct (String.eqb_spec url "") as [? | _]; [contradiction | ].
  run_reader. rewrite Hnet. run_reader. rewrite Hok. run_reader. rewrite Hpages.
  destruct (chunk self); eexists _, _; (split; [reflexivity | ]); reflexivity.
Qed.

(** Three transient failures: the third is re-raised at once.  The reader
    has fetched three times and waited twice, 1 s and 2 s; whatever the
    network would have answered next is never asked for. *)
Lemma read_gives_up_at_third_failure url e1 e2 e3 rest w :
  url <> "" ->
  network w = Unreachable e1 :: Unreachable e2 :: Unreachable e3 :: rest ->
  exists w',
    read lib self url w = (Raise (Py.RequestError e3), w') /\
    network w' = rest /\
    slept w' = slept w ++ [1; 2].
Proof.
  intros Hurl Hnet. unfold read.
  destruct (String.eqb_spec url "") as [? | _]; [contradiction | ].
  run_reader. rewrite Hnet. run_reader.
  eexists. split; [reflexivity | ]. cbn. rewrite <- !app_assoc. auto.
Qed.

End PdfRetries.

(** C8, the code at the failing input.  The network fails three times and
    would answer at the fourth fetch.  [read] raises the third failure after
    having waited 1 s and 2 s: there is no third retry and no 4 s wait, and
    the fourth answer is still pending. *)
Theorem read_never_waits_four_seconds :
  let ok := PdfUrl.Build_Response 200 "page one" "page one" in
  let w :=
    PdfUrl.fresh [PdfUrl.Unreachable "timeout"; PdfUrl.Unreachable "timeout";
                  PdfUrl.Unreachable "timeout"; PdfUrl.Fetched ok] in
  let out :=
    PdfUrl.read PdfUrl.lib (PdfUrl.Build_Reader false) "https://example.com/paper.pdf" w in
  out.1 = Raise (Py.RequestError "timeout") /\
  PdfUrl.slept out.2 = [1; 2] /\
  PdfUrl.network out.2 = [PdfUrl.Fetched ok] /\
  4 ∉ PdfUrl.slept out.2.
Proof.
  vm_compute. repeat split.
  intros H. repeat (apply elem_of_cons in H as [H | H]; [discriminate | ]).
  now apply elem_of_nil in H.
Qed.

(** ** Request parameters (C9) *)

Lemma lookup_set_if_eq k v d :
  set_if k v d !! k = if Py.truthy v then Some v else d !! k.
Proof. unfold set_if. destruct (Py.truthy v); [apply lookup_insert_eq | reflexivity]. Qed.

Lemma lookup_set_if_ne k k' v d : k <> k' -> set_if k v d !! k' = d !! k'.
Proof. unfold set_if. intros H. destruct (Py.truthy v); [now apply lookup_insert_ne | reflexivity]. Qed.

Lemma set_if_falsy k v d : Py.truthy v = false -> set_if k v d = d.
Proof. unfold set_if. now intros ->. Qed.

Lemma set_if_agree p q k a b :
  differ_at_most_in p a b ->
  Py.truthy (Param.value p a) = false -> Py.truthy (Param.value p b) = false ->
  forall d, set_if k (Param.value q a) d = set_if k (Param.value q b) d.
Proof.
  intros (Hq & _) Ha Hb d. destruct (decide (q = p)) as [-> | Hne].
  - now rewrite !set_if_falsy.
  - now rewrite (Hq q Hne).
Qed.

Lemma lookup_tools_block (self : Groq.t) (d : gmap string Py.obj) k :
  k <> "tools" -> k <> "tool_choice" ->
  (if Py.truthy (Groq.tools self)
   then
     let request_params := <["tools" := Groq.tools self]> d in
     match Groq.tool_choice self with
     | Py.ONone => <["tool_choice" := Py.OStr "auto"]> request_params
     | tool_choice => <["tool_choice" := tool_choice]> request_params
     end
   else d) !! k = d !! k.
Proof.
  intros H1 H2. destruct (Py.truthy (Groq.tools self)); [ | reflexivity].
  cbv zeta. destruct (Groq.tool_choice self); now rewrite !lookup_insert_ne.
Qed.

Ltac lookup_param :=
  repeat first
    [ rewrite lookup_set_if_eq
    | rewrite lookup_set_if_ne by discriminate
    | rewrite lookup_insert_ne by discriminate
    | rewrite lookup_empty ].

(** C9, as amended.  [request_kwargs] puts a request parameter into the
    vendor request, under its own name and with its own value, if and only if
    the value is truthy, unless the adapter's [request_params] mapping, which
    is merged in last, supplies that key itself.  And a falsy value ([0.0],
    [0], [False], an empty string or container) is the same as [None]: two
    adapters that differ only in one parameter, falsy in both, issue the same
    request. *)
Theorem request_kwargs_truthy p self :
  (not_overridden (Param.key p) self ->
   request_kwargs self !! Param.key p =
   if Py.truthy (Param.value p self) then Some (Param.value p self) else None) /\
  (forall other,
      differ_at_most_in p self other ->
      Py.truthy (Param.value p self) = false ->
      Py.truthy (Param.value p other) = false ->
      request_kwargs self = request_kwargs other).
Proof.
  split.
  - intros Hno. unfold request_kwargs, not_overridden in *.
    assert (forall d : gmap string Py.obj,
               match Groq.request_params self with
               | Some extra => if decide (extra = ∅) then d else extra ∪ d
               | None => d
               end !! Param.key p = d !! Param.key p) as ->.
    { intros d. destruct (Groq.request_params self) as [extra | ]; [ | reflexivity].
      destruct (decide (extra = ∅)); [reflexivity | ].
      rewrite lookup_union_r; auto. }
    rewrite lookup_tools_block by (destruct p; discriminate).
    destruct p; cbn [Param.key Param.value]; lookup_param;
      match goal with |- context [Py.truthy ?v] => now destruct (Py.truthy v) end.
  - intros other Hdiff Hself Hother.
    pose proof Hdiff as (_ & Htools & Hchoice & Hextra).
    unfold request_kwargs. rewrite Htools, Hchoice, Hextra.
    pose proof (fun q k => set_if_agree p q k self other Hdiff Hself Hother) as H.
    pose proof (H Param.frequency_penalty "frequency_penalty") as H1.
    pose proof (H Param.logit_bias "logit_bias") as H2.
    pose proof (H Param.logprobs "logprobs") as H3.
    pose proof (H Param.max_tokens "max_tokens") as H4.
    pose proof (H Param.presence_penalty "presence_penalty") as H5.
    pose proof (H Param.response_format "response_format") as H6.
    pose proof (H Param.seed "seed") as H7.
    pose proof (H Param.stop "stop") as H8.
    pose proof (H Param.temperature "temperature") as H9.
    pose proof (H Param.top_logprobs "top_logprobs") as H10.
    pose proof (H Param.top_p "top_p") as H11.
    pose proof (H Param.user "user") as H12.
    pose proof (H Param.extra_headers "extra_headers") as H13.
    pose proof (H Param.extra_query "extra_query") as H14.
    cbn [Param.value] in H1, H2, H3, H4, H5, H6, H7, H8, H9, H10, H11, H12, H13, H14.
    cbv zeta.
    now rewrite H1, H2, H3, H4, H5, H6, H7, H8, H9, H10, H11, H12, H13, H14.
Qed.

Lemma request_kwargs_truthy_witness :
  request_kwargs cold !! "temperature" = None /\
  request_kwargs cold = request_kwargs (Groq.default "llama3").
Proof.
  destruct (request_kwargs_truthy Param.temperature cold) as [Hin Hsame].
  split.
  - exact (Hin I).
  - apply Hsame; try reflexivity.
    split; [ | repeat split].
    intros q Hq. destruct q; try reflexivity. contradiction.
Defined.

(** C9 as stated fails: the adapter's [temperature] is [None], hence not
    truthy, and the request carries a temperature all the same, the one in
    the adapter's [request_params]. *)
Lemma request_kwargs_counterexample :
  Py.truthy (Groq.temperature overridden) = false /\
  request_kwargs overridden !! "temperature" = Some (Py.OFloat (7 # 10)).
Proof. split; reflexivity. Qed.

(** ** The version counter of the MongoDB storage (C10) *)

Section MongoVersionFacts.

Import Mongo.

Lemma versioned_inr add_one session v :
  next_version session = Some v ->
  exists d,
    versioned add_one session = inr d /\
    d !! "_version" = Some (Int v) /\
    d !! "session_id" = filed_under session /\
    (forall k, k <> "_version" -> k <> "session_id" -> d !! k = to_dict session !! k).
Proof.
  unfold next_version, versioned, filed_under.
  destruct (session_id session) as [s | canonical].
  - destruct (to_dict session !! "_version") as [[z | | | ] | ] eqn:E;
      intros [= <-]; eexists; (split; [reflexivity | ]);
      rewrite lookup_insert_eq; (split; [reflexivity | ]);
      (split; [now rewrite lookup_insert_ne | ]);
      intros k H1 H2; now rewrite lookup_insert_ne.
  - rewrite (lookup_insert_ne (to_dict session) "session_id" "_version") by discriminate.
    destruct (to_dict session !! "_version") as [[z | | | ] | ] eqn:E;
      intros [= <-]; eexists; (split; [reflexivity | ]);
      rewrite lookup_insert_eq; (split; [reflexivity | ]);
      (split; [now rewrite lookup_insert_ne, lookup_insert_eq | ]);
      intros k H1 H2; now rewrite !lookup_insert_ne.
Qed.

Lemma matches_union query update doc :
  Forall (fun kv => update !! kv.1 = Some kv.2) query ->
  matches query (update ∪ doc) = true.
Proof.
  intros H. unfold matches. apply forallb_forall. intros kv Hin.
  apply bool_decide_eq_true. apply lookup_union_Some_l.
  rewrite Forall_forall in H. apply H. now apply list_elem_of_In.
Qed.

(** After the update, the first match of the query is a document that has
    every field of the update: whatever was stored before is overwritten. *)
Lemma find_one_update_one query update docs :
  Forall (fun kv => update !! kv.1 = Some kv.2) query ->
  exists old, find_one query (update_one query update docs) = Some (update ∪ old).
Proof.
  intros H. unfold update_one, find_one.
  induction docs as [ | doc docs IH]; cbn.
  - exists (list_to_map query). now rewrite matches_union.
  - destruct (matches query doc) eqn:E.
    + exists doc. cbn. now rewrite matches_union.
    + destruct (set_first query update docs) as [docs' | ]; cbn in *; rewrite E; exact IH.
Qed.

(** One upsert into a reachable collection that acknowledges writes. *)
Lemma upsert_stores add_one session timestamp c sid v :
  reachable c = true ->
  acknowledged c = true ->
  filed_under session = Some sid ->
  next_version session = Some v ->
  exists doc c',
    upsert add_one session timestamp c = inr (Some doc, c') /\
    reachable c' = true /\ acknowledged c' = true /\
    doc !! "_version" = Some (Int v) /\
    doc !! "session_id" = Some sid /\
    (exists stored, find_one [("session_id", sid)] (documents c') = Some stored /\
                    stored !! "_version" = Some (Int v)) /\
    (forall k x,
        to_dict session !! k = Some x ->
        k <> "_version" -> k <> "session_id" -> k <> "updated_at" -> k <> "created_at" ->
        k <> "_id" ->
        doc !! k = Some x).
Proof.
  intros Hup Hack Hsid Hv.
  destruct (versioned_inr add_one session v Hv) as (d & Hd & Hdv & Hds & Hdk).
  rewrite Hsid in Hds.
  unfold upsert. rewrite Hd. cbv beta iota zeta. rewrite Hds. cbv beta iota zeta.
  rewrite Hup, Hack.
  match goal with
  | |- context [update_one _ ?u _] => remember u as update_data eqn:Hupd
  end.
  assert (forall k, k <> "updated_at" -> k <> "created_at" -> update_data !! k = d !! k)
    as Hkeep.
  { intros k H1 H2. subst update_data.
    destruct (find_one _ (documents c)) as [doc | ]; [destruct (decide (doc = ∅)) | ];
      now rewrite ?lookup_insert_ne. }
  clear Hupd.
  destruct (find_one_update_one [("session_id", sid)] update_data (documents c))
    as (old & Hfind).
  { constructor; [ | constructor]. cbn. now rewrite Hkeep. }
  unfold read. cbn [reachable documents app]. rewrite Hfind.
  assert ((update_data ∪ old) !! "session_id" = Some sid) as Hstored_sid.
  { apply lookup_union_Some_l. now rewrite Hkeep. }
  assert ((update_data ∪ old) !! "_version" = Some (Int v)) as Hstored_v.
  { apply lookup_union_Some_l. now rewrite Hkeep. }
  destruct (decide (update_data ∪ old = ∅)) as [E | _].
  { rewrite E in Hstored_sid. discriminate. }
  eexists _, _. split; [reflexivity | ].
  split; [reflexivity | ]. split; [reflexivity | ].
  rewrite !lookup_delete_ne by discriminate.
  split; [exact Hstored_v | ]. split; [exact Hstored_sid | ]. split.
  - exists (update_data ∪ old). auto.
  - intros k x Hk H1 H2 H3 H4 H5. rewrite lookup_delete_ne by auto.
    apply lookup_union_Some_l. rewrite Hkeep, Hdk by auto. exact Hk.
Qed.

(** C10.  The [_version] that [upsert] writes is computed from the session
    passed in alone: 1 when its serialised dict lacks [_version], that value
    plus 1 otherwise.  Whatever the collection holds, and whatever version is
    stored there, the write goes through: the stored document is found again
    under the session's id, carries that version and every field the session
    serialises (the two timestamps apart), and is returned.  The stored
    version is never read, let alone compared, so the counter is no guard
    against overwriting a newer document; and upserting the same session
    again and again stores the same version every time (1 for a session
    whose serialisation lacks [_version]). *)
Theorem upsert_version_from_session_only add_one session timestamp c sid v :
  reachable c = true ->
  acknowledged c = true ->
  filed_under session = Some sid ->
  next_version session = Some v ->
  (to_dict session !! "_version" = None -> v = 1%Z) /\
  (forall v0, to_dict session !! "_version" = Some (Int v0) -> v = (v0 + 1)%Z) /\
  (exists doc c',
      upsert add_one session timestamp c = inr (Some doc, c') /\
      doc !! "_version" = Some (Int v) /\
      doc !! "session_id" = Some sid /\
      (exists stored, find_one [("session_id", sid)] (documents c') = Some stored /\
                      stored !! "_version" = Some (Int v)) /\
      (forall k x,
          to_dict session !! k = Some x ->
          k <> "_version" -> k <> "session_id" -> k <> "updated_at" -> k <> "created_at" ->
          k <> "_id" ->
          doc !! k = Some x)) /\
  (forall n, exists doc c',
        upserts add_one n session timestamp c = inr (Some doc, c') /\
        doc !! "_version" = Some (Int v)).
Proof.
  intros Hup Hack Hsid Hv. split; [ | split; [ | split]].
  - unfold next_version in Hv. intros E. rewrite E in Hv. now injection Hv.
  - unfold next_version in Hv. intros v0 E. rewrite E in Hv. now injection Hv.
  - destruct (upsert_stores add_one session timestamp c sid v Hup Hack Hsid Hv)
      as (doc & c' & E & _ & _ & H).
    exists doc, c'. auto.
  - intros n. revert c Hup Hack. induction n as [ | n IH]; intros c Hup Hack.
    + destruct (upsert_stores add_one session timestamp c sid v Hup Hack Hsid Hv)
        as (doc & c' & E & _ & _ & Hdv & _).
      exists doc, c'. auto.
    + destruct (upsert_stores add_one session timestamp c sid v Hup Hack Hsid Hv)
        as (doc & c' & E & Hup' & Hack' & _).
      cbn [upserts]. rewrite E. now apply IH.
Qed.

Lemma upsert_version_witness :
  let newer : gmap string Value :=
    {["session_id" := Str "s1"; "_version" := Int 9; "workflow_id" := Str "newer"]} in
  let c := Build_Collection [newer] true true in
  let stale :=
    Build_WorkflowSession (IdStr "s1")
      {["session_id" := Str "s1"; "workflow_id" := Str "stale"]} in
  exists doc c',
    upsert Mongo.example_add_one stale 1700000000 c = inr (Some doc, c') /\
    doc !! "_version" = Some (Int 1) /\
    doc !! "workflow_id" = Some (Str "stale").
Proof.
  intros newer c stale.
  destruct (upsert_version_from_session_only Mongo.example_add_one stale 1700000000 c (Str "s1") 1
              eq_refl eq_refl eq_refl eq_refl)
    as (_ & _ & (doc & c' & E & Hv & _ & _ & Hk) & _).
  exists doc, c'. split; [exact E | ]. split; [exact Hv | ].
  apply Hk; [reflexivity | discriminate ..].
Defined.

End MongoVersionFacts.

(** * Properties of the rest of the three files *)

(** ** A completion without choices *)

Lemma model_call_no_choices base self w elapsed c rest :
  World.vendor w = Completes elapsed c :: rest ->
  ChatCompletion.choices c = [] ->
  model_call base self w = (Raise Py.IndexError, requested self false rest w).
Proof.
  intros Hv Hc. unfold model_call.
  erewrite mbind_Return; [ | apply invoke_Return; eauto].
  cbv beta iota. rewrite Hc. reflexivity.
Qed.

(** X1.  When the vendor's completion has an empty [choices] list,
    [response] raises [IndexError] at [response.choices[0]]: the request has
    gone out and the reply is used up, but no assistant message is appended,
    nothing is logged and the lifetime metrics are as before. *)
Theorem response_without_choices base self fuel w elapsed c rest :
  World.vendor w = Completes elapsed c :: rest ->
  ChatCompletion.choices c = [] ->
  exists w',
    response base self (S fuel) w = (Raise Py.IndexError, w') /\
    World.messages w' = World.messages w /\
    World.self_metrics w' = World.self_metrics w /\
    World.logged w' = World.logged w /\
    World.vendor w' = rest /\
    World.sent w' = World.sent w ++ [Build_Request (Groq.id self) (World.messages w) false].
Proof.
  intros Hv Hc. exists (requested self false rest w).
  rewrite response_S, (model_call_no_choices _ _ _ _ _ _ Hv Hc).
  repeat split.
Qed.

Lemma response_without_choices_witness :
  let w := World.init [Example.user_says "hi"] [Completes (1 # 2) (ChatCompletion.mk [] None)] in
  exists w',
    response Example.base Example.groq 1 w = (Raise Py.IndexError, w') /\
    World.messages w' = World.messages w /\
    World.self_metrics w' = World.self_metrics w /\
    World.logged w' = World.logged w /\
    World.vendor w' = [] /\
    World.sent w' =
      World.sent w ++ [Build_Request (Groq.id Example.groq) (World.messages w) false].
Proof.
  intros w.
  apply (response_without_choices Example.base Example.groq 0 w (1 # 2)
           (ChatCompletion.mk [] None) []); reflexivity.
Defined.

(** ** The two list entries of the lifetime dict *)

Lemma times_of_self_append k x w w' :
  self_append k x w = (Return tt, w') ->
  times_of k (World.self_metrics w') = times_of k (World.self_metrics w) ++ [x].
Proof.
  intros H. apply self_append_inv in H as (xs & Hxs & ->).
  unfold times_of. cbn [World.self_metrics World.set_self_metrics].
  rewrite lookup_insert_eq.
  destruct (World.self_metrics w !! k) as [[n | ys] | ]; cbn in Hxs; try discriminate;
    now injection Hxs as <-.
Qed.

Lemma times_of_lookup k d d' : d' !! k = d !! k -> times_of k d' = times_of k d.
Proof. unfold times_of. now intros ->. Qed.

Lemma tally_lookup_other incs k w w' :
  tally incs w = (Return tt, w') -> increments_for k incs = [] ->
  World.self_metrics w' !! k = World.self_metrics w !! k.
Proof. intros H E. now rewrite (tally_lookup _ k _ _ H), E. Qed.

Lemma usage_metrics_response_timer ou m :
  Metrics.response_timer (usage_metrics ou m) = Metrics.response_timer m.
Proof.
  destruct ou as [[pt ct tt ctm ptm qtm ttm] | ]; [ | reflexivity].
  destruct pt, ct, tt, ctm, ptm, qtm, ttm; reflexivity.
Qed.

(** What a completed non-streaming model call does to the two lists. *)
Lemma model_call_lists base self w am mr w' :
  model_call base self w = (Return (am, mr), w') ->
  exists elapsed c rest,
    World.vendor w = Completes elapsed c :: rest /\
    times_of "response_times" (World.self_metrics w') =
      times_of "response_times" (World.self_metrics w) ++ [elapsed] /\
    World.self_metrics w' !! "time_to_first_token" =
      World.self_metrics w !! "time_to_first_token".
Proof.
  intros H. apply model_call_Return in H
    as (elapsed & c & rest & rm & w1 & w2 & Hv & Hrm & Happ & Htally & _ & -> & -> & ->).
  exists elapsed, c, rest. split; [assumption | ].
  cbn [World.self_metrics World.set_logged World.set_messages]. split.
  - rewrite (times_of_lookup _ _ _
               (tally_lookup_other _ _ _ _ Htally (usage_increments_not_list _ _ (or_introl eq_refl)))).
    now rewrite (times_of_self_append _ _ _ _ Happ).
  - rewrite (tally_lookup_other _ _ _ _ Htally
               (usage_increments_not_list _ _ (or_intror eq_refl))).
    now rewrite (self_append_lookup_ne _ _ _ _ _ Happ).
Qed.

Lemma first_token_block_times m am w am' w' :
  first_token_block m am w = (Return am', w') ->
  times_of "time_to_first_token" (World.self_metrics w') =
    times_of "time_to_first_token" (World.self_metrics w)
      ++ option_list (Metrics.time_to_first_token m) /\
  am' = match Metrics.time_to_first_token m with
        | Some t => Message.put "time_to_first_token" (Py.Num (Py.Float t)) am
        | None => am
        end.
Proof.
  unfold first_token_block. destruct (Metrics.time_to_first_token m) as [t | ].
  - intros H. apply mbind_inv_Return in H as ([] & w1 & Happ & [= <- <-]).
    split; [ | reflexivity]. now apply times_of_self_append.
  - intros [= <- <-]. cbn. now rewrite app_nil_r.
Qed.

(** What a completed streamed model call does to the two lists. *)
Lemma stream_call_lists base self w am w' :
  stream_call base self w = (Return am, w') ->
  exists chunks elapsed rest m,
    World.vendor w = Streams chunks elapsed :: rest /\
    stream_metrics base chunks elapsed = Some m /\
    times_of "response_times" (World.self_metrics w') =
      times_of "response_times" (World.self_metrics w) ++ [elapsed] /\
    times_of "time_to_first_token" (World.self_metrics w') =
      times_of "time_to_first_token" (World.self_metrics w)
        ++ option_list (Metrics.time_to_first_token m).
Proof.
  intros H. apply stream_call_Return in H
    as (chunks & elapsed & rest & m & w1 & am1 & w2 & w3 &
        Hv & Hm & Happ & Hft & Htally & _ & -> & ->).
  exists chunks, elapsed, rest, m. do 2 (split; [assumption | ]).
  pose proof (first_token_block_inv _ _ _ _ _ Hft) as (_ & Hother & _).
  pose proof (first_token_block_times _ _ _ _ _ Hft) as (Hts & _).
  cbn [World.self_metrics World.set_logged World.set_messages]. split.
  - rewrite (times_of_lookup _ _ _
               (tally_lookup_other _ _ _ _ Htally
                  (metrics_increments_not_list _ _ (or_introl eq_refl)))).
    rewrite (times_of_lookup _ _ _ (Hother "response_times" ltac:(discriminate))).
    now rewrite (times_of_self_append _ _ _ _ Happ).
  - rewrite (times_of_lookup _ _ _
               (tally_lookup_other _ _ _ _ Htally
                  (metrics_increments_not_list _ _ (or_intror eq_refl)))).
    rewrite Hts. f_equal. apply times_of_lookup.
    now rewrite (self_append_lookup_ne _ _ _ _ _ Happ).
Qed.

Lemma timed_refl w : timed w w.
Proof. exists [], [], []. rewrite !app_nil_r. repeat split; auto. Qed.

Lemma timed_same w w' :
  World.vendor w' = World.vendor w -> World.logged w' = World.logged w ->
  World.self_metrics w' = World.self_metrics w -> World.sent w' = World.sent w ->
  timed w w'.
Proof.
  intros Hv Hl Hm Hs. exists [], [], []. rewrite Hv, Hl, Hm, Hs, !app_nil_r.
  repeat split; auto.
Qed.

Lemma timed_trans w1 w2 w3 : timed w1 w2 -> timed w2 w3 -> timed w1 w3.
Proof.
  intros (c1 & t1 & m1 & Hv1 & He1 & Ht1 & Hl1 & Hm1 & Hs1)
         (c2 & t2 & m2 & Hv2 & He2 & Ht2 & Hl2 & Hm2 & Hs2).
  exists (c1 ++ c2), (t1 ++ t2), (m1 ++ m2).
  rewrite Hv1, Hv2, Ht2, Ht1, Hl2, Hl1, Hs2, Hs1, !fmap_app, He1, He2, Hm1, Hm2,
    length_app, <- !app_assoc.
  repeat split; auto. lia.
Qed.

Section Timing.

Context (base : Collaborators) (self : Groq.t).

Lemma model_round_timed w am w' : model_round base self w am w' -> timed w w'.
Proof.
  intros [mr H].
  destruct (model_call_lists _ _ _ _ _ _ H) as (elapsed & c & rest & Hv & Ht & _).
  apply model_call_effect in H
    as (elapsed' & c' & rest' & rm & Hv' & _ & _ & _ & Hrest & Hs & _ & Hl & _).
  rewrite Hv in Hv'. injection Hv' as <- <- <-.
  exists [Completes elapsed c], [elapsed], [call_metrics base elapsed (ChatCompletion.usage c)].
  rewrite Hv, Hrest, Ht, Hl, Hs, length_app. repeat split.
  unfold call_metrics. cbn. now rewrite usage_metrics_response_timer.
Qed.

Lemma stream_round_timed w am w' : stream_round base self w am w' -> timed w w'.
Proof.
  intros H.
  destruct (stream_call_lists _ _ _ _ _ H) as (chunks & elapsed & rest & m & Hv & Hm & Ht & _).
  apply stream_call_effect in H
    as (chunks' & elapsed' & rest' & m' & Hv' & Hm' & _ & _ & _ & Hrest & Hs & _ & Hl & _).
  rewrite Hv in Hv'. injection Hv' as <- <- <-. rewrite Hm in Hm'. injection Hm' as <-.
  exists [Streams chunks elapsed], [elapsed], [m].
  rewrite Hv, Hrest, Ht, Hl, Hs, length_app. repeat split.
  unfold stream_metrics in Hm. destruct (metrics_after _ _); [ | discriminate].
  now injection Hm as <-.
Qed.

Lemma response_timed fuel w r w' : response base self fuel w = (Return r, w') -> timed w w'.
Proof.
  intros H. apply response_rounds in H as (ams & _ & Hr & _).
  eapply rounds_preserve in Hr; eauto using timed_trans, model_round_timed.
  intros am w0. now apply timed_same.
Qed.

Lemma response_stream_timed fuel w w' :
  response_stream base self fuel w = (Return tt, w') -> timed w w'.
Proof.
  intros H. apply stream_rounds in H as (ams & Hr & _).
  eapply rounds_preserve in Hr; eauto using timed_trans, stream_round_timed.
  intros am w0. now apply timed_same.
Qed.

Lemma call_timed fuel c w w' : call base self fuel c w = (Return tt, w') -> timed w w'.
Proof.
  destruct c as [ms | ms]; cbn [call]; intros H;
    apply mbind_inv_Return in H as ([] & w1 & [= <-] & H).
  - apply mbind_inv_Return in H as (r & w2 & H & [= <-]).
    eapply timed_trans; [ | eapply response_timed; eauto].
    now apply timed_same.
  - eapply timed_trans; [ | eapply response_stream_timed; eauto].
    now apply timed_same.
Qed.

Lemma session_timed fuel cs w w' : session base self fuel cs w = (Return tt, w') -> timed w w'.
Proof.
  revert w. induction cs as [ | c cs IH]; intros w; cbn [session].
  - intros [= <-]. apply timed_refl.
  - intros H. apply mbind_inv_Return in H as ([] & w1 & Hc & H).
    eapply timed_trans; [eapply call_timed | eapply IH]; eauto.
Qed.

End Timing.

(** X2.  After any sequence of completed calls on one adapter instance,
    streamed or not and whatever the tool rounds, the lifetime
    ["response_times"] list has grown by exactly one entry per vendor reply
    consumed: the response timer's reading for that reply, in the order of
    the requests.  As many requests were sent and as many per-call metrics
    logged, each with the same reading. *)
Theorem response_times_one_per_request base self fuel calls w w' :
  session base self fuel calls w = (Return tt, w') ->
  exists consumed ts ms,
    World.vendor w = consumed ++ World.vendor w' /\
    reply_elapsed <$> consumed = Some <$> ts /\
    times_of "response_times" (World.self_metrics w') =
      times_of "response_times" (World.self_metrics w) ++ ts /\
    World.logged w' = World.logged w ++ ms /\
    Metrics.response_timer <$> ms = ts /\
    length (World.sent w') = length (World.sent w) + length consumed.
Proof. apply session_timed. Qed.

Lemma response_times_witness :
  let script :=
    [Completes (1 # 2) (Example.asks_tool "call_1" "get_weather" Example.no_usage);
     Completes (1 # 3) (Example.answers "sunny" Example.no_usage);
     Example.hello_world] in
  let w := World.init [] script in
  let w' :=
    (session Example.base Example.groq 2
       [Plain [Example.user_says "weather?"]; Streamed [Example.user_says "hi"]] w).2 in
  exists consumed ts ms,
    World.vendor w = consumed ++ World.vendor w' /\
    reply_elapsed <$> consumed = Some <$> ts /\
    times_of "response_times" (World.self_metrics w') =
      times_of "response_times" (World.self_metrics w) ++ ts /\
    World.logged w' = World.logged w ++ ms /\
    Metrics.response_timer <$> ms = ts /\
    length (World.sent w') = length (World.sent w) + length consumed.
Proof.
  intros script w w'.
  apply (response_times_one_per_request Example.base Example.groq 2
           [Plain [Example.user_says "weather?"]; Streamed [Example.user_says "hi"]] w w').
  vm_compute. reflexivity.
Defined.

(** X3.  For a stream whose usage blocks come on the final chunk only (and
    a base [Metrics] that starts with no time to first token and a chunk
    count of zero), a completed streamed call adds one entry to the lifetime
    ["time_to_first_token"] list when some chunk had a choice, namely the
    timer's reading at the first such chunk, and no entry when none had.
    The non-streaming path never touches the list. *)
Theorem first_token_times_recorded base self w am w' chunks elapsed rest :
  Metrics.completion_tokens (Metrics_new base) = Some 0%Z ->
  Metrics.time_to_first_token (Metrics_new base) = None ->
  World.vendor w = Streams chunks elapsed :: rest ->
  usage_at_end_only chunks ->
  stream_call base self w = (Return am, w') ->
  times_of "time_to_first_token" (World.self_metrics w') =
    times_of "time_to_first_token" (World.self_metrics w)
      ++ option_list (first_choice_time chunks) /\
  (forall w0 am0 mr0 w0',
      model_call base self w0 = (Return (am0, mr0), w0') ->
      World.self_metrics w0' !! "time_to_first_token" =
      World.self_metrics w0 !! "time_to_first_token").
Proof.
  intros Hc Hf Hv Hend H. split.
  - apply stream_call_lists in H as (chunks' & elapsed' & rest' & m & Hv' & Hm & _ & Ht).
    rewrite Hv in Hv'. injection Hv' as <- <- <-.
    destruct (metrics_after_first_token chunks _ Hc Hf Hend) as (m' & Hm' & Hft).
    unfold stream_metrics in Hm. rewrite Hm' in Hm. injection Hm as <-.
    now rewrite Ht, <- Hft.
  - intros w0 am0 mr0 w0' H0.
    now apply model_call_lists in H0 as (? & ? & ? & _ & _ & ?).
Qed.

Lemma first_token_times_witness :
  let chunks := [(1 # 10, Example.says "Hello"); (2 # 10, Example.says " world");
                 (3 # 10, Example.reports 5 2 7)] in
  let w := World.init [Example.user_says "hi"] [Streams chunks (3 # 10)] in
  let w' := (stream_call Example.base Example.groq w).2 in
  times_of "time_to_first_token" (World.self_metrics w') = [] ++ [1 # 10].
Proof.
  intros chunks w w'.
  refine (proj1 (first_token_times_recorded Example.base Example.groq w _ w' chunks (3 # 10) []
                   eq_refl eq_refl eq_refl _ _)).
  - apply (usage_at_end_only_snoc [(1 # 10, Example.says "Hello"); (2 # 10, Example.says " world")]).
    repeat constructor.
  - vm_compute. reflexivity.
Defined.

(** ** The metrics dict of the assistant message *)

Lemma puts_lookup incs k m :
  Message.metrics (puts incs m) !! k =
  match last (increments_for k incs) with
  | Some v => Some (Py.Num v)
  | None => Message.metrics m !! k
  end.
Proof.
  induction incs as [ | [k1 v] incs IH] using rev_ind; [reflexivity | ].
  rewrite puts_app, increments_for_app. cbn [puts foldl fst snd Message.metrics Message.put].
  destruct (decide (k1 = k)) as [-> | Hne].
  - rewrite lookup_insert_eq, increments_for_cons_eq. cbn. now rewrite last_snoc.
  - rewrite lookup_insert_ne, increments_for_cons_ne by assumption.
    cbn. now rewrite app_nil_r.
Qed.

Lemma increments_for_keys (P : string -> Prop) k incs :
  Forall (fun kv => P kv.1) incs -> ~ P k -> increments_for k incs = [].
Proof.
  intros Hall Hk. induction Hall as [ | [k1 v] incs H1 _ IH]; [reflexivity | ].
  rewrite increments_for_cons_ne; [exact IH | ]. cbn in H1. now intros ->.
Qed.

Lemma increments_for_inv k incs v vs :
  increments_for k incs = v :: vs -> exists kv, kv ∈ incs /\ kv.1 = k.
Proof.
  induction incs as [ | [k1 v1] incs IH]; [discriminate | ].
  destruct (decide (k1 = k)) as [-> | Hne].
  - intros _. exists (k, v1). split; [left | reflexivity].
  - rewrite increments_for_cons_ne by assumption. intros H.
    destruct (IH H) as (kv & Hin & Hk). exists kv. split; [now right | assumption].
Qed.

Lemma draft_message_metrics base rm : Message.metrics (draft_message base rm) = ∅.
Proof.
  unfold draft_message.
  destruct (ChatCompletionMessage.tool_calls rm) as [[ | t ts] | ]; try reflexivity.
  now destruct (mapM _ _).
Qed.

Lemma assemble_metrics base sd : Message.metrics (assemble base sd) = ∅.
Proof.
  unfold assemble.
  destruct (String.eqb _ _), (StreamData.response_tool_calls sd) as [fr | ];
    try destruct (_build_tool_calls base fr); reflexivity.
Qed.

Lemma time_is_no_counter k : Counter.key k <> "time".
Proof. now destruct k. Qed.

(** X4.  The assistant message that a completed non-streaming call appends
    carries a metrics dict with the response time under ["time"] and, for
    each of the nine counters, the value of the vendor's usage block when it
    reports one and no entry when it does not; it has no other key. *)
Theorem message_metrics_mirror_usage base self w am mr w' elapsed c rest :
  World.vendor w = Completes elapsed c :: rest ->
  model_call base self w = (Return (am, mr), w') ->
  Message.metrics am !! "time" = Some (Py.Num (Py.Float elapsed)) /\
  (forall k, Message.metrics am !! Counter.key k =
             Py.Num <$> reported_value k (ChatCompletion.usage c)) /\
  (forall key, is_Some (Message.metrics am !! key) ->
               key = "time" \/ exists k, key = Counter.key k).
Proof.
  intros Hv H. apply model_call_effect in H
    as (elapsed' & c' & rest' & rm & Hv' & _ & -> & _).
  rewrite Hv in Hv'. injection Hv' as <- <- <-.
  unfold call_message. split; [ | split].
  - rewrite puts_lookup.
    rewrite (increments_for_keys (fun s => exists k, s = Counter.key k) "time" _
               (usage_increments_keys _)).
    + cbn. now rewrite lookup_insert_eq.
    + intros [k Hk]. now apply (time_is_no_counter k).
  - intros k. rewrite puts_lookup. cbn [Message.metrics Message.put].
    rewrite lookup_insert_ne, draft_message_metrics, lookup_empty
      by (apply not_eq_sym, time_is_no_counter).
    unfold reported_value. destruct (ChatCompletion.usage c) as [u | ]; [ | reflexivity].
    rewrite usage_increments_for. cbn. now destruct (Counter.of_usage k u).
  - intros key. rewrite puts_lookup. cbn [Message.metrics Message.put].
    destruct (decide (key = "time")) as [-> | Hne]; [now left | ].
    rewrite lookup_insert_ne, draft_message_metrics, lookup_empty by now apply not_eq_sym.
    destruct (increments_for key _) as [ | v vs] eqn:E.
    + cbn. now intros [? [=]].
    + intros _. right. apply increments_for_inv in E as (kv & Hin & <-).
      pose proof (usage_increments_keys (ChatCompletion.usage c)) as Hall.
      rewrite Forall_forall in Hall. now apply Hall.
Qed.

Lemma message_metrics_witness :
  let w := World.init [Example.user_says "hi"]
             [Completes (1 # 2) (Example.answers "hello" (Example.usage 5 2 7))] in
  let am := (call_message Example.base (1 # 2)
               (ChatCompletionMessage.mk (Some "assistant") (Some "hello") None)
               (Example.usage 5 2 7)) in
  Message.metrics am !! "time" = Some (Py.Num (Py.Float (1 # 2))) /\
  Message.metrics am !! "total_tokens" = Some (Py.Num (Py.Int 7)) /\
  Message.metrics am !! "queue_time" = None.
Proof.
  intros w am.
  destruct (message_metrics_mirror_usage Example.base Example.groq w am
              (response_of Example.base am)
              (model_call Example.base Example.groq w).2 (1 # 2)
              (Example.answers "hello" (Example.usage 5 2 7)) [] eq_refl)
    as (Ht & Hk & _).
  - vm_compute. reflexivity.
  - split; [exact Ht | ].
    split; [exact (Hk Counter.total_tokens) | exact (Hk Counter.queue_time)].
Defined.

(** X5.  The assistant message that a completed streamed call appends
    carries a metrics dict that mirrors the per-call metrics logged for the
    call: the timer's final reading under ["time"], the time to first token
    when there is one, and for each of the nine counters the per-call value
    when it is not [None]. *)
Theorem streamed_message_metrics base self w am w' chunks elapsed rest :
  World.vendor w = Streams chunks elapsed :: rest ->
  stream_call base self w = (Return am, w') ->
  exists m,
    World.logged w' = World.logged w ++ [m] /\
    Message.metrics am !! "time" = Some (Py.Num (Py.Float elapsed)) /\
    Message.metrics am !! "time_to_first_token" =
      (fun t => Py.Num (Py.Float t)) <$> Metrics.time_to_first_token m /\
    (forall k, Message.metrics am !! Counter.key k = Py.Num <$> Counter.of_metrics k m).
Proof.
  intros Hv H.
  destruct (stream_call_effect _ _ _ _ _ H)
    as (chunks0 & elapsed0 & rest0 & m0 & Hv0 & Hm0 & _ & _ & _ & _ & _ & _ & Hl & _).
  apply stream_call_Return in H
    as (chunks' & elapsed' & rest' & m & w1 & am1 & w2 & w3 &
        Hv' & Hm & Happ & Hft & Htally & _ & -> & ->).
  rewrite Hv in Hv', Hv0. injection Hv' as <- <- <-. injection Hv0 as <- <- <-.
  rewrite Hm in Hm0. injection Hm0 as <-.
  exists m. split; [exact Hl | ].
  apply first_token_block_times in Hft as (_ & ->).
  assert (Hnone : forall k, k = "time" \/ k = "time_to_first_token" ->
                            increments_for k (metrics_increments m) = []).
  { intros k [-> | ->].
    - apply (increments_for_keys (fun s => exists k, s = Counter.key k));
        [apply metrics_increments_keys | ].
      intros [k Hk]. now apply (time_is_no_counter k).
    - apply metrics_increments_not_list. now right. }
  split; [ | split].
  - rewrite puts_lookup, Hnone by now left. cbn [last].
    destruct (Metrics.time_to_first_token m); cbn [Message.metrics Message.put].
    + now rewrite lookup_insert_ne, lookup_insert_eq.
    + now rewrite lookup_insert_eq.
  - rewrite puts_lookup, Hnone by now right. cbn [last].
    destruct (Metrics.time_to_first_token m); cbn [Message.metrics Message.put].
    + now rewrite lookup_insert_eq.
    + now rewrite lookup_insert_ne, assemble_metrics, lookup_empty.
  - intros k. rewrite puts_lookup, metrics_increments_for.
    destruct (Counter.of_metrics k m) as [v | ]; [reflexivity | ]. cbn [option_list last fmap option_fmap option_map].
    destruct (counter_key_not_list k) as [_ Hne].
    destruct (Metrics.time_to_first_token m); cbn [Message.metrics Message.put].
    + rewrite lookup_insert_ne by now apply not_eq_sym.
      rewrite lookup_insert_ne by (apply not_eq_sym, time_is_no_counter).
      now rewrite assemble_metrics, lookup_empty.
    + rewrite lookup_insert_ne by (apply not_eq_sym, time_is_no_counter).
      now rewrite assemble_metrics, lookup_empty.
Qed.

Lemma streamed_message_metrics_witness :
  let chunks := [(1 # 10, Example.says "Hello"); (3 # 10, Example.reports 5 2 7)] in
  let w := World.init [Example.user_says "hi"] [Streams chunks (3 # 10)] in
  exists am w' m,
    stream_call Example.base Example.groq w = (Return am, w') /\
    World.logged w' = World.logged w ++ [m] /\
    Message.metrics am !! "time" = Some (Py.Num (Py.Float (3 # 10))) /\
    Message.metrics am !! "time_to_first_token" =
      (fun t => Py.Num (Py.Float t)) <$> Metrics.time_to_first_token m /\
    (forall k, Message.metrics am !! Counter.key k = Py.Num <$> Counter.of_metrics k m).
Proof.
  intros chunks w.
  assert (E : exists am w', stream_call Example.base Example.groq w = (Return am, w'))
    by (eexists _, _; vm_compute; reflexivity).
  destruct E as (am & w' & E).
  destruct (streamed_message_metrics Example.base Example.groq w am w' chunks (3 # 10) []
              eq_refl E) as (m & H).
  now exists am, w', m.
Defined.

(** ** Tool-call fragments of a stream *)

Lemma fragments_cons now c chunks :
  fragments ((now, c) :: chunks) = option_list (fragments_of c) ++ fragments chunks.
Proof. unfold fragments. cbn. now destruct (fragments_of c). Qed.

Lemma data_after_tool_calls chunks sd :
  StreamData.response_tool_calls (data_after chunks sd) =
  match fragments chunks with
  | [] => StreamData.response_tool_calls sd
  | fs => Some (default [] (StreamData.response_tool_calls sd) ++ concat fs)
  end.
Proof.
  revert sd. induction chunks as [ | [now c] chunks IH]; intros sd; [reflexivity | ].
  unfold data_after in *. cbn [foldl snd]. rewrite IH, fragments_cons.
  unfold chunk_data, fragments_of.
  destruct (delta_of c) as [delta | ]; cbn; [ | reflexivity].
  destruct (ChoiceDelta.tool_calls delta) as [tcs | ]; cbn; [ | reflexivity].
  destruct (fragments chunks) as [ | f fs]; cbn.
  - now rewrite app_nil_r.
  - now rewrite <- app_assoc.
Qed.

(** X6.  In a streamed call the tool-call fragments of the chunks (those of
    each chunk's first choice) are accumulated in the vendor's emission
    order and handed to [_build_tool_calls] in one list; the assistant
    message gets the built tool calls when there is at least one, and none
    when no chunk carried a fragment list or nothing could be built. *)
Theorem streamed_tool_calls_accumulate base self w am w' chunks elapsed rest :
  World.vendor w = Streams chunks elapsed :: rest ->
  stream_call base self w = (Return am, w') ->
  Message.tool_calls am =
  match fragments chunks with
  | [] => None
  | fs => nonempty_list (_build_tool_calls base (concat fs))
  end.
Proof.
  intros Hv H. apply stream_call_effect in H
    as (chunks' & elapsed' & rest' & m & Hv' & _ & _ & _ & -> & _).
  rewrite Hv in Hv'. injection Hv' as <- <- <-.
  unfold assemble. rewrite data_after_tool_calls. cbn [StreamData.response_tool_calls StreamData.new].
  destruct (fragments chunks) as [ | f fs].
  - now destruct (String.eqb _ _).
  - cbn [default app].
    destruct (_build_tool_calls base (concat (f :: fs))); now destruct (String.eqb _ _).
Qed.

Lemma streamed_tool_calls_witness :
  let chunks := [(1 # 10, Example.calls "call_1" "get_weather");
                 (2 # 10, Example.says "...");
                 (3 # 10, Example.calls "call_2" "get_time")] in
  let w := World.init [Example.user_says "hi"] [Streams chunks (3 # 10)] in
  exists am w',
    stream_call Example.base Example.groq w = (Return am, w') /\
    Message.tool_calls am =
      Some [Build_ToolCall "call_1" "get_weather" ""; Build_ToolCall "call_2" "get_time" ""].
Proof.
  intros chunks w.
  assert (E : exists am w', stream_call Example.base Example.groq w = (Return am, w'))
    by (eexists _, _; vm_compute; reflexivity).
  destruct E as (am & w' & E).
  exists am, w'. split; [exact E | ].
  now rewrite (streamed_tool_calls_accumulate Example.base Example.groq w am w' chunks
                 (3 # 10) [] eq_refl E).
Defined.

(** ** The assistant message of a non-streaming call *)

(** X7.  The assistant message that a completed non-streaming call appends
    takes its role from the vendor's message, or is an ["assistant"] message
    when that role is [None] or empty; its content is the vendor's, as it is;
    and its tool calls are all of the vendor's, dumped, or none at all: it
    has none when the vendor's list is absent or empty, and also when
    [model_dump] fails on any one of them (the failure is only logged).  The
    model response has content exactly when the message has. *)
Theorem assistant_message_fields base self w am mr w' elapsed c rest rm :
  World.vendor w = Completes elapsed c :: rest ->
  head (ChatCompletion.choices c) = Some rm ->
  model_call base self w = (Return (am, mr), w') ->
  (forall r, ChatCompletionMessage.role rm = Some r -> r <> "" -> Message.role am = r) /\
  (ChatCompletionMessage.role rm = None \/ ChatCompletionMessage.role rm = Some "" ->
   Message.role am = "assistant") /\
  Message.content am = ChatCompletionMessage.content rm /\
  (forall dumped,
      Message.tool_calls am = Some dumped <->
      exists ts, ChatCompletionMessage.tool_calls rm = Some ts /\ ts <> [] /\
                 mapM (model_dump base) ts = Some dumped) /\
  (ModelResponse.content mr = None <-> ChatCompletionMessage.content rm = None) /\
  ModelResponse.tool_calls mr = None.
Proof.
  intros Hv Hrm H. apply model_call_effect in H
    as (elapsed' & c' & rest' & rm' & Hv' & Hrm' & -> & -> & _).
  rewrite Hv in Hv'. injection Hv' as <- <- <-.
  rewrite Hrm in Hrm'. injection Hrm' as <-.
  unfold response_of, call_message.
  rewrite puts_role, puts_content, puts_tool_calls.
  cbn [Message.role Message.content Message.tool_calls Message.put].
  assert (Hrole : Message.role (draft_message base rm) =
                  or_assistant (ChatCompletionMessage.role rm)).
  { unfold draft_message.
    destruct (ChatCompletionMessage.tool_calls rm) as [[ | t ts] | ]; try reflexivity.
    now destruct (mapM _ _). }
  assert (Hcontent : Message.content (draft_message base rm) =
                     ChatCompletionMessage.content rm).
  { unfold draft_message.
    destruct (ChatCompletionMessage.tool_calls rm) as [[ | t ts] | ]; try reflexivity.
    now destruct (mapM _ _). }
  rewrite Hrole, Hcontent. repeat split.
  - intros r -> Hr. cbn. destruct (String.eqb_spec r ""); [contradiction | reflexivity].
  - now intros [-> | ->].
  - unfold draft_message.
    destruct (ChatCompletionMessage.tool_calls rm) as [[ | t ts] | ]; try discriminate.
    destruct (mapM _ _) as [d | ] eqn:E; [ | discriminate].
    intros [= <-]. exists (t :: ts). now repeat split.
  - intros (ts & Hts & Hne & Hd). unfold draft_message. rewrite Hts.
    destruct ts as [ | t ts]; [contradiction | ]. now rewrite Hd.
  - now destruct (ChatCompletionMessage.content rm).
  - now intros ->.
  - now destruct (ChatCompletionMessage.content rm).
Qed.

Lemma assistant_message_fields_witness :
  let rm := ChatCompletionMessage.mk None (Some "hello")
              (Some [Build_ChatCompletionMessageToolCall "call_1" "get_weather" "{}"]) in
  let w := World.init [Example.user_says "hi"]
             [Completes (1 # 2) (ChatCompletion.mk [rm] None)] in
  exists am mr w',
    model_call Example.base Example.groq w = (Return (am, mr), w') /\
    Message.role am = "assistant" /\
    Message.content am = Some "hello".
Proof.
  intros rm w.
  assert (E : exists am mr w', model_call Example.base Example.groq w = (Return (am, mr), w'))
    by (eexists _, _, _; vm_compute; reflexivity).
  destruct E as (am & mr & w' & E). exists am, mr, w'. split; [exact E | ].
  destruct (assistant_message_fields Example.base Example.groq w am mr w' (1 # 2)
              (ChatCompletion.mk [rm] None) [] rm eq_refl eq_refl E)
    as (_ & Hrole & Hcontent & _).
  split; [apply Hrole; now left | exact Hcontent].
Defined.

(** ** A streaming request that the vendor refuses *)

Lemma stream_call_fails base self w status_code message rest :
  World.vendor w = Fails status_code message :: rest ->
  stream_call base self w =
  (Raise (Py.APIStatusError status_code message), requested self true rest w).
Proof.
  intros Hv. unfold stream_call.
  erewrite mbind_Raise; [reflexivity | ].
  apply invoke_stream_Raise. eauto 6.
Qed.

(** X8.  If the vendor refuses the request of a streaming call,
    [response_stream] raises the SDK's error as it is, before it has yielded
    anything: the conversation list, the lifetime metrics and the metrics log
    are as before, and exactly one request (with the stream flag) has gone
    out. *)
Theorem stream_failure_propagates base self fuel w status_code message rest :
  World.vendor w = Fails status_code message :: rest ->
  exists w',
    response_stream base self (S fuel) w =
      (Raise (Py.APIStatusError status_code message), w') /\
    World.yielded w' = World.yielded w /\
    World.messages w' = World.messages w /\
    World.self_metrics w' = World.self_metrics w /\
    World.logged w' = World.logged w /\
    World.sent w' = World.sent w ++ [Build_Request (Groq.id self) (World.messages w) true].
Proof.
  intros Hv. exists (requested self true rest w).
  rewrite response_stream_S, (stream_call_fails _ _ _ _ _ _ Hv).
  repeat split.
Qed.

Lemma stream_failure_witness :
  let w := World.init [Example.user_says "hi"] [Fails 429 "rate_limit_exceeded"] in
  exists w',
    response_stream Example.base Example.groq 1 w =
      (Raise (Py.APIStatusError 429 "rate_limit_exceeded"), w') /\
    World.yielded w' = World.yielded w /\
    World.messages w' = World.messages w /\
    World.self_metrics w' = World.self_metrics w /\
    World.logged w' = World.logged w /\
    World.sent w' =
      World.sent w ++ [Build_Request (Groq.id Example.groq) (World.messages w) true].
Proof.
  intros w.
  apply (stream_failure_propagates Example.base Example.groq 0 w 429
           "rate_limit_exceeded" []).
  reflexivity.
Defined.

(** ** Request parameters: tools, and what else can be in a request *)

Lemma lookup_request_params (self : Groq.t) (d : gmap string Py.obj) k :
  not_overridden k self ->
  match Groq.request_params self with
  | Some extra => if decide (extra = ∅) then d else extra ∪ d
  | None => d
  end !! k = d !! k.
Proof.
  unfold not_overridden. destruct (Groq.request_params self) as [extra | ]; [ | reflexivity].
  intros H. destruct (decide (extra = ∅)); [reflexivity | ]. now rewrite lookup_union_r.
Qed.

(** X9.  [request_kwargs] sends ["tools"] exactly when [self.tools] is
    truthy, and with it a ["tool_choice"]: the adapter's own, or ["auto"] when
    that is [None].  Without tools (none, or an empty list) neither key is
    sent, even when a [tool_choice] is set (the adapter's [request_params]
    not supplying these keys). *)
Theorem request_kwargs_tools self :
  not_overridden "tools" self -> not_overridden "tool_choice" self ->
  if Py.truthy (Groq.tools self)
  then request_kwargs self !! "tools" = Some (Groq.tools self) /\
       request_kwargs self !! "tool_choice" = Some (tool_choice_or_auto self)
  else request_kwargs self !! "tools" = None /\
       request_kwargs self !! "tool_choice" = None.
Proof.
  intros H1 H2. unfold request_kwargs, tool_choice_or_auto.
  rewrite !lookup_request_params by assumption.
  destruct (Py.truthy (Groq.tools self)).
  - split.
    + destruct (Groq.tool_choice self);
        now rewrite lookup_insert_ne, lookup_insert_eq by discriminate.
    + destruct (Groq.tool_choice self); now rewrite lookup_insert_eq.
  - split; lookup_param; repeat match goal with
                                | |- context [Py.truthy ?v] => destruct (Py.truthy v)
                                end; reflexivity.
Qed.

Lemma request_kwargs_tools_witness :
  let with_tools :=
    Groq.mk "llama3" "Groq" "Groq"
            Py.ONone Py.ONone Py.ONone Py.ONone Py.ONone Py.ONone Py.ONone
            Py.ONone Py.ONone Py.ONone Py.ONone Py.ONone Py.ONone Py.ONone
            None (Py.OList [Py.OStr "get_weather"]) Py.ONone in
  let choice_only :=
    Groq.mk "llama3" "Groq" "Groq"
            Py.ONone Py.ONone Py.ONone Py.ONone Py.ONone Py.ONone Py.ONone
            Py.ONone Py.ONone Py.ONone Py.ONone Py.ONone Py.ONone Py.ONone
            None (Py.OList []) (Py.OStr "required") in
  (request_kwargs with_tools !! "tools" = Some (Py.OList [Py.OStr "get_weather"]) /\
   request_kwargs with_tools !! "tool_choice" = Some (Py.OStr "auto")) /\
  (request_kwargs choice_only !! "tools" = None /\
   request_kwargs choice_only !! "tool_choice" = None).
Proof.
  intros with_tools choice_only. split.
  - exact (request_kwargs_tools with_tools I I).
  - exact (request_kwargs_tools choice_only I I).
Defined.

Lemma set_if_Some k v d k' x :
  set_if k v d !! k' = Some x ->
  (k' = k /\ x = v /\ Py.truthy v = true) \/ d !! k' = Some x.
Proof.
  unfold set_if. destruct (Py.truthy v); [ | now right].
  rewrite lookup_insert_Some. intros [[<- <-] | [_ H]]; [now left | now right].
Qed.

Lemma own_parameters_Some self ps d k v :
  foldl (fun d p => set_if (Param.key p) (Param.value p self) d) d ps !! k = Some v ->
  (exists p, k = Param.key p /\ v = Param.value p self /\ Py.truthy v = true) \/
  d !! k = Some v.
Proof.
  revert d. induction ps as [ | p ps IH]; intros d; cbn [foldl]; [now right | ].
  intros H. apply IH in H as [H | H]; [now left | ].
  apply set_if_Some in H as [(-> & -> & Ht) | H]; [left; eauto | now right].
Qed.

(** The request is the adapter's own parameters, then the tools block, then
    [request_params]. *)
Lemma request_kwargs_layers self :
  request_kwargs self =
  let request_params := own_parameters self in
  let request_params :=
    if Py.truthy (Groq.tools self)
    then <["tool_choice" := tool_choice_or_auto self]>
           (<["tools" := Groq.tools self]> request_params)
    else request_params in
  match Groq.request_params self with
  | Some extra => if decide (extra = ∅) then request_params else extra ∪ request_params
  | None => request_params
  end.
Proof.
  unfold request_kwargs, tool_choice_or_auto, own_parameters. cbn [foldl request_parameters].
  cbn [Param.key Param.value]. cbv zeta.
  destruct (Py.truthy (Groq.tools self)); [ | reflexivity].
  now destruct (Groq.tool_choice self).
Qed.

(** X10.  Every entry of the request built by [request_kwargs] is an entry of
    the adapter's [request_params] mapping, or one of the fourteen
    parameters with its own truthy value, or the truthy [tools], or the
    [tool_choice] that goes with truthy tools: [None] or any other falsy
    value of the adapter's own is never sent, and no key of its own beyond
    these sixteen.  And an entry of [request_params] is always sent as it is,
    whatever the adapter's own field says. *)
Theorem request_kwargs_entries self k v :
  (request_kwargs self !! k = Some v ->
   (exists extra, Groq.request_params self = Some extra /\ extra !! k = Some v) \/
   (exists p, k = Param.key p /\ v = Param.value p self /\ Py.truthy v = true) \/
   (k = "tools" /\ v = Groq.tools self /\ Py.truthy v = true) \/
   (k = "tool_choice" /\ v = tool_choice_or_auto self /\
    Py.truthy (Groq.tools self) = true)) /\
  (forall extra, Groq.request_params self = Some extra -> extra !! k = Some v ->
                 request_kwargs self !! k = Some v).
Proof.
  rewrite request_kwargs_layers. cbv zeta. split.
  - intros H.
    assert (Hown :
      (if Py.truthy (Groq.tools self)
       then <["tool_choice" := tool_choice_or_auto self]>
              (<["tools" := Groq.tools self]> (own_parameters self))
       else own_parameters self) !! k = Some v ->
      (exists p, k = Param.key p /\ v = Param.value p self /\ Py.truthy v = true) \/
      (k = "tools" /\ v = Groq.tools self /\ Py.truthy v = true) \/
      (k = "tool_choice" /\ v = tool_choice_or_auto self /\
       Py.truthy (Groq.tools self) = true)).
    { assert (Hchain : own_parameters self !! k = Some v ->
                       exists p, k = Param.key p /\ v = Param.value p self /\
                                 Py.truthy v = true).
      { intros Hk. apply own_parameters_Some in Hk as [Hk | Hk]; [exact Hk | ].
        now rewrite lookup_empty in Hk. }
      destruct (Py.truthy (Groq.tools self)) eqn:Ht; [ | intros Hk; left; now apply Hchain].
      intros Hk.
      apply lookup_insert_Some in Hk as [[<- <-] | [_ Hk]]; [now right; right | ].
      apply lookup_insert_Some in Hk as [[<- <-] | [_ Hk]]; [now right; left | ].
      left. now apply Hchain. }
    destruct (Groq.request_params self) as [extra | ]; [ | right; now apply Hown].
    destruct (decide (extra = ∅)); [right; now apply Hown | ].
    apply lookup_union_Some_raw in H as [H | [_ H]]; [left; eauto | right; now apply Hown].
  - intros extra Hextra Hk. rewrite Hextra.
    destruct (decide (extra = ∅)) as [-> | _]; [now rewrite lookup_empty in Hk | ].
    now apply lookup_union_Some_l.
Qed.

Lemma request_kwargs_entries_witness :
  request_kwargs overridden !! "temperature" = Some (Py.OFloat (7 # 10)).
Proof.
  exact (proj2 (request_kwargs_entries overridden "temperature" (Py.OFloat (7 # 10)))
           {["temperature" := Py.OFloat (7 # 10)]} eq_refl eq_refl).
Defined.

(** ** [to_dict] *)

Lemma lookup_cleaned (d : gmap string Py.obj) k :
  filter (fun kv : string * Py.obj => is_none kv.2 = false) d !! k =
  match d !! k with
  | Some v => if is_none v then None else Some v
  | None => None
  end.
Proof.
  rewrite map_lookup_filter. destruct (d !! k) as [v | ]; [ | reflexivity].
  cbn. destruct (is_none v); [ | reflexivity]. now rewrite option_guard_False.
Qed.

Lemma truthy_not_none v : Py.truthy v = true -> is_none v = false.
Proof. now destruct v. Qed.

Lemma own_parameters_lookup self p :
  own_parameters self !! Param.key p =
  if Py.truthy (Param.value p self) then Some (Param.value p self) else None.
Proof.
  unfold own_parameters. cbn [foldl request_parameters].
  destruct p; cbn [Param.key Param.value]; lookup_param;
    match goal with |- context [Py.truthy ?v] => now destruct (Py.truthy v) end.
Qed.

Lemma request_kwargs_own self p :
  not_overridden (Param.key p) self ->
  request_kwargs self !! Param.key p = own_parameters self !! Param.key p.
Proof.
  intros H. rewrite request_kwargs_layers. cbv zeta.
  rewrite lookup_request_params by assumption.
  destruct (Py.truthy (Groq.tools self)); [ | reflexivity].
  now rewrite !lookup_insert_ne by (destruct p; discriminate).
Qed.

Ltac lookup_literal :=
  unfold list_to_map; cbn [foldr uncurry fst snd];
  repeat rewrite lookup_insert_ne by discriminate;
  rewrite lookup_insert_eq.

(** X11.  [to_dict] never holds a [None]: an entry whose value is [None] is
    dropped.  For each of the fourteen request parameters it records the
    adapter's own value whenever that is not [None], whatever the base
    class's dict says for the key, so also a falsy one such as a temperature
    of [0.0]: every parameter that [request_kwargs] sends of its own is
    recorded, with the same value.  And it always has a ["tool_choice"]: the
    adapter's own when both it and [tools] are set, else ["auto"]. *)
Theorem to_dict_records base_dict self :
  (forall k v, to_dict base_dict self !! k = Some v -> is_none v = false) /\
  (forall p,
      to_dict base_dict self !! Param.key p =
      if is_none (Param.value p self) then None else Some (Param.value p self)) /\
  (forall p v,
      not_overridden (Param.key p) self ->
      request_kwargs self !! Param.key p = Some v ->
      to_dict base_dict self !! Param.key p = Some v) /\
  to_dict base_dict self !! "tool_choice" =
    Some (if negb (is_none (Groq.tools self)) && negb (is_none (Groq.tool_choice self))
          then Groq.tool_choice self
          else Py.OStr "auto").
Proof.
  assert (Hp : forall p,
             to_dict base_dict self !! Param.key p =
             if is_none (Param.value p self) then None else Some (Param.value p self)).
  { intros p. unfold to_dict. rewrite lookup_cleaned.
    erewrite lookup_union_Some_l; [reflexivity | ].
    destruct p; cbn [Param.key Param.value]; now lookup_literal. }
  split; [ | split; [exact Hp | split]].
  - intros k v. unfold to_dict. rewrite lookup_cleaned.
    destruct (_ !! k) as [x | ]; [ | discriminate].
    destruct (is_none x) eqn:E; [discriminate | ]. now intros [= <-].
  - intros p v Hno. rewrite request_kwargs_own, own_parameters_lookup, Hp by assumption.
    destruct (Py.truthy (Param.value p self)) eqn:E; [ | discriminate].
    intros [= <-]. now rewrite (truthy_not_none _ E).
  - unfold to_dict. rewrite lookup_cleaned.
    erewrite lookup_union_Some_l; [ | now lookup_literal].
    destruct (Groq.tools self), (Groq.tool_choice self); reflexivity.
Qed.

Lemma to_dict_records_witness :
  to_dict ∅ cold !! "temperature" = Some (Py.OFloat 0) /\
  request_kwargs cold !! "temperature" = None /\
  to_dict ∅ cold !! "tool_choice" = Some (Py.OStr "auto").
Proof.
  destruct (to_dict_records ∅ cold) as (_ & Hp & _ & Hc).
  split; [exact (Hp Param.temperature) | split; [reflexivity | exact Hc]].
Defined.

(** ** The client parameters *)

Lemma lookup_client_params (self : ClientSettings.t) (d : gmap string Py.obj) k :
  match ClientSettings.client_params self with
  | Some extra => if decide (extra = ∅) then d else extra ∪ d
  | None => d
  end !! k =
  match supplied self k with
  | Some v => Some v
  | None => d !! k
  end.
Proof.
  unfold supplied. destruct (ClientSettings.client_params self) as [extra | ]; [ | reflexivity].
  cbn. destruct (decide (extra = ∅)) as [-> | _]; [now rewrite lookup_empty | ].
  destruct (extra !! k) as [v | ] eqn:E.
  - now apply lookup_union_Some_l.
  - now rewrite lookup_union_r.
Qed.

(** X12.  [get_client_params] resolves the API key as the instance's own
    when that is truthy (the environment then makes no difference), else as
    the value of [GROQ_API_KEY], and stores the result on the instance.
    When neither gives a non-empty key it logs an error and goes on without
    raising: the parameters then have no ["api_key"] (unless the instance's
    [client_params] supply one). *)
Theorem api_key_resolution getenv self :
  let key := py_or (ClientSettings.api_key self) (env_value getenv "GROQ_API_KEY") in
  let out := get_client_params getenv self in
  ClientSettings.api_key out.1.2 = key /\
  (Py.truthy (ClientSettings.api_key self) = true -> key = ClientSettings.api_key self) /\
  (Py.truthy (ClientSettings.api_key self) = false ->
   key = env_value getenv "GROQ_API_KEY") /\
  (out.2 = [] <-> Py.truthy key = true) /\
  (supplied self "api_key" = None ->
   out.1.1 !! "api_key" = if Py.truthy key then Some key else None).
Proof.
  cbv zeta. unfold get_client_params, env_value, py_or.
  cbn [fst snd ClientSettings.api_key ClientSettings.set_api_key
       ClientSettings.base_url ClientSettings.timeout ClientSettings.max_retries
       ClientSettings.default_headers ClientSettings.default_query
       ClientSettings.client_params].
  split; [reflexivity | ]. split; [now intros -> | ]. split; [now intros -> | ]. split.
  - destruct (Py.truthy (if Py.truthy _ then _ else _)); split; try discriminate; reflexivity.
  - intros Hno. rewrite lookup_client_params, Hno. lookup_param. reflexivity.
Qed.

Lemma api_key_resolution_witness :
  let unset := ClientSettings.mk (Py.OStr "") Py.ONone Py.ONone Py.ONone Py.ONone Py.ONone None in
  let out := get_client_params (fun _ => None) unset in
  out.2 = ["GROQ_API_KEY not set. Please set the GROQ_API_KEY environment variable."] /\
  out.1.1 !! "api_key" = None /\
  (get_client_params (fun _ => Some "gsk_env") unset).1.1 !! "api_key" =
    Some (Py.OStr "gsk_env").
Proof.
  intros unset out. split; [reflexivity | ]. split.
  - exact (proj2 (proj2 (proj2 (proj2 (api_key_resolution (fun _ => None) unset)))) eq_refl).
  - exact (proj2 (proj2 (proj2 (proj2 (api_key_resolution (fun _ => Some "gsk_env") unset))))
             eq_refl).
Defined.

(** X13.  Each of [base_url], [timeout], [max_retries], [default_headers]
    and [default_query] reaches the client's parameters exactly when it is
    truthy, so a [timeout] or a [max_retries] of [0] is dropped like an unset
    one; and an entry of the instance's [client_params] mapping is always
    passed on as it is, overriding the instance's own setting and API key. *)
Theorem client_settings_truthy getenv self :
  (forall p, supplied self (ClientParam.key p) = None ->
             (get_client_params getenv self).1.1 !! ClientParam.key p =
             if Py.truthy (ClientParam.value p self)
             then Some (ClientParam.value p self) else None) /\
  (forall k v, supplied self k = Some v ->
               (get_client_params getenv self).1.1 !! k = Some v).
Proof.
  unfold get_client_params.
  cbn [fst snd ClientSettings.api_key ClientSettings.set_api_key
       ClientSettings.base_url ClientSettings.timeout ClientSettings.max_retries
       ClientSettings.default_headers ClientSettings.default_query
       ClientSettings.client_params].
  split.
  - intros p Hno. rewrite lookup_client_params, Hno.
    destruct p; cbn [ClientParam.key ClientParam.value]; lookup_param;
      match goal with |- context [Py.truthy ?v] => now destruct (Py.truthy v) end.
  - intros k v Hk. now rewrite lookup_client_params, Hk.
Qed.

Lemma client_settings_witness :
  let no_retries :=
    ClientSettings.mk (Py.OStr "gsk_1") Py.ONone Py.ONone (Py.OInt 0) Py.ONone Py.ONone None in
  let forced :=
    ClientSettings.mk (Py.OStr "gsk_1") Py.ONone Py.ONone (Py.OInt 0) Py.ONone Py.ONone
      (Some {["max_retries" := Py.OInt 0]}) in
  (get_client_params (fun _ => None) no_retries).1.1 !! "max_retries" = None /\
  (get_client_params (fun _ => None) forced).1.1 !! "max_retries" = Some (Py.OInt 0).
Proof.
  intros no_retries forced. split.
  - exact (proj1 (client_settings_truthy (fun _ => None) no_retries)
             ClientParam.max_retries eq_refl).
  - exact (proj2 (client_settings_truthy (fun _ => None) forced)
             "max_retries" (Py.OInt 0) eq_refl).
Defined.

(** ** The retry loop of the PDF-URL reader, in general *)

Ltac fetched :=
  cbn; rewrite ?app_nil_r, <- ?app_assoc; repeat split; eauto; try lia; repeat constructor.

Section PdfFetch.

Import PdfUrl.

(** A response after [length failed <= 2] failed attempts. *)
Lemma fetch_returns url failed response rest w :
  Forall unreachable failed -> length failed <= 2 ->
  network w = failed ++ Fetched response :: rest ->
  fetch url (seq 0 3) w =
  (Return response,
   Build_World rest (slept w ++ take (length failed) [1; 2])
               (log w ++ retry_warnings (length failed))).
Proof.
  intros Hall Hlen Hnet.
  destruct failed as [ | [r1 | e1] [ | [r2 | e2] [ | f3 failed]]];
    try (cbn in Hlen; lia);
    try (exfalso; inversion Hall as [ | ? ? H1 H2]; subst;
         first [exact H1 | inversion H2 as [ | ? ? H3 _]; exact H3]);
    cbn [app] in Hnet; run_reader; rewrite Hnet; run_reader;
    cbn [length take retry_warnings map]; rewrite ?app_nil_r, <- ?app_assoc; reflexivity.
Qed.

(** Every run of the loop: some attempts failed, each but the third was
    followed by a wait, and then the loop returned a response, or gave up at
    the third failure, or the model's network script ran out. *)
Lemma fetch_inv url w o w' :
  fetch url (seq 0 3) w = (o, w') ->
  exists failed,
    Forall unreachable failed /\
    slept w' = slept w ++ take (length failed) [1; 2] /\
    match o with
    | Return response =>
        length failed <= 2 /\ network w = failed ++ Fetched response :: network w' /\
        log w' = log w ++ retry_warnings (length failed)
    | Raise e =>
        length failed = 3 /\ network w = failed ++ network w' /\
        exists message, e = Py.RequestError message /\
                        last failed = Some (Unreachable message)
    | Starved => length failed <= 2 /\ network w = failed /\ network w' = []
    end.
Proof.
  destruct (network w) as [ | [r1 | e1] n1] eqn:Hnet.
  { run_reader. rewrite Hnet. intros [= <- <-]. exists []. fetched. }
  { run_reader. rewrite Hnet. intros [= <- <-]. exists []. fetched. }
  destruct n1 as [ | [r2 | e2] n2].
  { run_reader. rewrite Hnet. run_reader. intros [= <- <-]. exists [Unreachable e1]. fetched. }
  { run_reader. rewrite Hnet. run_reader. intros [= <- <-]. exists [Unreachable e1]. fetched. }
  destruct n2 as [ | [r3 | e3] n3];
    run_reader; rewrite Hnet; run_reader; intros [= <- <-].
  - exists [Unreachable e1; Unreachable e2]. fetched.
  - exists [Unreachable e1; Unreachable e2]. fetched.
  - exists [Unreachable e1; Unreachable e2; Unreachable e3]. fetched.
Qed.

End PdfFetch.

Section PdfReads.

Import PdfUrl.

Context (lib : Library) (self : Reader).

(** [read] up to the end of the retry loop. *)
Lemma read_fetch url w :
  url <> "" ->
  read lib self url w =
  (response ← fetch url (seq 0 3);
   (if is_error_status lib (status_code response)
    then
      logger Error ("HTTP error occurred: " +:+ pretty (status_code response)
                    +:+ " - " +:+ text response);;
      raise (Py.HTTPStatusError (status_code response))
    else mret tt);;
   pages ←
     match page_texts lib (body response) with
     | Some pages => mret pages
     | None => raise (Py.PdfReadError "")
     end;
   let documents :=
     imap (fun i text => _build_document (document_name url) (S i) text) pages in
   if chunk self then mret (_build_chunked_documents lib documents)
   else mret documents)
    (Build_World (network w) (slept w) (log w ++ [(Info, "Reading: " +:+ url)])).
Proof.
  intros Hurl. unfold read. destruct (String.eqb_spec url "") as [? | _]; [contradiction | ].
  reflexivity.
Qed.

(** What [read] does after the loop has returned [response] in world [w]. *)
Lemma read_after_fetch url response w :
  ((if is_error_status lib (status_code response)
    then
      logger Error ("HTTP error occurred: " +:+ pretty (status_code response)
                    +:+ " - " +:+ text response);;
      raise (Py.HTTPStatusError (status_code response))
    else mret tt);;
   pages ←
     match page_texts lib (body response) with
     | Some pages => mret pages
     | None => raise (Py.PdfReadError "")
     end;
   let documents :=
     imap (fun i text => _build_document (document_name url) (S i) text) pages in
   if chunk self then mret (_build_chunked_documents lib documents)
   else mret documents) w =
  if is_error_status lib (status_code response)
  then (Raise (Py.HTTPStatusError (status_code response)),
        Build_World (network w) (slept w)
          (log w ++ [(Error, "HTTP error occurred: " +:+ pretty (status_code response)
                               +:+ " - " +:+ text response)]))
  else
    match page_texts lib (body response) with
    | Some pages =>
      (Return (let documents :=
                 imap (fun i text => _build_document (document_name url) (S i) text) pages in
               if chunk self then _build_chunked_documents lib documents else documents),
       w)
    | None => (Raise (Py.PdfReadError ""), w)
    end.
Proof.
  destruct (is_error_status lib (status_code response)); [reflexivity | ].
  destruct (page_texts lib (body response)) as [pages | ]; [ | reflexivity].
  now destruct (chunk self).
Qed.

End PdfReads.

(** X14.  Whatever the network does, [PDFUrlReader.read] fetches at most
    three times and waits at most twice, 1 s and then 2 s: the answers it
    used are a prefix of at most three of the network's, and the waits it
    added are a prefix of [1; 2], never more of them than fetches. *)
Theorem read_fetches_at_most_three_times lib self url w :
  let out := PdfUrl.read lib self url w in
  exists used k,
    PdfUrl.network w = used ++ PdfUrl.network out.2 /\
    length used <= 3 /\ k <= 2 /\ k <= length used /\
    PdfUrl.slept out.2 = PdfUrl.slept w ++ take k [1; 2].
Proof.
  cbv zeta. destruct (String.eqb_spec url "") as [-> | Hurl].
  { exists [], 0. cbn. rewrite app_nil_r. repeat split; auto. }
  destruct (PdfUrl.read lib self url w) as [o w'] eqn:R. cbn [snd].
  rewrite read_fetch in R by assumption. unfold mbind at 1, M_bind at 1, bind at 1 in R.
  destruct (PdfUrl.fetch url (seq 0 3) _) as [[response | e | ] w1] eqn:E;
    apply fetch_inv in E as (failed & _ & Hs & E); cbn [PdfUrl.network PdfUrl.slept] in *.
  - destruct E as (Hlen & Hnet & _). exists (failed ++ [PdfUrl.Fetched response]), (length failed).
    rewrite read_after_fetch in R.
    destruct (PdfUrl.is_error_status lib _); [ | destruct (PdfUrl.page_texts lib _)];
      injection R as <- <-; cbn [PdfUrl.network PdfUrl.slept];
      rewrite Hs, Hnet, <- app_assoc, length_app; cbn; repeat split; auto; lia.
  - injection R as <- <-. destruct E as (Hlen & Hnet & _). exists failed, 2.
    rewrite Hs, Hlen. repeat split; auto; lia.
  - injection R as <- <-. destruct E as (Hlen & Hnet & Hnil). exists failed, (length failed).
    rewrite Hnil, app_nil_r. repeat split; auto; lia.
Qed.

(** X15.  Only [httpx.RequestError] is retried.  An empty URL is refused
    with [ValueError] before anything is logged or fetched.  A response with
    an error status, at whichever attempt it comes, is logged as an error
    (the status code, then the response's text) and raised as
    [HTTPStatusError] at once: nothing more is fetched and no wait follows
    it. *)
Theorem read_errors_not_retried lib self url failed response rest w :
  (PdfUrl.read lib self "" w = (Raise (Py.ValueError "No url provided"), w)) /\
  (url <> "" ->
   Forall unreachable failed -> length failed <= 2 ->
   PdfUrl.network w = failed ++ PdfUrl.Fetched response :: rest ->
   PdfUrl.is_error_status lib (PdfUrl.status_code response) = true ->
   exists w',
     PdfUrl.read lib self url w =
       (Raise (Py.HTTPStatusError (PdfUrl.status_code response)), w') /\
     PdfUrl.network w' = rest /\
     PdfUrl.slept w' = PdfUrl.slept w ++ take (length failed) [1; 2] /\
     last (PdfUrl.log w') =
       Some (PdfUrl.Error,
             "HTTP error occurred: " +:+ pretty (PdfUrl.status_code response)
               +:+ " - " +:+ PdfUrl.text response)).
Proof.
  split; [reflexivity | ].
  intros Hurl Hall Hlen Hnet Herr. rewrite read_fetch by assumption.
  unfold mbind at 1, M_bind at 1, bind at 1.
  erewrite fetch_returns; eauto. rewrite read_after_fetch, Herr.
  eexists. split; [reflexivity | ]. cbn [PdfUrl.network PdfUrl.slept PdfUrl.log].
  repeat split. apply last_snoc.
Qed.

Lemma read_errors_witness :
  let gone := PdfUrl.Build_Response 404 "not found" "not found" in
  let w := PdfUrl.fresh [PdfUrl.Unreachable "timeout"; PdfUrl.Fetched gone;
                         PdfUrl.Fetched (PdfUrl.Build_Response 200 "page one" "page one")] in
  exists w',
    PdfUrl.read PdfUrl.lib (PdfUrl.Build_Reader false) "https://example.com/paper.pdf" w =
      (Raise (Py.HTTPStatusError 404), w') /\
    PdfUrl.network w' = [PdfUrl.Fetched (PdfUrl.Build_Response 200 "page one" "page one")] /\
    PdfUrl.slept w' = [] ++ [1] /\
    last (PdfUrl.log w') = Some (PdfUrl.Error, "HTTP error occurred: 404 - not found").
Proof.
  intros gone w.
  apply (proj2 (read_errors_not_retried PdfUrl.lib (PdfUrl.Build_Reader false)
                  "https://example.com/paper.pdf" [PdfUrl.Unreachable "timeout"] gone
                  [PdfUrl.Fetched (PdfUrl.Build_Response 200 "page one" "page one")] w)).
  - discriminate.
  - repeat constructor.
  - cbn. lia.
  - reflexivity.
  - reflexivity.
Defined.

(** Every run of [read] that returns. *)
Lemma read_returns_inv lib self url w docs w' :
  PdfUrl.read lib self url w = (Return docs, w') ->
  exists failed response pages,
    url <> "" /\ Forall unreachable failed /\ length failed <= 2 /\
    PdfUrl.network w = failed ++ PdfUrl.Fetched response :: PdfUrl.network w' /\
    PdfUrl.is_error_status lib (PdfUrl.status_code response) = false /\
    PdfUrl.page_texts lib (PdfUrl.body response) = Some pages /\
    docs =
      (let documents :=
         imap (fun i text => PdfUrl._build_document (PdfUrl.document_name url) (S i) text)
              pages in
       if PdfUrl.chunk self then PdfUrl._build_chunked_documents lib documents
       else documents).
Proof.
  intros R. destruct (String.eqb_spec url "") as [-> | Hurl]; [discriminate | ].
  rewrite read_fetch in R by assumption. unfold mbind at 1, M_bind at 1, bind at 1 in R.
  destruct (PdfUrl.fetch url (seq 0 3) _) as [[response | e | ] w1] eqn:E; try discriminate.
  apply fetch_inv in E as (failed & Hall & _ & Hlen & Hnet & _).
  cbn [PdfUrl.network] in Hnet. rewrite read_after_fetch in R.
  destruct (PdfUrl.is_error_status lib _) eqn:Hok; [discriminate | ].
  destruct (PdfUrl.page_texts lib _) as [pages | ] eqn:Hpages; [ | discriminate].
  injection R as <- <-. exists failed, response, pages. repeat split; auto.
Qed.

(** X16.  When [PDFUrlReader.read] returns, the documents come from the
    first response the network gave: every answer before it was a failed
    attempt, there were at most two of those, and the response had no error
    status.  There is one document per page in page order, named after the
    URL, numbered from 1 in its id and its page number, with the page's text
    as content; with chunking on, the result is the chunks of these
    documents, in the same order. *)
Theorem read_documents_follow_pages lib self url w docs w' :
  PdfUrl.read lib self url w = (Return docs, w') ->
  exists failed response pages documents,
    PdfUrl.network w = failed ++ PdfUrl.Fetched response :: PdfUrl.network w' /\
    Forall unreachable failed /\ length failed <= 2 /\
    PdfUrl.is_error_status lib (PdfUrl.status_code response) = false /\
    PdfUrl.page_texts lib (PdfUrl.body response) = Some pages /\
    length documents = length pages /\
    (forall i text,
        pages !! i = Some text ->
        documents !! i =
          Some (PdfUrl.Build_Document (PdfUrl.document_name url)
                  (PdfUrl.document_name url +:+ "_" +:+ pretty (S i)) (S i) text)) /\
    docs = if PdfUrl.chunk self
           then concat (map (PdfUrl.chunk_document lib) documents)
           else documents.
Proof.
  intros R. apply read_returns_inv in R
    as (failed & response & pages & _ & Hall & Hlen & Hnet & Hok & Hpages & ->).
  exists failed, response, pages,
    (imap (fun i text => PdfUrl._build_document (PdfUrl.document_name url) (S i) text) pages).
  repeat (split; [assumption | ]). split; [ | split].
  - apply length_imap.
  - intros i text Hi. now rewrite list_lookup_imap, Hi.
  - reflexivity.
Qed.

Lemma read_documents_witness :
  let two_pages := "page one" +:+ String "012"%char "page two" in
  let w := PdfUrl.fresh [PdfUrl.Unreachable "timeout";
                         PdfUrl.Fetched (PdfUrl.Build_Response 200 two_pages two_pages);
                         PdfUrl.Fetched (PdfUrl.Build_Response 200 "page one" "page one")] in
  exists docs w' failed response pages,
    PdfUrl.read PdfUrl.lib (PdfUrl.Build_Reader false) "https://example.com/my paper.v2.pdf" w =
      (Return docs, w') /\
    PdfUrl.network w = failed ++ PdfUrl.Fetched response :: PdfUrl.network w' /\
    Forall unreachable failed /\
    PdfUrl.page_texts PdfUrl.lib (PdfUrl.body response) = Some pages /\
    length docs = length pages /\
    (forall i text,
        pages !! i = Some text ->
        docs !! i = Some (PdfUrl.Build_Document "my_paper" ("my_paper_" +:+ pretty (S i))
                            (S i) text)) /\
    PdfUrl.doc_content <$> docs = ["page one"; "page two"].
Proof.
  intros two_pages w.
  eassert (E : PdfUrl.read PdfUrl.lib (PdfUrl.Build_Reader false)
                 "https://example.com/my paper.v2.pdf" w = (Return _, _))
    by (vm_compute; reflexivity).
  destruct (read_documents_follow_pages _ _ _ _ _ _ E)
    as (failed & response & pages & documents & Hnet & Hall & _ & _ & Hp & Hl & Hi & Hd).
  cbn [PdfUrl.chunk] in Hd. subst documents.
  eexists _, _, failed, response, pages.
  split; [exact E | ]. do 4 (split; [assumption | ]).
  split; [exact Hi | reflexivity].
Defined.

(** ** Document names *)

Lemma split_cons c s : exists x xs, PdfUrl.split c s = x :: xs.
Proof.
  induction s as [ | a s (x & xs & IH)]; cbn; [eauto | ].
  destruct (Ascii.eqb a c); [eauto | ]. rewrite IH. eauto.
Qed.

(** No piece of [s.split(c)] contains [c]. *)
Lemma split_pieces c s x : x ∈ PdfUrl.split c s -> occurs c x = false.
Proof.
  revert x. induction s as [ | a s IH]; cbn; intros x Hx.
  - apply list_elem_of_singleton in Hx as ->. reflexivity.
  - destruct (Ascii.eqb a c) eqn:E.
    + apply elem_of_cons in Hx as [-> | Hx]; [reflexivity | now apply IH].
    + destruct (split_cons c s) as (y & ys & Hs). rewrite Hs in *.
      apply elem_of_cons in Hx as [-> | Hx].
      * cbn. rewrite E. apply IH. now left.
      * apply IH. now right.
Qed.

(** A character that is not in [s] is in no piece of [s.split(c)]. *)
Lemma split_pieces_other c d s x :
  occurs d s = false -> x ∈ PdfUrl.split c s -> occurs d x = false.
Proof.
  revert x. induction s as [ | a s IH]; cbn; intros x Hd Hx.
  - apply list_elem_of_singleton in Hx as ->. reflexivity.
  - apply orb_false_iff in Hd as [Ha Hd]. destruct (Ascii.eqb a c).
    + apply elem_of_cons in Hx as [-> | Hx]; [reflexivity | now apply IH].
    + destruct (split_cons c s) as (y & ys & Hs). rewrite Hs in *.
      apply elem_of_cons in Hx as [-> | Hx].
      * cbn. rewrite Ha. apply IH; [assumption | now left].
      * apply IH; [assumption | now right].
Qed.

Lemma split_last c s : List.last (PdfUrl.split c s) EmptyString ∈ PdfUrl.split c s.
Proof.
  destruct (split_cons c s) as (x & xs & ->).
  generalize x. induction xs as [ | y ys IH]; intros z; [now left | ].
  right. apply (IH y).
Qed.

Lemma split_hd c s : List.hd EmptyString (PdfUrl.split c s) ∈ PdfUrl.split c s.
Proof. destruct (split_cons c s) as (x & xs & ->). now left. Qed.

Lemma replace_removes a b s : a <> b -> occurs a (PdfUrl.replace a b s) = false.
Proof.
  intros Hab. induction s as [ | x s IH]; [reflexivity | ]. cbn.
  rewrite IH, orb_false_r. destruct (Ascii.eqb_spec x a) as [-> | Hx].
  - apply Ascii.eqb_neq. now apply not_eq_sym.
  - now apply Ascii.eqb_neq.
Qed.

Lemma replace_keeps_out a b c s :
  c <> b -> occurs c s = false -> occurs c (PdfUrl.replace a b s) = false.
Proof.
  intros Hcb. induction s as [ | x s IH]; [reflexivity | ]. cbn.
  intros H. apply orb_false_iff in H as [Hx Hs]. rewrite (IH Hs), orb_false_r.
  destruct (Ascii.eqb x a); [ | assumption].
  apply Ascii.eqb_neq. now apply not_eq_sym.
Qed.

Lemma replace_absent a b s : occurs a s = false -> PdfUrl.replace a b s = s.
Proof.
  induction s as [ | x s IH]; [reflexivity | ]. cbn.
  intros H. apply orb_false_iff in H as [Hx Hs]. now rewrite Hx, (IH Hs).
Qed.

(** X17.  The name that [PDFUrlReader.read] gives the documents of a URL,
    and [PDFReader.read] those of a path given as a string, is the same
    function of the string: what follows the last ["/"], up to its first
    ["."], with spaces replaced by underscores.  It contains no ["/"], no
    ["."] and no space; the URL reader's additional replacement of ["/"]
    never finds one. *)
Theorem document_names_clean (s : string) :
  PdfUrl.document_name s = PDFReader.doc_name (PDFReader.Str s) /\
  occurs "/"%char (PdfUrl.document_name s) = false /\
  occurs "."%char (PdfUrl.document_name s) = false /\
  occurs " "%char (PdfUrl.document_name s) = false.
Proof.
  assert (Hslash :
    occurs "/"%char
      (List.hd EmptyString
         (PdfUrl.split "."%char (List.last (PdfUrl.split "/"%char s) EmptyString))) = false).
  { eapply split_pieces_other; [ | apply split_hd].
    eapply split_pieces, split_last. }
  assert (Hname : PdfUrl.document_name s = PDFReader.doc_name (PDFReader.Str s)).
  { unfold PdfUrl.document_name, PDFReader.doc_name. now rewrite (replace_absent _ _ _ Hslash). }
  split; [exact Hname | ]. rewrite Hname. unfold PDFReader.doc_name. repeat split.
  - now apply replace_keeps_out.
  - apply replace_keeps_out; [discriminate | ]. eapply split_pieces, split_hd.
  - now apply replace_removes.
Qed.

Lemma split_absent c s : occurs c s = false -> PdfUrl.split c s = [s].
Proof.
  induction s as [ | a s IH]; [reflexivity | ]. cbn.
  intros H. apply orb_false_iff in H as [Ha Hs]. now rewrite Ha, (IH Hs).
Qed.

Lemma split_app c d f :
  PdfUrl.split c (d +:+ String c f) = PdfUrl.split c d ++ PdfUrl.split c f.
Proof.
  induction d as [ | a d IH].
  - change ("" +:+ String c f) with (String c f). cbn [PdfUrl.split app].
    now rewrite Ascii.eqb_refl.
  - change (String a d +:+ String c f) with (String a (d +:+ String c f)).
    cbn [PdfUrl.split]. rewrite IH. destruct (Ascii.eqb a c); [reflexivity | ].
    now destruct (split_cons c d) as (x & xs & ->).
Qed.

Lemma last_app_cons {A} (l1 : list A) x l2 d : List.last (l1 ++ x :: l2) d = List.last (x :: l2) d.
Proof.
  induction l1 as [ | y l1 IH]; [reflexivity | ].
  cbn [app]. rewrite <- IH. cbn. now destruct (l1 ++ x :: l2) eqn:E; [destruct l1 | ].
Qed.

(** X18.  For a URL or path of the form [dir/stem.ext], with no ["/"] and
    no ["."] in [stem] and no ["/"] in [ext], the document name is [stem]
    with its spaces replaced by underscores: neither the directory nor the
    extension has any part in it, so two files of the same name in
    different places get documents of the same name and ids. *)
Theorem document_name_is_the_stem dir stem ext :
  occurs "/"%char stem = false -> occurs "."%char stem = false ->
  occurs "/"%char ext = false ->
  PdfUrl.document_name (dir +:+ String "/"%char (stem +:+ String "."%char ext)) =
  PdfUrl.replace " "%char "_"%char stem.
Proof.
  intros Hs Hd He.
  assert (Hfile : occurs "/"%char (stem +:+ String "."%char ext) = false).
  { clear Hd. induction stem as [ | a stem IH]; [exact He | ].
    change (occurs "/"%char (String a (stem +:+ String "."%char ext)) = false).
    cbn [occurs] in *. apply orb_false_iff in Hs as [Ha Hs]. now rewrite Ha, (IH Hs). }
  unfold PdfUrl.document_name.
  rewrite split_app, (split_absent _ _ Hfile), last_app_cons. cbn [List.last].
  rewrite split_app, (split_absent _ _ Hd). cbn [app List.hd].
  now rewrite (replace_absent _ _ _ Hs).
Qed.

Lemma document_name_witness :
  PdfUrl.document_name "https://example.com/a/my paper.v2.pdf" = "my_paper" /\
  PdfUrl.document_name "/tmp/b/my paper.pdf" = "my_paper".
Proof.
  split.
  - exact (document_name_is_the_stem "https://example.com/a" "my paper" "v2.pdf"
             eq_refl eq_refl eq_refl).
  - exact (document_name_is_the_stem "/tmp/b" "my paper" "pdf" eq_refl eq_refl eq_refl).
Defined.

Lemma append_inj (s a b : string) : s +:+ a = s +:+ b -> a = b.
Proof.
  induction s as [ | x s IH]; [auto | ].
  change (String x (s +:+ a) = String x (s +:+ b) -> a = b). intros [= H]. auto.
Qed.

(** X19.  Without chunking, the documents that one [PDFUrlReader.read]
    returns have pairwise different ids. *)
Theorem read_document_ids_differ lib self url w docs w' :
  PdfUrl.chunk self = false ->
  PdfUrl.read lib self url w = (Return docs, w') ->
  NoDup (PdfUrl.doc_id <$> docs).
Proof.
  intros Hchunk R.
  apply read_returns_inv in R as (_ & _ & pages & _ & _ & _ & _ & _ & _ & ->).
  cbv zeta. rewrite Hchunk. apply NoDup_alt. intros i j id Hi Hj.
  rewrite list_lookup_fmap, list_lookup_imap in Hi, Hj.
  destruct (pages !! i) as [ti | ]; [ | discriminate].
  destruct (pages !! j) as [tj | ]; [ | discriminate].
  cbn in Hi, Hj. injection Hi as <-. injection Hj as Hj.
  apply append_inj, append_inj in Hj. apply pretty_nat_inj in Hj. lia.
Qed.

Lemma read_document_ids_witness :
  let three_pages :=
    "page one" +:+ String "012"%char ("page two" +:+ String "012"%char "page one") in
  let w := PdfUrl.fresh [PdfUrl.Fetched (PdfUrl.Build_Response 200 three_pages three_pages)] in
  exists docs w',
    PdfUrl.read PdfUrl.lib (PdfUrl.Build_Reader false) "https://example.com/paper.pdf" w =
      (Return docs, w') /\
    PdfUrl.doc_content <$> docs = ["page one"; "page two"; "page one"] /\
    NoDup (PdfUrl.doc_id <$> docs).
Proof.
  intros three_pages w.
  eassert (E : PdfUrl.read PdfUrl.lib (PdfUrl.Build_Reader false)
                 "https://example.com/paper.pdf" w = (Return _, _))
    by (vm_compute; reflexivity).
  eexists _, _. split; [exact E | ]. split; [reflexivity | ].
  exact (read_document_ids_differ PdfUrl.lib (PdfUrl.Build_Reader false) _ _ _ _ eq_refl E).
Defined.

(** ** The asynchronous PDF-URL reader *)

(** X20.  [PDFUrlReader.async_read] calls its [process_page(page_number,
    page)] with three arguments, so building the list of coroutines raises
    [TypeError] at the first page: after a fetch that succeeded (within the
    three attempts, no error status, a readable PDF) it returns the empty
    list for a PDF without pages and raises [TypeError] for every other one,
    where [read] returns the documents. *)
Theorem async_read_raises_for_any_page lib self url failed response rest pages w :
  url <> "" ->
  Forall unreachable failed -> length failed <= 2 ->
  PdfUrl.network w = failed ++ PdfUrl.Fetched response :: rest ->
  PdfUrl.is_error_status lib (PdfUrl.status_code response) = false ->
  PdfUrl.page_texts lib (PdfUrl.body response) = Some pages ->
  (PDFUrlReaderAsync.async_read lib self url w).1 =
    match pages with
    | [] => Return []
    | _ :: _ => Raise Py.TypeError
    end /\
  exists docs, (PdfUrl.read lib self url w).1 = Return docs.
Proof.
  intros Hurl Hall Hlen Hnet Hok Hpages. split.
  - unfold PDFUrlReaderAsync.async_read.
    destruct (String.eqb_spec url "") as [? | _]; [contradiction | ].
    unfold mbind at 1, M_bind at 1, bind at 1.
    unfold PdfUrl.logger at 1, modify at 1. cbv beta iota.
    unfold mbind at 1, M_bind at 1, bind at 1.
    erewrite (fetch_returns url failed response rest); eauto.
    rewrite Hok. unfold mbind at 1, M_bind at 1, bind at 1. cbn [mret M_ret ret].
    rewrite Hpages. unfold mbind at 1, M_bind at 1, bind at 1. cbn [mret M_ret ret].
    destruct pages as [ | page pages].
    + cbn. now destruct (PdfUrl.chunk self).
    + reflexivity.
  - rewrite read_fetch by assumption. unfold mbind at 1, M_bind at 1, bind at 1.
    erewrite fetch_returns; eauto. rewrite read_after_fetch, Hok, Hpages. eauto.
Qed.

Lemma async_read_witness :
  let w := PdfUrl.fresh [PdfUrl.Fetched (PdfUrl.Build_Response 200 "page one" "page one")] in
  (PDFUrlReaderAsync.async_read PdfUrl.lib (PdfUrl.Build_Reader false)
     "https://example.com/paper.pdf" w).1 = Raise Py.TypeError /\
  exists docs,
    (PdfUrl.read PdfUrl.lib (PdfUrl.Build_Reader false) "https://example.com/paper.pdf" w).1 =
    Return docs.
Proof.
  intros w.
  apply (async_read_raises_for_any_page PdfUrl.lib (PdfUrl.Build_Reader false)
           "https://example.com/paper.pdf" [] (PdfUrl.Build_Response 200 "page one" "page one") []
           ["page one"] w).
  - discriminate.
  - constructor.
  - cbn. lia.
  - reflexivity.
  - reflexivity.
  - reflexivity.
Defined.

(** ** The reader of text and images from a URL *)

(** X21.  [PDFUrlImageReader.read] fetches exactly once and never waits: a
    transient [httpx.RequestError] reaches the caller at once, with nothing
    logged about it; and the status of the response is never looked at, so
    the body of an error response is handed to the PDF parser like any
    other (the result, documents or the parser's failure, is the same for
    every status code). *)
Theorem image_reader_fetches_once lib document_reader self url answer rest w :
  url <> "" ->
  PdfUrl.network w = answer :: rest ->
  let out := PDFUrlImageReader.read lib document_reader self url w in
  PdfUrl.network out.2 = rest /\
  PdfUrl.slept out.2 = PdfUrl.slept w /\
  PdfUrl.log out.2 = PdfUrl.log w ++ [(PdfUrl.Info, "Reading: " +:+ url)] /\
  match answer with
  | PdfUrl.Unreachable e => out.1 = Raise (Py.RequestError e)
  | PdfUrl.Fetched response =>
      forall status_code,
        out.1 =
        (PDFUrlImageReader.read lib document_reader self url
           (PdfUrl.Build_World
              (PdfUrl.Fetched (PdfUrl.Build_Response status_code (PdfUrl.body response)
                                         (PdfUrl.text response))
                 :: rest)
              (PdfUrl.slept w) (PdfUrl.log w))).1
  end.
Proof.
  intros Hurl Hnet. cbv zeta. unfold PDFUrlImageReader.read.
  destruct (String.eqb_spec url "") as [? | _]; [contradiction | ].
  unfold mbind, M_bind, bind, PdfUrl.logger, modify, PdfUrl.httpx_get, mret, M_ret, ret, raise.
  cbn [PdfUrl.network PdfUrl.slept PdfUrl.log]. rewrite Hnet.
  destruct answer as [response | e]; [ | now repeat split].
  cbn [PdfUrl.body].
  destruct (document_reader (PdfUrl.body response)) as [pages | ]; [ | now repeat split].
  destruct (PdfUrl.chunk self); now repeat split.
Qed.

Lemma image_reader_witness :
  let reader (body : string) :=
    Some [PDFUrlImageReader.Build_Page (Some body) [Some ["scanned"]; None]] in
  let w := PdfUrl.fresh [PdfUrl.Fetched (PdfUrl.Build_Response 404 "not found" "not found");
                         PdfUrl.Fetched (PdfUrl.Build_Response 200 "page one" "page one")] in
  let out := PDFUrlImageReader.read PdfUrl.lib reader (PdfUrl.Build_Reader false)
               "https://example.com/scan.pdf" w in
  PdfUrl.network out.2 = [PdfUrl.Fetched (PdfUrl.Build_Response 200 "page one" "page one")] /\
  PdfUrl.slept out.2 = [] /\
  PdfUrl.doc_content <$> match out.1 with Return docs => docs | _ => [] end =
    ["not found" +:+ String "010"%char "scanned"].
Proof.
  intros reader w out.
  destruct (image_reader_fetches_once PdfUrl.lib reader (PdfUrl.Build_Reader false)
              "https://example.com/scan.pdf" (PdfUrl.Fetched (PdfUrl.Build_Response 404 "not found" "not found"))
              [PdfUrl.Fetched (PdfUrl.Build_Response 200 "page one" "page one")] w
              ltac:(discriminate) eq_refl) as (Hn & Hs & _).
  split; [exact Hn | split; [exact Hs | reflexivity]].
Defined.

(** ** MongoDB workflow storage: documents, queries and updates *)

Section MongoDocuments.

Import Mongo MongoStorage.

Lemma matches_cons k v query doc :
  matches ((k, v) :: query) doc = bool_decide (doc !! k = Some v) && matches query doc.
Proof. reflexivity. Qed.

Lemma matches_app q1 q2 doc : matches (q1 ++ q2) doc = matches q1 doc && matches q2 doc.
Proof. unfold matches. apply forallb_app. Qed.

Lemma matches_session_id sid doc :
  matches [("session_id", sid)] doc = true <-> doc !! "session_id" = Some sid.
Proof.
  rewrite matches_cons. cbn. rewrite andb_true_r. apply bool_decide_eq_true.
Qed.

(** A query for another session id does not match a document of [sid]. *)
Lemma matches_other_session sid sid' query doc :
  sid' <> sid -> doc !! "session_id" = Some sid ->
  matches (("session_id", sid') :: query) doc = false.
Proof.
  intros Hne Hdoc. rewrite matches_cons, Hdoc.
  rewrite bool_decide_eq_false_2; [reflexivity | ]. intros [= E]. now apply Hne.
Qed.

Lemma find_one_Some query docs doc :
  find_one query docs = Some doc -> doc ∈ docs /\ matches query doc = true.
Proof.
  unfold find_one. intros H. apply find_some in H as [Hin Hm].
  split; [now apply list_elem_of_In | assumption].
Qed.

Lemma find_one_None query docs :
  find_one query docs = None -> forall doc, doc ∈ docs -> matches query doc = false.
Proof.
  unfold find_one. intros H doc Hin. apply list_elem_of_In in Hin.
  now apply (find_none _ _ H).
Qed.

Lemma find_cons query doc docs :
  find query (doc :: docs) =
  if matches query doc then doc :: find query docs else find query docs.
Proof.
  unfold find. rewrite filter_cons. destruct (matches query doc) eqn:E.
  - now rewrite decide_True.
  - now rewrite decide_False by discriminate.
Qed.

Lemma find_one_find query docs : find_one query docs = head (find query docs).
Proof.
  unfold find_one. induction docs as [ | doc docs IH]; [reflexivity | ].
  rewrite find_cons. cbn [List.find]. now destruct (matches query doc).
Qed.

Lemma find_app query a b : find query (a ++ b) = find query a ++ find query b.
Proof. unfold find. apply filter_app. Qed.

(** The update leaves alone what a query for another session finds. *)
Lemma find_update_one_other sid sid' query update docs :
  sid' <> sid -> update !! "session_id" = Some sid ->
  find (("session_id", sid') :: query) (update_one [("session_id", sid)] update docs) =
  find (("session_id", sid') :: query) docs.
Proof.
  intros Hne Hupd. unfold update_one.
  assert (Hnew : forall old, matches (("session_id", sid') :: query) (update ∪ old) = false).
  { intros old. apply (matches_other_session sid); [assumption | ].
    now apply lookup_union_Some_l. }
  induction docs as [ | doc docs IH]; cbn [set_first].
  - cbn [app]. now rewrite find_cons, Hnew.
  - destruct (matches [("session_id", sid)] doc) eqn:E.
    + apply matches_session_id in E.
      now rewrite !find_cons, Hnew, (matches_other_session sid sid' query doc Hne E).
    + destruct (set_first _ update docs) as [docs' | ]; cbn [fmap option_fmap option_map] in *.
      * now rewrite !find_cons, IH.
      * rewrite <- app_comm_cons, !find_cons. now rewrite IH.
Qed.

(** The update keeps every document of [sid] a document of [sid], and adds
    one when there was none. *)
Lemma find_update_one_same sid update docs :
  update !! "session_id" = Some sid ->
  length (find [("session_id", sid)] (update_one [("session_id", sid)] update docs)) =
  Nat.max 1 (length (find [("session_id", sid)] docs)) /\
  length (update_one [("session_id", sid)] update docs) =
  match find_one [("session_id", sid)] docs with
  | Some _ => length docs
  | None => S (length docs)
  end.
Proof.
  intros Hupd. unfold update_one, find_one.
  assert (Hnew : forall old, matches [("session_id", sid)] (update ∪ old) = true).
  { intros old. apply matches_session_id. now apply lookup_union_Some_l. }
  induction docs as [ | doc docs [IH1 IH2]]; cbn [set_first List.find].
  - cbn [app]. now rewrite find_cons, Hnew.
  - destruct (matches [("session_id", sid)] doc) eqn:E.
    + rewrite !find_cons, Hnew, E. cbn [length]. split; [lia | reflexivity].
    + destruct (set_first _ update docs) as [docs' | ] eqn:Hset;
        cbn [fmap option_fmap option_map] in *.
      * rewrite !find_cons, E. split; [exact IH1 | ].
        destruct (List.find _ docs); cbn [length] in *; lia.
      * rewrite <- app_comm_cons, !find_cons, E. split; [exact IH1 | ].
        destruct (List.find _ docs); cbn [length] in *; lia.
Qed.

(** What the query finds after the update: the update laid over what it
    found before, or over the query's own fields. *)
Lemma find_one_update_one_eq query update docs :
  Forall (fun kv => update !! kv.1 = Some kv.2) query ->
  find_one query (update_one query update docs) =
  Some (update ∪ default (list_to_map query) (find_one query docs)).
Proof.
  intros H. unfold update_one, find_one.
  induction docs as [ | doc docs IH]; cbn.
  - now rewrite matches_union.
  - destruct (matches query doc) eqn:E.
    + cbn. now rewrite matches_union.
    + destruct (set_first query update docs) as [docs' | ]; cbn in *; rewrite E; exact IH.
Qed.

End MongoDocuments.

Section MongoUpserts.

Import Mongo MongoStorage.

(** [upsert] on a reachable collection, once the session has been
    serialised to [d]. *)
Lemma upsert_reachable add_one session timestamp c d sid :
  versioned add_one session = inr d -> d !! "session_id" = Some sid -> reachable c = true ->
  upsert add_one session timestamp c =
  let query := [("session_id", sid)] in
  let c' :=
    Build_Collection
      (update_one query (update_data_of d timestamp (find_one query (documents c)))
                  (documents c))
      (reachable c) (acknowledged c) in
  inr (if acknowledged c then read c' sid None else None, c').
Proof.
  intros Hd Hsid Hup. unfold upsert, update_data_of. rewrite Hd. cbv beta iota zeta.
  rewrite Hsid. cbv beta iota zeta. rewrite Hup. now destruct (acknowledged c).
Qed.

Lemma is_stored_not_empty sid docs doc :
  find_one [("session_id", sid)] docs = Some doc -> doc <> ∅.
Proof.
  intros H ->. apply find_one_Some in H as [_ H]. apply matches_session_id in H.
  now rewrite lookup_empty in H.
Qed.

Lemma update_data_of_lookup d timestamp sid docs k :
  update_data_of d timestamp (find_one [("session_id", sid)] docs) !! k =
  if decide (k = "created_at")
  then match find_one [("session_id", sid)] docs with
       | Some _ => d !! "created_at"
       | None => Some (Int timestamp)
       end
  else if decide (k = "updated_at") then Some (Int timestamp)
  else d !! k.
Proof.
  unfold update_data_of.
  destruct (find_one _ docs) as [doc | ] eqn:E.
  - rewrite decide_False by (eapply is_stored_not_empty; eauto).
    destruct (decide (k = "created_at")) as [-> | H1].
    + now rewrite lookup_insert_ne.
    + destruct (decide (k = "updated_at")) as [-> | H2].
      * now rewrite lookup_insert_eq.
      * now rewrite lookup_insert_ne.
  - destruct (decide (k = "created_at")) as [-> | H1].
    + now rewrite lookup_insert_eq.
    + rewrite lookup_insert_ne by auto.
      destruct (decide (k = "updated_at")) as [-> | H2].
      * now rewrite lookup_insert_eq.
      * now rewrite lookup_insert_ne.
Qed.

End MongoUpserts.

(** X22.  An upsert lays the session's serialised fields over the document
    stored under its id: the result has the session's value for every field
    the session serialises and keeps the stored value of every other field
    (nothing is ever removed), its [updated_at] is the time of this upsert,
    and its [created_at] is that time only when no document was stored: a
    later upsert keeps the one stored (or takes the session's own, if its
    dict has one). *)
Theorem upsert_merges_into_stored add_one session timestamp c sid v :
  Mongo.reachable c = true -> Mongo.acknowledged c = true ->
  filed_under session = Some sid -> next_version session = Some v ->
  exists doc c',
    Mongo.upsert add_one session timestamp c = inr (Some doc, c') /\
    doc !! "updated_at" = Some (Mongo.Int timestamp) /\
    doc !! "created_at" =
      match Mongo.find_one [("session_id", sid)] (Mongo.documents c) with
      | None => Some (Mongo.Int timestamp)
      | Some old =>
        match Mongo.to_dict session !! "created_at" with
        | Some x => Some x
        | None => old !! "created_at"
        end
      end /\
    (forall k, k <> "_version" -> k <> "session_id" -> k <> "updated_at" ->
               k <> "created_at" -> k <> "_id" ->
               doc !! k =
               match Mongo.to_dict session !! k with
               | Some x => Some x
               | None =>
                 Mongo.find_one [("session_id", sid)] (Mongo.documents c)
                   ≫= (fun old => old !! k)
               end).
Proof.
  intros Hup Hack Hsid Hv.
  destruct (versioned_inr add_one session v Hv) as (d & Hd & Hdv & Hds & Hdk).
  rewrite Hsid in Hds.
  rewrite (upsert_reachable add_one _ _ _ _ _ Hd Hds Hup). cbv zeta. rewrite Hack.
  unfold Mongo.read. cbn [Mongo.reachable Mongo.documents]. rewrite Hup.
  rewrite find_one_update_one_eq.
  2:{ constructor; [ | constructor]. cbn [fst snd].
      rewrite update_data_of_lookup. now rewrite !decide_False by discriminate. }
  set (old := default _ _).
  destruct (decide (_ ∪ old = ∅)) as [E | _].
  { exfalso. assert (H : (MongoStorage.update_data_of d timestamp
                            (Mongo.find_one [("session_id", sid)] (Mongo.documents c)) ∪ old)
                           !! "updated_at" = Some (Mongo.Int timestamp)).
    { apply lookup_union_Some_l. rewrite update_data_of_lookup.
      now rewrite decide_False, decide_True by (discriminate || reflexivity). }
    rewrite E, lookup_empty in H. discriminate. }
  eexists _, _. split; [reflexivity | ].
  rewrite !lookup_delete_ne by discriminate. split; [ | split].
  - apply lookup_union_Some_l. rewrite update_data_of_lookup.
    now rewrite decide_False, decide_True by (discriminate || reflexivity).
  - rewrite lookup_union, update_data_of_lookup, decide_True by reflexivity.
    subst old. destruct (Mongo.find_one _ (Mongo.documents c)) as [stored | ]; [ | reflexivity].
    rewrite Hdk by discriminate. cbn.
    now destruct (Mongo.to_dict session !! "created_at"), (stored !! "created_at").
  - intros k H1 H2 H3 H4 H5. rewrite lookup_delete_ne by auto.
    rewrite lookup_union, update_data_of_lookup, !decide_False, Hdk by auto.
    subst old. destruct (Mongo.find_one _ (Mongo.documents c)) as [stored | ]; cbn.
    + now destruct (Mongo.to_dict session !! k), (stored !! k).
    + rewrite lookup_insert_ne, lookup_empty by auto.
      now destruct (Mongo.to_dict session !! k).
Qed.

Lemma upsert_merges_witness :
  let stored : gmap string Mongo.Value :=
    {["session_id" := Mongo.Str "s1"; "created_at" := Mongo.Int 1600000000;
      "user_id" := Mongo.Str "ann"]} in
  let c := Mongo.Build_Collection [stored] true true in
  let session :=
    Mongo.Build_WorkflowSession (Mongo.IdStr "s1")
      {["session_id" := Mongo.Str "s1"; "workflow_id" := Mongo.Str "w"]} in
  exists doc c',
    Mongo.upsert Mongo.example_add_one session 1700000000 c = inr (Some doc, c') /\
    doc !! "updated_at" = Some (Mongo.Int 1700000000) /\
    doc !! "created_at" = Some (Mongo.Int 1600000000) /\
    doc !! "user_id" = Some (Mongo.Str "ann").
Proof.
  intros stored c session.
  destruct (upsert_merges_into_stored Mongo.example_add_one session 1700000000 c (Mongo.Str "s1") 1
              eq_refl eq_refl eq_refl eq_refl) as (doc & c' & E & Hu & Hc & Hk).
  exists doc, c'. split; [exact E | ]. split; [exact Hu | ]. split; [exact Hc | ].
  rewrite (Hk "user_id") by discriminate. vm_compute. reflexivity.
Defined.

Lemma read_find c sid u :
  Mongo.read c sid u =
  if Mongo.reachable c
  then delete "_id" <$>
       head (MongoStorage.find
               (("session_id", sid) ::
                match u with Some x => [("user_id", x)] | None => [] end)
               (Mongo.documents c))
  else None.
Proof.
  unfold Mongo.read. destruct (Mongo.reachable c); [ | reflexivity].
  assert (Hq : (match u with
                | Some x => [("session_id", sid)] ++ [("user_id", x)]
                | None => [("session_id", sid)]
                end) =
               ("session_id", sid) :: match u with Some x => [("user_id", x)] | None => [] end)
    by now destruct u.
  rewrite Hq, <- find_one_find.
  destruct (Mongo.find_one _ _) as [doc | ] eqn:E; [ | reflexivity].
  rewrite decide_False; [reflexivity | ].
  intros ->. apply find_one_Some in E as [_ E]. rewrite matches_cons in E.
  apply andb_true_iff in E as [E _]. apply bool_decide_eq_true in E.
  now rewrite lookup_empty in E.
Qed.

(** X23.  An upsert touches the documents of its own session id only:
    what [read] returns for any other session id is as before.  It never
    makes a second document for an id: the id has as many documents as
    before, or one if it had none, and the collection grows by one document
    exactly when the id was new. *)
Theorem upsert_keeps_sessions_apart add_one session timestamp c sid v :
  Mongo.reachable c = true ->
  filed_under session = Some sid -> next_version session = Some v ->
  exists r c',
    Mongo.upsert add_one session timestamp c = inr (r, c') /\
    (forall sid' u, sid' <> sid -> Mongo.read c' sid' u = Mongo.read c sid' u) /\
    length (MongoStorage.find [("session_id", sid)] (Mongo.documents c')) =
      Nat.max 1 (length (MongoStorage.find [("session_id", sid)] (Mongo.documents c))) /\
    length (Mongo.documents c') =
      match Mongo.find_one [("session_id", sid)] (Mongo.documents c) with
      | Some _ => length (Mongo.documents c)
      | None => S (length (Mongo.documents c))
      end.
Proof.
  intros Hup Hsid Hv.
  destruct (versioned_inr add_one session v Hv) as (d & Hd & Hdv & Hds & Hdk).
  rewrite Hsid in Hds.
  rewrite (upsert_reachable add_one _ _ _ _ _ Hd Hds Hup). cbv zeta.
  eexists _, _. split; [reflexivity | ].
  assert (Hupd : MongoStorage.update_data_of d timestamp
                   (Mongo.find_one [("session_id", sid)] (Mongo.documents c))
                   !! "session_id" = Some sid).
  { rewrite update_data_of_lookup. now rewrite !decide_False by discriminate. }
  split; [ | apply find_update_one_same; exact Hupd].
  intros sid' u Hne. rewrite !read_find. cbn [Mongo.reachable Mongo.documents].
  now rewrite (find_update_one_other sid sid' _ _ _ Hne Hupd).
Qed.

Lemma upsert_apart_witness :
  let other : gmap string Mongo.Value :=
    {["session_id" := Mongo.Str "s2"; "_id" := Mongo.Other "ObjectId(2)"]} in
  let c := Mongo.Build_Collection [other] true true in
  let session :=
    Mongo.Build_WorkflowSession (Mongo.IdStr "s1") {["session_id" := Mongo.Str "s1"]} in
  exists r c',
    Mongo.upsert Mongo.example_add_one session 1700000000 c = inr (r, c') /\
    Mongo.read c' (Mongo.Str "s2") None = Mongo.read c (Mongo.Str "s2") None /\
    length (Mongo.documents c') = 2.
Proof.
  intros other c session.
  destruct (upsert_keeps_sessions_apart Mongo.example_add_one session 1700000000 c (Mongo.Str "s1") 1
              eq_refl eq_refl eq_refl) as (r & c' & E & Hother & _ & Hlen).
  exists r, c'. split; [exact E | ]. split; [ | exact Hlen].
  apply Hother. discriminate.
Defined.

(** The serialised dict when the session's [_version] can be incremented. *)
Lemma versioned_plus_one add_one session x x' :
  Mongo.to_dict session !! "_version" = Some x ->
  Mongo.plus_one add_one x = Some x' ->
  exists d,
    Mongo.versioned add_one session = inr d /\
    d !! "_version" = Some x' /\
    d !! "session_id" = filed_under session.
Proof.
  intros Hx Hplus. unfold Mongo.versioned, filed_under.
  destruct (Mongo.session_id session) as [s | canonical].
  - rewrite Hx, Hplus. eexists. split; [reflexivity | ].
    rewrite lookup_insert_eq. split; [reflexivity | ]. now rewrite lookup_insert_ne.
  - rewrite (lookup_insert_ne (Mongo.to_dict session) "session_id" "_version")
      by discriminate.
    rewrite Hx, Hplus. eexists. split; [reflexivity | ].
    rewrite lookup_insert_eq. split; [reflexivity | ].
    now rewrite lookup_insert_ne, lookup_insert_eq.
Qed.

(** X24.  What [upsert] does with a [_version] that is not an integer, and
    when it cannot complete.  [+= 1] raises [TypeError] exactly where
    Python's [+ 1] does (always for a string or a UUID); where it does not,
    as for a float or a boolean, the incremented value is stored and
    returned like an integer version.  A serialised dict without
    ["session_id"] raises [KeyError].  Neither error is a [PyMongoError], so
    both escape, before the collection is touched.  An unreachable server
    gives [None] and leaves the collection as it is.  And a write that the
    server does not acknowledge gives [None] although the document has been
    stored. *)
Theorem upsert_failures add_one session timestamp c :
  (forall x,
      Mongo.to_dict session !! "_version" = Some x ->
      Mongo.plus_one add_one x = None ->
      Mongo.upsert add_one session timestamp c = inl Py.TypeError) /\
  (forall x x' sid,
      Mongo.to_dict session !! "_version" = Some x ->
      Mongo.plus_one add_one x = Some x' ->
      filed_under session = Some sid ->
      Mongo.reachable c = true -> Mongo.acknowledged c = true ->
      exists doc c',
        Mongo.upsert add_one session timestamp c = inr (Some doc, c') /\
        doc !! "_version" = Some x') /\
  (is_Some (next_version session) -> filed_under session = None ->
   Mongo.upsert add_one session timestamp c = inl (Py.KeyError "session_id")) /\
  (is_Some (next_version session) -> is_Some (filed_under session) ->
   Mongo.reachable c = false -> Mongo.upsert add_one session timestamp c = inr (None, c)) /\
  (forall sid,
      is_Some (next_version session) -> filed_under session = Some sid ->
      Mongo.reachable c = true -> Mongo.acknowledged c = false ->
      exists c',
        Mongo.upsert add_one session timestamp c = inr (None, c') /\
        is_Some (Mongo.find_one [("session_id", sid)] (Mongo.documents c'))).
Proof.
  split; [ | split; [ | split; [ | split]]].
  - intros x Hx Hplus. unfold Mongo.upsert, Mongo.versioned.
    destruct (Mongo.session_id session) as [s | canonical].
    + now rewrite Hx, Hplus.
    + rewrite (lookup_insert_ne (Mongo.to_dict session) "session_id" "_version")
        by discriminate.
      now rewrite Hx, Hplus.
  - intros x x' sid Hx Hplus Hsid Hup Hack.
    destruct (versioned_plus_one add_one session x x' Hx Hplus) as (d & Hd & Hdv & Hds).
    rewrite Hsid in Hds.
    rewrite (upsert_reachable add_one _ _ _ _ _ Hd Hds Hup). cbv zeta. rewrite Hack.
    unfold Mongo.read. cbn [Mongo.reachable Mongo.documents]. rewrite Hup.
    rewrite find_one_update_one_eq.
    2:{ constructor; [ | constructor]. cbn [fst snd].
        rewrite update_data_of_lookup. now rewrite !decide_False by discriminate. }
    set (old := default _ _).
    assert ((MongoStorage.update_data_of d timestamp
               (Mongo.find_one [("session_id", sid)] (Mongo.documents c)) ∪ old)
              !! "_version" = Some x') as Hstored.
    { apply lookup_union_Some_l. rewrite update_data_of_lookup.
      now rewrite !decide_False by discriminate. }
    destruct (decide (_ ∪ old = ∅)) as [E | _].
    { rewrite E, lookup_empty in Hstored. discriminate. }
    eexists _, _. split; [reflexivity | ].
    now rewrite lookup_delete_ne by discriminate.
  - intros [v Hv] Hsid.
    destruct (versioned_inr add_one session v Hv) as (d & Hd & _ & Hds & _).
    rewrite Hsid in Hds. unfold Mongo.upsert. rewrite Hd. cbv beta iota zeta.
    now rewrite Hds.
  - intros [v Hv] [sid Hsid] Hdown.
    destruct (versioned_inr add_one session v Hv) as (d & Hd & _ & Hds & _).
    rewrite Hsid in Hds. unfold Mongo.upsert. rewrite Hd. cbv beta iota zeta.
    now rewrite Hds, Hdown.
  - intros sid [v Hv] Hsid Hup Hack.
    destruct (versioned_inr add_one session v Hv) as (d & Hd & _ & Hds & _).
    rewrite Hsid in Hds.
    rewrite (upsert_reachable add_one _ _ _ _ _ Hd Hds Hup). cbv zeta. rewrite Hack.
    eexists. split; [reflexivity | ]. cbn [Mongo.documents].
    rewrite find_one_update_one_eq; [eauto | ].
    constructor; [ | constructor]. cbn [fst snd].
    rewrite update_data_of_lookup. now rewrite !decide_False by discriminate.
Qed.

Lemma upsert_failures_witness :
  let silent := Mongo.Build_Collection [] true false in
  let c := Mongo.Build_Collection [] true true in
  let versioned_as x :=
    Mongo.Build_WorkflowSession (Mongo.IdStr "s1")
      {["session_id" := Mongo.Str "s1"; "_version" := x]} in
  let good :=
    Mongo.Build_WorkflowSession (Mongo.IdStr "s1") {["session_id" := Mongo.Str "s1"]} in
  Mongo.upsert Mongo.example_add_one (versioned_as (Mongo.Str "3")) 1700000000 c
    = inl Py.TypeError /\
  Mongo.upsert Mongo.example_add_one (versioned_as (Mongo.Other "None")) 1700000000 c
    = inl Py.TypeError /\
  (exists doc c',
      Mongo.upsert Mongo.example_add_one (versioned_as (Mongo.Other "1.5")) 1700000000 c
        = inr (Some doc, c') /\
      doc !! "_version" = Some (Mongo.Other "2.5")) /\
  (exists doc c',
      Mongo.upsert Mongo.example_add_one (versioned_as (Mongo.Other "True")) 1700000000 c
        = inr (Some doc, c') /\
      doc !! "_version" = Some (Mongo.Int 2)) /\
  exists c',
    Mongo.upsert Mongo.example_add_one good 1700000000 silent = inr (None, c') /\
    is_Some (Mongo.find_one [("session_id", Mongo.Str "s1")] (Mongo.documents c')).
Proof.
  intros silent c versioned_as good. split; [ | split; [ | split; [ | split]]].
  - exact (proj1 (upsert_failures Mongo.example_add_one (versioned_as (Mongo.Str "3"))
                    1700000000 c) _ eq_refl eq_refl).
  - exact (proj1 (upsert_failures Mongo.example_add_one (versioned_as (Mongo.Other "None"))
                    1700000000 c) _ eq_refl eq_refl).
  - exact (proj1 (proj2 (upsert_failures Mongo.example_add_one
                           (versioned_as (Mongo.Other "1.5")) 1700000000 c))
             _ _ (Mongo.Str "s1") eq_refl eq_refl eq_refl eq_refl eq_refl).
  - exact (proj1 (proj2 (upsert_failures Mongo.example_add_one
                           (versioned_as (Mongo.Other "True")) 1700000000 c))
             _ _ (Mongo.Str "s1") eq_refl eq_refl eq_refl eq_refl eq_refl).
  - exact (proj2 (proj2 (proj2 (proj2 (upsert_failures Mongo.example_add_one good
                                          1700000000 silent))))
             (Mongo.Str "s1") (ex_intro _ 1%Z eq_refl) eq_refl eq_refl eq_refl).
Defined.

(** ** Reading, deleting, listing *)




Lemma find_delete_first_other sid sid' query docs docs' :
  sid' <> sid ->
  MongoStorage.delete_first [("session_id", sid)] docs = Some docs' ->
  MongoStorage.find (("session_id", sid') :: query) docs' =
  MongoStorage.find (("session_id", sid') :: query) docs.
Proof.
  intros Hne. revert docs'. induction docs as [ | doc docs IH]; [discriminate | ].
  intros docs'. cbn [MongoStorage.delete_first].
  destruct (Mongo.matches [("session_id", sid)] doc) eqn:E.
  - intros [= <-]. apply matches_session_id in E.
    now rewrite find_cons, (matches_other_session sid sid' query doc Hne E).
  - destruct (MongoStorage.delete_first _ docs) as [rest | ]; [ | discriminate].
    intros [= <-]. now rewrite !find_cons, (IH rest eq_refl).
Qed.

Lemma find_delete_first_same query docs :
  match MongoStorage.delete_first query docs with
  | Some docs' =>
      S (length (MongoStorage.find query docs')) = length (MongoStorage.find query docs) /\
      S (length docs') = length docs
  | None => MongoStorage.find query docs = []
  end.
Proof.
  induction docs as [ | doc docs IH]; [reflexivity | ].
  cbn [MongoStorage.delete_first]. rewrite find_cons.
  destruct (Mongo.matches query doc) eqn:E; [now split | ].
  destruct (MongoStorage.delete_first query docs) as [rest | ];
    cbn [fmap option_fmap option_map]; [ | exact IH].
  rewrite find_cons, E. cbn [length]. destruct IH. split; [assumption | lia].
Qed.

(** A query with more fields finds nothing where the query for the session
    id finds nothing. *)
Lemma find_narrower sid query docs :
  MongoStorage.find [("session_id", sid)] docs = [] ->
  MongoStorage.find (("session_id", sid) :: query) docs = [].
Proof.
  induction docs as [ | doc docs IH]; [reflexivity | ].
  rewrite !find_cons, (matches_cons _ _ query), (matches_cons _ _ []).
  cbn [Mongo.matches forallb]. rewrite andb_true_r.
  destruct (bool_decide (doc !! "session_id" = Some sid)); [discriminate | ].
  cbn. exact IH.
Qed.

(** X26.  [delete_session] without a session id only logs a warning.  With
    one, it removes the first document of that session id and no other:
    the id has one document fewer (none fewer if it had none), what [read]
    returns for any other session id is as before, and when the id had at
    most one document [read] finds nothing under it afterwards.  If the
    server cannot be reached the collection is left as it is and the error
    is only logged. *)
Theorem delete_session_removes_one sid c :
  MongoStorage.delete_session None c = (c, MongoStorage.Warning) /\
  (Mongo.reachable c = false ->
   MongoStorage.delete_session (Some sid) c = (c, MongoStorage.Error)) /\
  let c' := (MongoStorage.delete_session (Some sid) c).1 in
  (forall sid' u, sid' <> sid -> Mongo.read c' sid' u = Mongo.read c sid' u) /\
  (Mongo.reachable c = true ->
   length (MongoStorage.find [("session_id", sid)] (Mongo.documents c')) =
   length (MongoStorage.find [("session_id", sid)] (Mongo.documents c)) - 1) /\
  (length (MongoStorage.find [("session_id", sid)] (Mongo.documents c)) <= 1 ->
   forall u, Mongo.read c' sid u = None).
Proof.
  split; [reflexivity | ]. split; [now intros H; cbn; rewrite H | ].
  cbv zeta. unfold MongoStorage.delete_session.
  destruct (Mongo.reachable c) eqn:Hup.
  2:{ cbn [fst]. repeat split; try discriminate.
      intros _ u. unfold Mongo.read. now rewrite Hup. }
  pose proof (find_delete_first_same [("session_id", sid)] (Mongo.documents c)) as Hsame.
  destruct (MongoStorage.delete_first _ (Mongo.documents c)) as [docs' | ] eqn:E; cbn [fst].
  - destruct Hsame as [Hsame _]. split; [ | split].
    + intros sid' u Hne. rewrite !read_find, Hup. cbn [Mongo.reachable Mongo.documents].
      now rewrite (find_delete_first_other sid sid' _ _ _ Hne E).
    + intros _. cbn [Mongo.documents]. lia.
    + intros Hone u. rewrite read_find. cbn [Mongo.reachable Mongo.documents].
      rewrite find_narrower; [reflexivity | ]. apply length_zero_iff_nil. lia.
  - split; [reflexivity | ]. split; [rewrite Hsame; reflexivity | ].
    intros _ u. rewrite read_find, Hup. now rewrite find_narrower.
Qed.

Lemma delete_session_witness :
  let s1 : gmap string Mongo.Value := {["session_id" := Mongo.Str "s1"]} in
  let s2 : gmap string Mongo.Value := {["session_id" := Mongo.Str "s2"]} in
  let c := Mongo.Build_Collection [s1; s2] true true in
  let c' := (MongoStorage.delete_session (Some (Mongo.Str "s1")) c).1 in
  Mongo.read c' (Mongo.Str "s2") None = Mongo.read c (Mongo.Str "s2") None /\
  Mongo.read c' (Mongo.Str "s1") None = None.
Proof.
  intros s1 s2 c c'.
  destruct (delete_session_removes_one (Mongo.Str "s1") c) as (_ & _ & Hother & _ & Hgone).
  split; [apply Hother; discriminate | ].
  apply Hgone. vm_compute. lia.
Defined.

Lemma session_ids_inv cursor :
  match MongoStorage.session_ids cursor with
  | inr ids =>
      ids = omap (fun doc => MongoStorage.str_of <$> doc !! "session_id") cursor /\
      length ids = length cursor
  | inl e =>
      e = Py.KeyError "session_id" /\
      exists doc, doc ∈ cursor /\ doc !! "session_id" = None
  end.
Proof.
  induction cursor as [ | doc cursor IH]; [now split | ].
  cbn [MongoStorage.session_ids omap list_omap].
  destruct (doc !! "session_id") as [v | ] eqn:E.
  - destruct (MongoStorage.session_ids cursor) as [e | ids].
    + destruct IH as (-> & other & Hin & Hnone). split; [reflexivity | ].
      exists other. split; [now right | assumption].
    + destruct IH as (-> & Hlen). cbn. split; [reflexivity | ]. now rewrite Hlen.
  - split; [reflexivity | ]. exists doc. split; [now left | assumption].
Qed.

Lemma elem_of_find query doc docs :
  doc ∈ MongoStorage.find query docs <-> doc ∈ docs /\ Mongo.matches query doc = true.
Proof. unfold MongoStorage.find. rewrite list_elem_of_filter. tauto. Qed.

Lemma matches_filters user_id workflow_id doc :
  Mongo.matches (MongoStorage.filters user_id workflow_id) doc = true <->
  (forall x, user_id = Some x -> doc !! "user_id" = Some x) /\
  (forall x, workflow_id = Some x -> doc !! "workflow_id" = Some x).
Proof.
  unfold MongoStorage.filters.
  destruct user_id as [x | ], workflow_id as [y | ]; cbn [app];
    rewrite ?matches_cons, ?andb_true_iff, ?bool_decide_eq_true; cbn; split.
  - intros (H1 & H2 & _). split; now intros ? [= <-].
  - intros (H1 & H2). auto.
  - intros (H1 & _). split; [now intros ? [= <-] | discriminate].
  - intros (H1 & _). auto.
  - intros (H1 & _). split; [discriminate | now intros ? [= <-]].
  - intros (_ & H2). auto.
  - intros _. split; discriminate.
  - reflexivity.
Qed.

(** X27.  [get_all_session_ids] lists, as strings, the session ids of the
    documents that have the user id and the workflow id asked for (each
    filter applying only when the argument is not [None]), one per matching
    document, in the order in which the server's sort returns them.  If one
    of the matching documents has no ["session_id"], [KeyError] escapes: only
    a [PyMongoError] is caught.  If the server cannot be reached the result
    is the empty list. *)
Theorem session_ids_of_matching sort user_id workflow_id c :
  (forall docs, sort docs ≡ₚ docs) ->
  (Mongo.reachable c = false ->
   MongoStorage.get_all_session_ids sort user_id workflow_id c = inr []) /\
  (forall doc,
      doc ∈ MongoStorage.find (MongoStorage.filters user_id workflow_id) (Mongo.documents c) <->
      doc ∈ Mongo.documents c /\
      (forall x, user_id = Some x -> doc !! "user_id" = Some x) /\
      (forall x, workflow_id = Some x -> doc !! "workflow_id" = Some x)) /\
  (Mongo.reachable c = true ->
   let found :=
     MongoStorage.find (MongoStorage.filters user_id workflow_id) (Mongo.documents c) in
   match MongoStorage.get_all_session_ids sort user_id workflow_id c with
   | inr ids =>
       ids = omap (fun doc => MongoStorage.str_of <$> doc !! "session_id") (sort found) /\
       ids ≡ₚ omap (fun doc => MongoStorage.str_of <$> doc !! "session_id") found /\
       length ids = length found
   | inl e =>
       e = Py.KeyError "session_id" /\
       exists doc, doc ∈ found /\ doc !! "session_id" = None
   end).
Proof.
  intros Hsort. split; [ | split].
  - intros Hdown. unfold MongoStorage.get_all_session_ids. now rewrite Hdown.
  - intros doc. rewrite elem_of_find, matches_filters. tauto.
  - intros Hup. cbv zeta. unfold MongoStorage.get_all_session_ids. rewrite Hup.
    pose proof (session_ids_inv
                  (sort (MongoStorage.find (MongoStorage.filters user_id workflow_id)
                           (Mongo.documents c)))) as H.
    destruct (MongoStorage.session_ids _) as [e | ids].
    + destruct H as (-> & doc & Hin & Hnone). split; [reflexivity | ].
      exists doc. split; [ | assumption]. now rewrite <- (Hsort _).
    + destruct H as (-> & Hlen). split; [reflexivity | ]. split.
      * now rewrite (Hsort _).
      * now rewrite Hlen, (Hsort _).
Qed.

Lemma newest_first_permutation docs : MongoStorage.newest_first docs ≡ₚ docs.
Proof.
  unfold MongoStorage.newest_first.
  induction docs as [ | doc docs IH]; [reflexivity | ]. cbn [foldr].
  rewrite <- IH at 2. generalize (foldr MongoStorage.insert_newest [] docs).
  intros sorted. induction sorted as [ | d ds IHs]; [reflexivity | ].
  cbn [MongoStorage.insert_newest].
  destruct (MongoStorage.created_at d <=? MongoStorage.created_at doc)%Z; [reflexivity | ].
  rewrite IHs. apply Permutation_swap.
Qed.

Lemma session_ids_witness :
  let s1 : gmap string Mongo.Value :=
    {["session_id" := Mongo.Str "s1"; "user_id" := Mongo.Str "ann";
      "created_at" := Mongo.Int 1600000000]} in
  let s2 : gmap string Mongo.Value :=
    {["session_id" := Mongo.Str "s2"; "user_id" := Mongo.Str "bob";
      "created_at" := Mongo.Int 1650000000]} in
  let s3 : gmap string Mongo.Value :=
    {["session_id" := Mongo.Str "s3"; "user_id" := Mongo.Str "ann";
      "created_at" := Mongo.Int 1700000000]} in
  let c := Mongo.Build_Collection [s1; s2; s3] true true in
  MongoStorage.get_all_session_ids MongoStorage.newest_first (Some (Mongo.Str "ann")) None c =
    inr ["s3"; "s1"] /\
  MongoStorage.get_all_session_ids MongoStorage.newest_first None None
    (Mongo.Build_Collection [s1] false true) = inr [].
Proof.
  intros s1 s2 s3 c. split; [vm_compute; reflexivity | ].
  exact (proj1 (session_ids_of_matching MongoStorage.newest_first None None
                  (Mongo.Build_Collection [s1] false true) newest_first_permutation)
           eq_refl).
Defined.

(** ** Upsert, then delete *)

(** X28.  Storing a session and then deleting it by its id leaves nothing
    to read under that id, provided the id had at most one document before
    (as the unique index of [create] ensures); what [read] returns for every
    other session id is what it returned before the two operations, and the
    collection ends up with the documents it had without those of the
    session. *)
Theorem upsert_then_delete add_one session timestamp c sid v :
  Mongo.reachable c = true ->
  filed_under session = Some sid -> next_version session = Some v ->
  length (MongoStorage.find [("session_id", sid)] (Mongo.documents c)) <= 1 ->
  exists r c',
    Mongo.upsert add_one session timestamp c = inr (r, c') /\
    let c'' := (MongoStorage.delete_session (Some sid) c').1 in
    (forall u, Mongo.read c'' sid u = None) /\
    (forall sid' u, sid' <> sid -> Mongo.read c'' sid' u = Mongo.read c sid' u) /\
    length (Mongo.documents c'') =
    length (Mongo.documents c) -
    length (MongoStorage.find [("session_id", sid)] (Mongo.documents c)).
Proof.
  intros Hup Hsid Hv Hone.
  destruct (versioned_inr add_one session v Hv) as (d & Hd & Hdv & Hds & Hdk).
  rewrite Hsid in Hds.
  rewrite (upsert_reachable add_one _ _ _ _ _ Hd Hds Hup). cbv zeta.
  eexists _, _. split; [reflexivity | ].
  assert (Hupd : MongoStorage.update_data_of d timestamp
                   (Mongo.find_one [("session_id", sid)] (Mongo.documents c))
                   !! "session_id" = Some sid).
  { rewrite update_data_of_lookup. now rewrite !decide_False by discriminate. }
  destruct (find_update_one_same sid _ (Mongo.documents c) Hupd) as [Hcount Hlen].
  pose proof (find_one_find [("session_id", sid)] (Mongo.documents c)) as Hhead.
  unfold MongoStorage.delete_session. cbn [Mongo.reachable Mongo.documents Mongo.acknowledged].
  pose proof (find_delete_first_same [("session_id", sid)]
                (Mongo.update_one [("session_id", sid)]
                   (MongoStorage.update_data_of d timestamp
                      (Mongo.find_one [("session_id", sid)] (Mongo.documents c)))
                   (Mongo.documents c))) as Hdel.
  rewrite Hup.
  destruct (MongoStorage.delete_first _ _) as [docs'' | ] eqn:E.
  - destruct Hdel as [Hdel Hdel']. cbn [fst]. split; [ | split].
    + intros u. rewrite read_find. cbn [Mongo.reachable Mongo.documents].
      rewrite find_narrower; [reflexivity | ]. apply length_zero_iff_nil. lia.
    + intros sid' u Hne. rewrite !read_find, Hup. cbn [Mongo.reachable Mongo.documents].
      rewrite (find_delete_first_other sid sid' _ _ _ Hne E).
      now rewrite (find_update_one_other sid sid' _ _ _ Hne Hupd).
    + cbn [Mongo.documents]. rewrite Hlen, Hhead in Hdel'.
      destruct (MongoStorage.find _ (Mongo.documents c)) as [ | x [ | y l]];
        cbn [head length] in *; lia.
  - exfalso. rewrite Hdel in Hcount. cbn in Hcount. lia.
Qed.

Lemma upsert_then_delete_witness :
  let stored : gmap string Mongo.Value :=
    {["session_id" := Mongo.Str "s1"; "created_at" := Mongo.Int 1600000000]} in
  let other : gmap string Mongo.Value := {["session_id" := Mongo.Str "s2"]} in
  let c := Mongo.Build_Collection [other; stored] true true in
  let session :=
    Mongo.Build_WorkflowSession (Mongo.IdStr "s1")
      {["session_id" := Mongo.Str "s1"; "workflow_id" := Mongo.Str "w"]} in
  exists r c',
    Mongo.upsert Mongo.example_add_one session 1700000000 c = inr (r, c') /\
    Mongo.read (MongoStorage.delete_session (Some (Mongo.Str "s1")) c').1
               (Mongo.Str "s1") None = None /\
    length (Mongo.documents (MongoStorage.delete_session (Some (Mongo.Str "s1")) c').1) = 1.
Proof.
  intros stored other c session.
  destruct (upsert_then_delete Mongo.example_add_one session 1700000000 c (Mongo.Str "s1") 1
              eq_refl eq_refl eq_refl)
    as (r & c' & Hupsert & Hgone & _ & Hlen).
  - vm_compute. lia.
  - exists r, c'. split; [exact Hupsert | ]. split; [apply Hgone | exact Hlen].
Defined.
